(** * profile_rds.py: a shallow embedding and its checked properties

    The script drives Amazon RDS (through boto) and MySQL (through MySQLdb).
    Both are outside the program: every call into them is modelled as a
    question to an environment [Env], which answers from the history of calls
    made so far and may answer with an exception.  The program itself becomes
    a function from the history to a result and a longer history.

    The script is Python 2: [map] runs its function eagerly for its effects
    and [str.format] accepts surplus arguments.

    Embedded: connect, add_utf8_support, create_param_groups (with its inner
    set_param), create_db, cleanup, load_db, profile_report, perform_test,
    perform_rds_test and the parameter-group lines of [__main__].  Left out:
    db_status, which nothing calls, and the threads of [__main__]; every
    function is looked at as run by one thread. *)

From Stdlib Require Import List String Ascii ZArith Lia Bool Arith Permutation.
From Stdlib Require Import DecimalString.
From Stdlib Require DecimalNat DecimalFacts.
Import ListNotations.
Open Scope string_scope.

Set Implicit Arguments.

(** ** Python values and exceptions *)

Module Py.

(** Values that travel through the script untyped: parameter values handed to
    RDS and the cells of a MySQL result row. *)
Inductive pyval : Type :=
| VNone
| VInt (z : Z)
| VStr (s : string).

Definition str_of_nat (n : nat) : string := NilZero.string_of_uint (Nat.to_uint n).
Definition str_of_Z (z : Z) : string := NilZero.string_of_int (Z.to_int z).

(** [str(x)] *)
Definition str (v : pyval) : string :=
  match v with
  | VNone => "None"
  | VInt z => str_of_Z z
  | VStr s => s
  end.

(** The exceptions the script can meet.  [MySQLError] and [BotoError] come
    from the two libraries, [Fault] is any other [Exception], [BaseFault] one
    that is not an [Exception] (KeyboardInterrupt, SystemExit). *)
Inductive exn : Type :=
| KeyError (key : string)
| IndexError
| TypeError
| AttributeError (attr : string)
| UnboundLocalError (var : string)
| MySQLError (errno : Z) (msg : string)
| BotoError (msg : string)
| Fault (what : string)
| BaseFault (what : string).

Definition is_Exception (e : exn) : bool :=
  match e with
  | BaseFault _ => false
  | _ => true
  end.

Inductive result (A : Type) : Type :=
| Ok (a : A)
| Raise (e : exn).
Arguments Raise {A} e.

Definition exn_of {A} (r : result A) : option exn :=
  match r with
  | Ok _ => None
  | Raise e => Some e
  end.

(** [x in s] for two strings *)
Definition contains (x s : string) : bool :=
  match index 0 x s with
  | Some _ => true
  | None => false
  end.

(** [c * n] for a one-character string *)
Fixpoint replicate (n : nat) (c : string) : string :=
  match n with
  | O => ""
  | S n' => c ++ replicate n' c
  end.

(** [l[0]] *)
Definition head {A} (l : list A) : result A :=
  match l with
  | [] => Raise IndexError
  | x :: _ => Ok x
  end.

(** [d[k]] for a dict held as its items *)
Fixpoint getitem {V} (d : list (string * V)) (k : string) : result V :=
  match d with
  | [] => Raise (KeyError k)
  | (k', v) :: d' => if String.eqb k' k then Ok v else getitem d' k
  end.

(** *** The format mini-language, as far as the script uses it

    Every replacement field of the script's tables is [{:N}] or [{:>N}] and
    is filled with a string: [{:N}] pads on the right, [{:>N}] on the left,
    neither truncates. *)
Inductive align : Type := AlignLeft | AlignRight.

Record format_spec : Type := Field { fs_align : align; fs_width : nat }.

Definition format_field (f : format_spec) (s : string) : string :=
  let pad := replicate (fs_width f - String.length s) " " in
  match fs_align f with
  | AlignLeft => s ++ pad
  | AlignRight => pad ++ s
  end.

(** The fields of [" ".join(formats)] filled from the front of [args]. *)
Fixpoint fill_fields (formats : list format_spec) (args : list string)
  : result (list string) :=
  match formats with
  | [] => Ok []
  | f :: fs =>
      match args with
      | [] => Raise IndexError
      | a :: args' =>
          match fill_fields fs args' with
          | Ok rest => Ok (format_field f a :: rest)
          | Raise e => Raise e
          end
      end
  end.

(** The joined format string filled by [format] with [args] unpacked:
    surplus arguments are ignored, a missing one raises IndexError. *)
Definition join_format (formats : list format_spec) (args : list string)
  : result string :=
  match fill_fields formats args with
  | Ok cells => Ok (String.concat " " cells)
  | Raise e => Raise e
  end.

End Py.
Import Py.

(** ** The outside world *)

Inductive level : Type := DEBUG | INFO | ERROR.

Record DBInstance : Type := MkInstance {
  inst_id : string;
  inst_status : string;
  inst_endpoint : option (string * Z)
}.

(** What [get_all_dbparameters] returns: a dict of the parameters of one page
    (only its keys matter here) and the attributes boto copied from the
    response.  [Marker] is there only when the response carried one. *)
Record ParameterGroup : Type := MkParameterGroup {
  pg_keys : list string;
  pg_Marker : option string
}.

(** One call that leaves the program (or one logging record). *)
Inductive event : Type :=
| EvConnectRds
| EvCreateParameterGroup (name engine description : string)
| EvGetAllDbParameters (groupname : string) (marker : option string)
| EvSetValue (groupname param : string) (val : pyval)
| EvApply (groupname param : string) (val : pyval)
| EvCreateDbInstance (id instance_class param_group : string)
| EvUpdate (id : string)
| EvGetAllDbInstances (instance_id : option string)
| EvDeleteDbInstance (id : string)
| EvDeleteParameterGroup (name : string)
| EvSleep (seconds : Z)
| EvConnect (database username pwd hostname : string) (portnum : Z)
| EvAutocommit
| EvCursor
| EvExecute (statement : string)
| EvFetchall
| EvCursorClose
| EvDbClose
| EvLog (lvl : level) (msg : string).

(** The history: each call with the exception it ended in, if any. *)
Definition entry : Type := event * option exn.
Definition trace : Type := list entry.

(** The environment answers each call from the history before it: the RDS
    requests, and every call on a MySQL connection or cursor that talks to
    the server or may refuse ([connect], [autocommit], [cursor], [execute],
    [fetchall] and the two [close]), each of which may raise.  [errno()] and
    [error()] read the last error off the connection object, which is open
    wherever the script calls them; [time.sleep] and [logging] stay in the
    process: these return normally. *)
Record Env : Type := MkEnv {
  boto_connect_rds : trace -> result unit;
  rds_create_parameter_group : trace -> string -> string -> string -> result string;
  rds_get_all_dbparameters : trace -> string -> option string -> result ParameterGroup;
  parameter_set_value : trace -> string -> string -> pyval -> result unit;
  parameter_apply : trace -> string -> string -> pyval -> result unit;
  rds_create_dbinstance : trace -> string -> string -> string -> result DBInstance;
  dbinstance_update : trace -> DBInstance -> result DBInstance;
  rds_get_all_dbinstances : trace -> option string -> result (list DBInstance);
  rds_delete_dbinstance : trace -> string -> result unit;
  rds_delete_parameter_group : trace -> string -> result unit;
  mysql_connect : trace -> string -> string -> string -> string -> Z -> result unit;
  connection_autocommit : trace -> result unit;
  connection_cursor : trace -> result unit;
  connection_close : trace -> result unit;
  cursor_close : trace -> result unit;
  cursor_execute : trace -> string -> result unit;
  cursor_fetchall : trace -> result (list (list pyval));
  db_errno : trace -> Z;
  db_error : trace -> string;
  (** ["{:>10}  {:>12.8f}  {}".format(row[0], row[1], row[2])]: the float
      formatting is left to the environment; it does not see the history. *)
  format_summary_row : list pyval -> result string
}.

(** ** Programs: history in, result and history out *)

Definition M (A : Type) : Type := trace -> result A * trace.

Definition ret {A} (a : A) : M A := fun tr => (Ok a, tr).

Definition raise {A} (e : exn) : M A := fun tr => (Raise e, tr).

Definition bind {A B} (m : M A) (k : A -> M B) : M B :=
  fun tr =>
    match m tr with
    | (Ok a, tr') => k a tr'
    | (Raise e, tr') => (Raise e, tr')
    end.

Notation "x <- m ;; k" := (bind m (fun x => k))
  (at level 61, m at next level, right associativity).
Notation "m ;;; k" := (bind m (fun _ => k))
  (at level 61, right associativity).

(** A pure computation that may raise. *)
Definition lift {A} (r : result A) : M A := fun tr => (r, tr).

(** A call answered by the environment. *)
Definition call {A} (ev : event) (answer : trace -> result A) : M A :=
  fun tr => let r := answer tr in (r, (tr ++ [(ev, exn_of r)])%list).

(** A record or a pause that returns normally. *)
Definition emit (ev : event) : M unit :=
  fun tr => (Ok tt, (tr ++ [(ev, None)])%list).

(** [try: body / except: handler] with a bare [except]. *)
Definition try_except {A} (body : M A) (handler : exn -> M A) : M A :=
  fun tr =>
    match body tr with
    | (Ok a, tr') => (Ok a, tr')
    | (Raise e, tr') => handler e tr'
    end.

(** [try: body / finally: fin]: [fin] runs on both ways out; an exception
    of [fin] replaces the outcome of [body]. *)
Definition try_finally {A} (body : M A) (fin : M unit) : M A :=
  fun tr =>
    match body tr with
    | (r, tr') =>
        match fin tr' with
        | (Ok _, tr'') => (r, tr'')
        | (Raise e, tr'') => (Raise e, tr'')
        end
    end.

(** [for x in l: body x] *)
Fixpoint for_each {A} (l : list A) (body : A -> M unit) : M unit :=
  match l with
  | [] => ret tt
  | x :: l' => body x ;;; for_each l' body
  end.

(** [for i, x in enumerate(l): body i x], counting from [i]. *)
Fixpoint for_enumerate {A} (i : nat) (l : list A) (body : nat -> A -> M unit)
  : M unit :=
  match l with
  | [] => ret tt
  | x :: l' => body i x ;;; for_enumerate (S i) l' body
  end.

Definition logging_info (msg : string) : M unit := emit (EvLog INFO msg).
Definition logging_error (msg : string) : M unit := emit (EvLog ERROR msg).
Definition time_sleep (seconds : Z) : M unit := emit (EvSleep seconds).

(** ** Settings and tables at the top of the script *)

Definition DEFAULT_DATABASE := "testdata".
Definition DEFAULT_USER := "testuser".
Definition DEFAULT_PASSWD := "testpass".
Definition DEFAULT_HOST := "localhost".
Definition DEFAULT_PORT : Z := 3306.

Definition label := "testing".
Definition inst_class := "db.t1.micro".

Definition test_sql : list string := ["set profiling=1"; "select 1=1"].
Definition load_data_sql : list string := ["select 1=1"].

Definition CPU_PROFILE := "CPU".
Definition CONTEXT_PROFILE := "CONTEXT SWITCHES".
Definition BLOCK_PROFILE := "BLOCK IO".
Definition IPC_PROFILE := "IPC".
Definition PAGE_PROFILE := "PAGE FAULTS".
Definition SWAPS_PROFILE := "SWAPS".
Definition SOURCE_PROFILE := "SOURCE".
Definition ALL_PROFILES : list string :=
  [CPU_PROFILE; CONTEXT_PROFILE; BLOCK_PROFILE; IPC_PROFILE;
   PAGE_PROFILE; SWAPS_PROFILE; SOURCE_PROFILE].
Definition PROFILES := ALL_PROFILES.

Definition L (w : nat) := Field AlignLeft w.
Definition R (w : nat) := Field AlignRight w.

Definition profile_headers : list (string * (list string * list format_spec)) :=
  [ ("Always", (["";  "Status"; "Duration"], [L 20; R 10]));
    (CPU_PROFILE, ([""; "CPU User"; "CPU System"], [R 10; R 11]));
    (CONTEXT_PROFILE, (["Context"; "voluntary"; "involuntary"], [R 10; R 12]));
    (BLOCK_PROFILE, (["Block"; "ops in"; "ops out"], [R 7; R 8]));
    (IPC_PROFILE, (["Messages"; "sent"; "received"], [R 9; R 9]));
    (PAGE_PROFILE, (["Page faults"; "major"; "minor"], [R 12; R 12]));
    (SWAPS_PROFILE, ([""; "Swaps"], [R 6]));
    (SOURCE_PROFILE, ([""; "Source function"; "Source file"; "Source line"],
                      [R 18; R 15; R 12])) ].

(** ** profile_report (lines 297-330) *)

Definition and_then {A B} (r : result A) (k : A -> result B) : result B :=
  match r with
  | Ok a => k a
  | Raise e => Raise e
  end.

(** [acc = []; map(lambda a: acc.extend(f(a)), keys)]: the list grows key by
    key; the first key that raises ends the walk. *)
Fixpoint extend_each {A} (f : string -> result (list A)) (keys : list string)
  (acc : list A) : result (list A) :=
  match keys with
  | [] => Ok acc
  | a :: keys' => and_then (f a) (fun xs => extend_each f keys' (acc ++ xs)%list)
  end.

(** [profile_headers[a][1]] *)
Definition header_formats (a : string) : result (list format_spec) :=
  and_then (getitem profile_headers a) (fun h => Ok (snd h)).

(** [[profile_headers[a][0][0]] * len(profile_headers[a][1])] *)
Definition header_group_labels (a : string) : result (list string) :=
  and_then (getitem profile_headers a) (fun h =>
  and_then (head (fst h)) (fun g =>
  and_then (getitem profile_headers a) (fun h' =>
  Ok (repeat g (List.length (snd h')))))).

(** [profile_headers[a][0][1:]] *)
Definition header_column_labels (a : string) : result (list string) :=
  and_then (getitem profile_headers a) (fun h => Ok (tl (fst h))).

Definition newline : string := String (ascii_of_nat 10) "".

Definition profile_report (sql : string) (rows : list (list pyval))
  (categories : list string) : M unit :=
  logging_info (newline ++ "SQL: " ++ sql) ;;;
  logging_info (replicate 20 "-") ;;;
  let header_keys := ("Always" :: categories)%list in
  formats <- lift (extend_each header_formats header_keys []) ;;
  headers <- lift (extend_each header_group_labels header_keys []) ;;
  line <- lift (join_format formats headers) ;;
  logging_info line ;;;
  formats <- lift (extend_each header_formats header_keys []) ;;
  headers <- lift (extend_each header_column_labels header_keys []) ;;
  line <- lift (join_format formats headers) ;;
  logging_info line ;;;
  for_each rows (fun row =>
    let str_row := map str row in
    line <- lift (join_format formats str_row) ;;
    logging_info line).

(** What one key of [header_keys] brings to the three lists built by
    profile_report; nothing for a key that is not in the table. *)
Definition known (a : string) : bool :=
  match getitem profile_headers a with
  | Ok _ => true
  | Raise _ => false
  end.

Definition formats_of (a : string) : list format_spec :=
  match getitem profile_headers a with
  | Ok h => snd h
  | Raise _ => []
  end.

Definition group_labels_of (a : string) : list string :=
  match getitem profile_headers a with
  | Ok h => match fst h with
            | g :: _ => repeat g (List.length (snd h))
            | [] => []
            end
  | Raise _ => []
  end.

Definition column_labels_of (a : string) : list string :=
  match getitem profile_headers a with
  | Ok h => tl (fst h)
  | Raise _ => []
  end.

(** ** Code that talks to RDS and MySQL *)

Inductive connection : Type := Connection.

(** One entry of [params_to_vary]: a list of (parameter, value) tuples, or a
    single tuple (the [isinstance(param_set, list)] test tells them apart). *)
Inductive param_spec : Type :=
| SpecList (l : list (string * pyval))
| SpecTuple (p : string * pyval).

(** [x.endpoint[0]]; subscripting [None] is a TypeError. *)
Definition endpoint_host (x : DBInstance) : result string :=
  match inst_endpoint x with
  | Some (host, _) => Ok host
  | None => Raise TypeError
  end.

(** [pg.Marker] *)
Definition Marker (pg : ParameterGroup) : result string :=
  match pg_Marker pg with
  | Some m => Ok m
  | None => Raise (AttributeError "Marker")
  end.

Definition instance_name (label : string) (number : nat) (param_grp : string)
  : string :=
  label ++ "-" ++ str_of_nat number ++ "-" ++ param_grp.

Definition truthy {A} (l : list A) : bool :=
  match l with
  | [] => false
  | _ :: _ => true
  end.

Section Script.

Variable env : Env.

Definition rds_connect : M unit :=
  call EvConnectRds (boto_connect_rds env).

Definition execute (s : string) : M unit :=
  call (EvExecute s) (fun tr => cursor_execute env tr s).

Definition fetchall : M (list (list pyval)) :=
  call EvFetchall (cursor_fetchall env).

(** [dbc.autocommit(True)], [db.cursor()], [c.close()] and [db.close()] *)
Definition autocommit : M unit :=
  call EvAutocommit (connection_autocommit env).

Definition cursor : M unit :=
  call EvCursor (connection_cursor env).

Definition c_close : M unit :=
  call EvCursorClose (cursor_close env).

Definition db_close : M unit :=
  call EvDbClose (connection_close env).

(** *** connect (lines 80-108) *)
Definition connect (database username pwd hostname : string) (portnum : Z)
  : M connection :=
  call (EvConnect database username pwd hostname portnum)
       (fun tr => mysql_connect env tr database username pwd hostname portnum) ;;;
  autocommit ;;;
  ret Connection.

(** *** add_utf8_support (lines 111-125)

    The script extends the list in place; the lists of [__main__] are
    separate objects, so the extended list is returned instead. *)
Definition utf8params : list (string * pyval) :=
  [ ("character_set_server", VStr "utf8");
    ("character_set_client", VStr "utf8");
    ("character_set_connection", VStr "utf8");
    ("character_set_database", VStr "utf8");
    ("character_set_results", VStr "utf8");
    ("collation_server", VStr "utf8_general_ci");
    ("collation_connection", VStr "utf8_general_ci") ].

Definition add_utf8_support (param_set : list (string * pyval))
  : list (string * pyval) :=
  (param_set ++ utf8params)%list.

(** *** create_param_groups (lines 128-169) *)

(** [pg[param].value = val; pg[param].apply()] on a fetched page *)
Definition assign_and_apply (pg_name : string) (pg : ParameterGroup)
  (param : string) (val : pyval) : M unit :=
  if existsb (String.eqb param) (pg_keys pg) then
    call (EvSetValue pg_name param val)
         (fun tr => parameter_set_value env tr pg_name param val) ;;;
    call (EvApply pg_name param val)
         (fun tr => parameter_apply env tr pg_name param val)
  else raise (KeyError param).

(** The inner function [set_param]; [pg_name] is the enclosing loop's. *)
Definition set_param (pg_name : string) (param : string) (val : pyval) : M unit :=
  pg <- call (EvGetAllDbParameters pg_name None)
             (fun tr => rds_get_all_dbparameters env tr pg_name None) ;;
  if existsb (String.eqb param) (pg_keys pg) then
    assign_and_apply pg_name pg param val
  else
    marker <- lift (Marker pg) ;;
    pg2 <- call (EvGetAllDbParameters pg_name (Some marker))
                (fun tr => rds_get_all_dbparameters env tr pg_name (Some marker)) ;;
    assign_and_apply pg_name pg2 param val.

Definition group_name (name_prefix : string) (index : nat) : string :=
  "pg" ++ name_prefix ++ "-" ++ str_of_nat index.

(** Lines 162-166: a list is applied pair by pair, anything else is taken to
    be one pair. *)
Definition apply_param_set (pg_name : string) (param_set : param_spec) : M unit :=
  match param_set with
  | SpecList l => for_each l (fun pval => set_param pg_name (fst pval) (snd pval))
  | SpecTuple p => set_param pg_name (fst p) (snd p)
  end.

(** The [for index, param_set in enumerate(params_to_vary)] loop. *)
Fixpoint create_param_groups_from (name_prefix engine : string) (index : nat)
  (params_to_vary : list param_spec) (retVal : list string) : M (list string) :=
  match params_to_vary with
  | [] => ret retVal
  | param_set :: rest =>
      let pg_name := group_name name_prefix index in
      let description := name_prefix ++ " " ++ str_of_nat index in
      new_param_group_name <-
        call (EvCreateParameterGroup pg_name engine description)
             (fun tr => rds_create_parameter_group env tr pg_name engine description) ;;
      apply_param_set pg_name param_set ;;;
      create_param_groups_from name_prefix engine (S index) rest
        (retVal ++ [new_param_group_name])%list
  end.

Definition create_param_groups (name_prefix : string)
  (params_to_vary : list param_spec) (engine : string) : M (list string) :=
  rds_connect ;;;
  create_param_groups_from name_prefix engine 0 params_to_vary [].

(** *** create_db (lines 172-219) *)

(** [while inst.status != 'available': time.sleep(30); inst.update()].
    The loop has no bound of its own; [fuel] bounds the rounds the model is
    willing to run and [None] says it was not enough. *)
Fixpoint wait_until_available (fuel : nat) (inst : DBInstance) (tr : trace)
  : option (result DBInstance * trace) :=
  if String.eqb (inst_status inst) "available" then Some (Ok inst, tr)
  else
    match fuel with
    | O => None
    | S fuel' =>
        match (time_sleep 30 ;;;
               call (EvUpdate (inst_id inst))
                    (fun tr => dbinstance_update env tr inst)) tr with
        | (Ok inst', tr') => wait_until_available fuel' inst' tr'
        | (Raise e, tr') => Some (Raise e, tr')
        end
    end.

(** Lines 185-200: the create request and the first refresh. *)
Definition create_db_provision (number : nat) (label inst_class param_grp : string)
  : M DBInstance :=
  rds_connect ;;;
  logging_info ("Creating RDS instance with default database: "
                ++ label ++ " " ++ inst_class ++ " " ++ param_grp ++ newline) ;;;
  inst <- call (EvCreateDbInstance (instance_name label number param_grp)
                                   inst_class param_grp)
               (fun tr => rds_create_dbinstance env tr
                            (instance_name label number param_grp)
                            inst_class param_grp) ;;
  time_sleep 30 ;;;
  call (EvUpdate (inst_id inst)) (fun tr => dbinstance_update env tr inst).

(** Lines 204-219: connect as root, create the database and the user. *)
Definition create_db_bootstrap (number : nat) (label param_grp : string)
  (inst : DBInstance) : M DBInstance :=
  hostname <- lift (endpoint_host inst) ;;
  db <- connect "" "root" "changeME" hostname DEFAULT_PORT ;;
  cursor ;;;
  try_finally
    (try_except
       (execute ("CREATE DATABASE " ++ DEFAULT_DATABASE) ;;;
        execute ("grant all on " ++ DEFAULT_DATABASE ++ ".* to "
                 ++ DEFAULT_USER ++ "@'%' identified by '"
                 ++ DEFAULT_PASSWD ++ "'"))
       (fun _ tr =>
          logging_error ("setting up " ++ instance_name label number param_grp
                         ++ ", error " ++ str_of_Z (db_errno env tr) ++ " "
                         ++ db_error env tr ++ newline) tr))
    (c_close ;;; db_close) ;;;
  ret inst.

Definition create_db (fuel : nat) (number : nat)
  (label inst_class param_grp : string) (tr : trace)
  : option (result DBInstance * trace) :=
  match create_db_provision number label inst_class param_grp tr with
  | (Raise e, tr1) => Some (Raise e, tr1)
  | (Ok inst, tr1) =>
      match wait_until_available fuel inst tr1 with
      | None => None
      | Some (Raise e, tr2) => Some (Raise e, tr2)
      | Some (Ok inst', tr2) =>
          Some (create_db_bootstrap number label param_grp inst' tr2)
      end
  end.

(** *** cleanup (lines 235-264) *)

Definition deletable_statuses : list string :=
  [ "available"; "failed"; "storage-full"; "incompatible-option-group";
    "incompatible-parameters"; "incompatible-restore"; "incompatible-network" ].

(** One pass of the loop body (lines 247-258); returns the new [rs] and
    [label_rs]. *)
Definition cleanup_round (label : string)
  : M (list DBInstance * list DBInstance) :=
  rs <- call (EvGetAllDbInstances None)
             (fun tr => rds_get_all_dbinstances env tr None) ;;
  let label_rs := filter (fun d => contains label (inst_id d)) rs in
  for_each label_rs (fun inst =>
    if existsb (String.eqb (inst_status inst)) deletable_statuses then
      logging_info ("Deleting RDS instance " ++ inst_id inst) ;;;
      call (EvDeleteDbInstance (inst_id inst))
           (fun tr => rds_delete_dbinstance env tr (inst_id inst))
    else ret tt) ;;;
  (if truthy label_rs then time_sleep 60 else ret tt) ;;;
  ret (rs, label_rs).

(** [while loop < 10 and label_rs].  [rs] is unbound and [label_rs] is [True]
    before the first pass: both are [None] then.  The loop ends by itself
    when [loop] reaches 10, so [fuel] only has to be at least [10 - loop]
    (see [cleanup_while_fuel]). *)
Fixpoint cleanup_while (fuel : nat) (label : string) (loop : nat)
  (rs label_rs : option (list DBInstance))
  : M (nat * option (list DBInstance) * option (list DBInstance)) :=
  if Nat.ltb loop 10 && match label_rs with None => true | Some l => truthy l end
  then
    match fuel with
    | O => ret (loop, rs, label_rs)
    | S fuel' =>
        r <- cleanup_round label ;;
        cleanup_while fuel' label (loop + 1) (Some (fst r)) (Some (snd r))
    end
  else ret (loop, rs, label_rs).

Definition delete_parameter_groups (pgroups : list string) : M unit :=
  for_each pgroups (fun pg =>
    call (EvDeleteParameterGroup pg)
         (fun tr => rds_delete_parameter_group env tr pg)).

Definition timed_out_message := "Problem deleting RDS instances: timed out".

Definition cleanup (label : string) (pgroups : list string) : M unit :=
  rds_connect ;;;
  st <- cleanup_while 10 label 0 None None ;;
  let loop := fst (fst st) in
  let rs := snd (fst st) in
  if Nat.eqb loop 10 then
    match rs with
    | None => raise (UnboundLocalError "rs")
    | Some rs =>
        if truthy rs then logging_error timed_out_message
        else delete_parameter_groups pgroups
    end
  else delete_parameter_groups pgroups.

(** *** load_db (lines 267-295), for any list returned by [load_data_sql] *)
Definition load_db_with (sql : list string) (number : nat)
  (label param_grp : string) : M unit :=
  rds_connect ;;;
  logging_info ("Loading data into database: " ++ label ++ " "
                ++ str_of_nat number ++ " " ++ param_grp ++ newline) ;;;
  inst <- call (EvGetAllDbInstances (Some (instance_name label number param_grp)))
               (fun tr => rds_get_all_dbinstances env tr
                            (Some (instance_name label number param_grp))) ;;
  inst0 <- lift (head inst) ;;
  hostname <- lift (endpoint_host inst0) ;;
  db <- connect DEFAULT_DATABASE DEFAULT_USER DEFAULT_PASSWD hostname DEFAULT_PORT ;;
  cursor ;;;
  try_finally
    (try_except
       (for_each sql execute)
       (fun _ tr =>
          logging_error ("load data error on " ++ instance_name label number param_grp
                         ++ " " ++ str_of_Z (db_errno env tr) ++ " "
                         ++ db_error env tr ++ newline) tr))
    (c_close ;;; db_close).

Definition load_db := load_db_with load_data_sql.

(** *** perform_test (lines 333-372), for any list returned by [test_sql] *)

Definition show_profile (profile_list : string) (i : nat) : string :=
  "show profile " ++ profile_list ++ " for query " ++ str_of_nat i.

(** Lines 361-366: the detailed rows of query [i] and their report; the
    statement that switched profiling on ([i == 0]) is passed over. *)
Definition profile_query (profile_list : string) (profiles : list string)
  (i : nat) (s : string) : M unit :=
  if Nat.eqb i 0 then ret tt
  else
    execute (show_profile profile_list i) ;;;
    rows <- fetchall ;;
    profile_report s rows profiles.

(** Lines 349-368: the body of the [try] block. *)
Definition perform_test_body (sql : list string) (profiles : list string)
  (db_name : string) : M unit :=
  let profile_list := String.concat "," profiles in
  for_each sql execute ;;;
  execute "show profiles" ;;;
  rows <- fetchall ;;
  logging_info ("Database " ++ db_name ++ " Profiling data" ++ newline) ;;;
  logging_info (format_field (R 10) "Query ID" ++ "  "
                ++ format_field (R 12) "Duration" ++ "  " ++ "Query") ;;;
  logging_info (replicate 31 "-") ;;;
  for_each rows (fun row =>
    line <- lift (format_summary_row env row) ;;
    logging_info line) ;;;
  for_enumerate 0 sql (profile_query profile_list profiles) ;;;
  execute "set profiling=0".

Definition perform_test_with (sql : list string) (db : connection)
  (profiles : list string) (db_name : string) : M unit :=
  cursor ;;;
  try_finally
    (try_except (perform_test_body sql profiles db_name) (fun e => raise e))
    c_close.

Definition perform_test := perform_test_with test_sql.

(** *** perform_rds_test (lines 375-399) *)

(** [try: body / except Exception as e: handler] *)
Definition try_except_Exception {A} (body : M A) (handler : exn -> M A) : M A :=
  fun tr =>
    match body tr with
    | (Ok a, tr') => (Ok a, tr')
    | (Raise e, tr') => if is_Exception e then handler e tr' else (Raise e, tr')
    end.

(** [db] is assigned by the first statement of the [try] block and read by
    the handler and by [finally]; when that statement raised, [db] is unbound
    and both reads raise UnboundLocalError. *)
Definition perform_rds_test_with (sql : list string) (number : nat)
  (label param_grp : string) (profiles : list string) : M unit :=
  rds_connect ;;;
  logging_info ("Performing test on database: " ++ label ++ " "
                ++ str_of_nat number ++ " " ++ param_grp ++ newline) ;;;
  inst <- call (EvGetAllDbInstances (Some (instance_name label number param_grp)))
               (fun tr => rds_get_all_dbinstances env tr
                            (Some (instance_name label number param_grp))) ;;
  fun tr =>
    match (inst0 <- lift (head inst) ;;
           hostname <- lift (endpoint_host inst0) ;;
           connect DEFAULT_DATABASE DEFAULT_USER DEFAULT_PASSWD hostname
                   DEFAULT_PORT) tr with
    | (Ok db, tr1) =>
        try_finally
          (try_except_Exception
             (inst0 <- lift (head inst) ;;
              perform_test_with sql db profiles (inst_id inst0))
             (fun e =>
                (fun tr =>
                   logging_error ("test error on "
                                  ++ instance_name label number param_grp ++ " "
                                  ++ str_of_Z (db_errno env tr) ++ " "
                                  ++ db_error env tr ++ newline) tr) ;;;
                raise e))
          db_close tr1
    | (Raise e, tr1) =>
        try_finally
          (try_except_Exception (raise e)
             (fun _ => raise (UnboundLocalError "db")))
          (raise (UnboundLocalError "db")) tr1
    end.

Definition perform_rds_test := perform_rds_test_with test_sql.

(** *** The parameter groups of [__main__] (lines 417-424) *)
Definition main_parameters : list (list (string * pyval)) :=
  [ [];
    [ ("innodb_buffer_pool_size", VInt (100 * 1024 * 1024));
      ("max_heap_table_size", VInt (100 * 1024 * 1024));
      ("tmp_table_size", VInt (100 * 1024 * 1024)) ] ].

Definition main_param_groups (label : string)
  (parameters : list (list (string * pyval))) : M (list string) :=
  create_param_groups label
    (map (fun pg => SpecList (add_utf8_support pg)) parameters) "MySQL5.5".

End Script.

(** ** What a run adds to the history *)

(** [emits P m]: a run of [m] only appends to the history, and every entry it
    appends satisfies [P]. *)
Definition emits {A} (P : entry -> Prop) (m : M A) : Prop :=
  forall tr, exists new, snd (m tr) = (tr ++ new)%list /\ Forall P new.

(** The entries of a history that [keep] selects, in order. *)
Definition select {X} (keep : entry -> option X) (tr : trace) : list X :=
  flat_map (fun e => match keep e with Some x => [x] | None => [] end) tr.

(** Names of the parameter groups whose creation succeeded. *)
Definition created_group (e : entry) : option string :=
  match e with
  | (EvCreateParameterGroup name _ _, None) => Some name
  | _ => None
  end.

(** (group, parameter, value) of every successful [apply()]. *)
Definition applied_value (e : entry) : option (string * string * pyval) :=
  match e with
  | (EvApply g p v, None) => Some (g, p, v)
  | _ => None
  end.

(** The pairs of one entry of [params_to_vary]. *)
Definition spec_pairs (param_set : param_spec) : list (string * pyval) :=
  match param_set with
  | SpecList l => l
  | SpecTuple p => [p]
  end.

(** (parameter, value) of every successful [apply()] on group [g]. *)
Definition applied_to (g : string) (e : entry) : option (string * pyval) :=
  match e with
  | (EvApply g' p v, None) => if String.eqb g' g then Some (p, v) else None
  | _ => None
  end.

(** [pairs] when [g'] is the group [g] looked at, nothing otherwise. *)
Definition on_group (g g' : string) (pairs : list (string * pyval))
  : list (string * pyval) :=
  if String.eqb g' g then pairs else [].

(** What the entries of [params_to_vary], numbered from [index], hold for the
    group of index [j]. *)
Definition pairs_at (index j : nat) (params_to_vary : list param_spec)
  : list (string * pyval) :=
  if Nat.leb index j then
    match nth_error params_to_vary (j - index) with
    | Some param_set => spec_pairs param_set
    | None => []
    end
  else [].

(** Every fetch of a parameter catalog, with its marker. *)
Definition catalog_fetch (e : entry) : option (string * option string) :=
  match e with
  | (EvGetAllDbParameters g m, _) => Some (g, m)
  | _ => None
  end.

(** Statements handed to [c.execute], failed ones included. *)
Definition executed (e : entry) : option string :=
  match e with
  | (EvExecute s, _) => Some s
  | _ => None
  end.

(** [failfast m]: whenever a call made by [m] ends in an exception, that
    exception is the result of [m]. *)
Definition failfast {A} (m : M A) : Prop :=
  forall tr, exists new,
    snd (m tr) = (tr ++ new)%list /\
    forall ev e, In (ev, Some e) new -> fst (m tr) = Raise e.

(** [runs_ok l m]: a run of [m] that returns has executed the statements [l],
    in this order, and none of its calls failed. *)
Definition runs_ok {A} (l : list string) (m : M A) : Prop :=
  forall tr a tr',
    m tr = (Ok a, tr') ->
    exists new,
      tr' = (tr ++ new)%list /\
      select executed new = l /\
      Forall (fun en => snd en = None) new.

(** [aborts ev0 m]: [m] is [failfast], and in a run of [m] that raises [e]
    the call [ev0] was made at most as the call that raised [e]. *)
Definition aborts {A} (ev0 : event) (m : M A) : Prop :=
  forall tr, exists new,
    snd (m tr) = (tr ++ new)%list /\
    (forall ev e, In (ev, Some e) new -> fst (m tr) = Raise e) /\
    (forall e, fst (m tr) = Raise e ->
               forall o, In (ev0, o) new -> o = Some e).

(** Statements issued by the loop over [enumerate(sql)] when it is entered
    at index [i] with [n] statements left. *)
Definition detail_queries (profile_list : string) (i n : nat) : list string :=
  map (show_profile profile_list)
      (filter (fun k => negb (Nat.eqb k 0)) (seq i n)).

(** The readiness wait of create_db as a relation:
    [refreshes env n inst tr inst' tr'] when, from the handle [inst] and the
    history [tr], the loop makes [n] rounds, each one entered because the
    handle is not yet 'available', each one a sleep of 30 seconds followed
    by a refresh that returns, and leaves the handle [inst'] and the history
    [tr']. *)
Inductive refreshes (env : Env)
  : nat -> DBInstance -> trace -> DBInstance -> trace -> Prop :=
| refreshes_done inst tr : refreshes env 0 inst tr inst tr
| refreshes_round n inst tr inst1 inst' tr' :
    inst_status inst <> "available" ->
    dbinstance_update env (tr ++ [(EvSleep 30, None)])%list inst = Ok inst1 ->
    refreshes env n inst1
      (tr ++ [(EvSleep 30, None); (EvUpdate (inst_id inst), None)])%list
      inst' tr' ->
    refreshes env (S n) inst tr inst' tr'.

(** Attempts to open a connection. *)
Definition connect_attempt (e : entry) : option string :=
  match e with
  | (EvConnect _ _ _ hostname _, _) => Some hostname
  | _ => None
  end.

(** Sleeps and refreshes of a handle. *)
Definition is_refresh (e : entry) : bool :=
  match e with
  | (EvUpdate _, _) => true
  | _ => false
  end.

(** *** Watching the polling of cleanup *)

(** The steps of the polling: a listing of all instances, a sleep. *)
Definition is_poll (e : entry) : bool :=
  match e with
  | (EvGetAllDbInstances None, _) => true
  | (EvSleep _, _) => true
  | _ => false
  end.

(** The latest polling step of a history, if any. *)
Definition latest_poll (tr : trace) : option event :=
  match rev (filter is_poll tr) with
  | [] => None
  | (ev, _) :: _ => Some ev
  end.

Definition just_listed (tr : trace) : bool :=
  match latest_poll tr with
  | Some (EvGetAllDbInstances None) => true
  | _ => false
  end.

Definition just_slept (tr : trace) : bool :=
  match latest_poll tr with
  | Some (EvSleep _) => true
  | _ => false
  end.

(** A watcher that reads the entries a run adds to the history.  It knows
    the history so far ([seen]), the number of listings of all instances
    made ([rounds]) and whether polling may go on ([matching]: no listing
    was made yet, or the latest one was answered with an instance whose id
    contains the label).  It gives up ([None]) on
    - a listing of all instances made although [matching] is false, or
      made after an earlier one without a sleep in between,
    - a sleep that is not of 60 seconds, or comes although [matching] is
      false, or is not the first polling step after a listing (so it comes
      neither before the first listing nor after another sleep).
    Every other entry passes. *)
Record watch : Type := MkWatch { seen : trace; rounds : nat; matching : bool }.

Definition watch_step (env : Env) (label : string) (w : option watch) (e : entry)
  : option watch :=
  match w with
  | None => None
  | Some w =>
      let seen' := (seen w ++ [e])%list in
      match e with
      | (EvGetAllDbInstances None, _) =>
          if matching w && (Nat.eqb (rounds w) 0 || just_slept (seen w)) then
            Some (MkWatch seen' (S (rounds w))
                    match rds_get_all_dbinstances env (seen w) None with
                    | Ok rs =>
                        truthy (filter (fun d => contains label (inst_id d)) rs)
                    | Raise _ => false
                    end)
          else None
      | (EvSleep s, _) =>
          if Z.eqb s 60 && Nat.ltb 0 (rounds w) && matching w
             && just_listed (seen w)
          then Some (MkWatch seen' (rounds w) (matching w))
          else None
      | _ => Some (MkWatch seen' (rounds w) (matching w))
      end
  end.

Definition watch_run (env : Env) (label : string) (w : watch) (new : trace)
  : option watch :=
  fold_left (watch_step env label) new (Some w).

(** The second half of the loop condition: [label_rs] is [True] before the
    first pass and a list afterwards. *)
Definition may_go_on (label_rs : option (list DBInstance)) : bool :=
  match label_rs with
  | None => true
  | Some l => truthy l
  end.

(** An entry the watcher lets pass without a look. *)
Definition unwatched (e : entry) : Prop :=
  match e with
  | (EvGetAllDbInstances None, _) => False
  | (EvSleep _, _) => False
  | _ => True
  end.

(** Parameter groups whose deletion was asked for. *)
Definition deleted_group (e : entry) : option string :=
  match e with
  | (EvDeleteParameterGroup name, _) => Some name
  | _ => None
  end.

(** *** Open handles

    [connect] and [cursor()] open a handle when they return; a [close()]
    call ends the use of its handle whether it returns or raises (it is
    counted as closing, the reading most favourable to the script). *)
Record handles : Type := MkHandles { db_open : bool; cursor_open : bool }.

Definition no_handles : handles := MkHandles false false.

Definition handle_step (h : handles) (e : entry) : handles :=
  match e with
  | (EvConnect _ _ _ _ _, None) => MkHandles true (cursor_open h)
  | (EvCursor, None) => MkHandles (db_open h) true
  | (EvCursorClose, _) => MkHandles (db_open h) false
  | (EvDbClose, _) => MkHandles false (cursor_open h)
  | _ => h
  end.

Definition handles_after (h : handles) (new : trace) : handles :=
  fold_left handle_step new h.

(** An entry that opens and closes nothing. *)
Definition handle_free (e : entry) : Prop :=
  forall h, handle_step h e = h.

(** A call on a connection or cursor, other than a statement, that raised. *)
Definition handle_fault (e : entry) : bool :=
  match e with
  | (EvAutocommit, Some _) => true
  | (EvCursor, Some _) => true
  | (EvCursorClose, Some _) => true
  | (EvDbClose, Some _) => true
  | _ => false
  end.

(** Whatever way a run of [m] that starts with the handles [h] ends, both
    handles are closed after it, unless [autocommit()], [cursor()] or a
    [close()] raised in that run. *)
Definition ends_closed_from {A} (h : handles) (m : M A) : Prop :=
  forall tr, exists new,
    snd (m tr) = (tr ++ new)%list /\
    (existsb handle_fault new = false -> handles_after h new = no_handles).

(** Whatever way a run of [m] that starts with the handles [h] ends, the
    handles are again [h] after it. *)
Definition keeps_handles {A} (h : handles) (m : M A) : Prop :=
  forall tr, exists new,
    snd (m tr) = (tr ++ new)%list /\ handles_after h new = h.

(** The statement that switches profiling off. *)
Definition disable_profiling : event := EvExecute "set profiling=0".


(** ** Sample environments

    Small scripted answers for RDS and MySQL, used to run the embedding on
    concrete inputs. *)
Module Demo.

Definition is_update (e : entry) : bool :=
  match e with
  | (EvUpdate _, _) => true
  | _ => false
  end.

Definition is_listing (e : entry) : bool :=
  match e with
  | (EvGetAllDbInstances None, _) => true
  | _ => false
  end.

Definition count (p : entry -> bool) (tr : trace) : nat :=
  List.length (filter p tr).

(** The catalog of a group comes in two pages. *)
Definition page1 : ParameterGroup :=
  MkParameterGroup
    [ "character_set_server"; "character_set_client";
      "character_set_connection"; "character_set_database";
      "character_set_results"; "collation_server"; "collation_connection" ]
    (Some "page-2").

Definition page2 : ParameterGroup :=
  MkParameterGroup
    [ "innodb_buffer_pool_size"; "max_heap_table_size"; "tmp_table_size" ]
    None.

Definition running (id : string) : DBInstance :=
  MkInstance id "available" (Some (id ++ ".rds.example", 3306%Z)).

Definition creating (id : string) : DBInstance :=
  MkInstance id "creating" None.

Definition deleting (id : string) : DBInstance :=
  MkInstance id "deleting" (Some (id ++ ".rds.example", 3306%Z)).

(** [ready]: the refresh that first reports 'available' is the one made
    after [ready] earlier ones; [listing k]: the answer to the listing of all
    instances made after [k] earlier ones; [failing s]: the error statement
    [s] ends in, if any. *)
Definition world (ready : nat) (listing : nat -> list DBInstance)
  (failing : string -> option exn) : Env :=
  {| boto_connect_rds := fun _ => Ok tt;
     rds_create_parameter_group := fun _ name _ _ => Ok name;
     rds_get_all_dbparameters := fun _ _ marker =>
       match marker with
       | None => Ok page1
       | Some _ => Ok page2
       end;
     parameter_set_value := fun _ _ _ _ => Ok tt;
     parameter_apply := fun _ _ _ _ => Ok tt;
     rds_create_dbinstance := fun _ id _ _ => Ok (creating id);
     dbinstance_update := fun tr inst =>
       if Nat.leb ready (count is_update tr) then Ok (running (inst_id inst))
       else Ok (creating (inst_id inst));
     rds_get_all_dbinstances := fun tr instance_id =>
       match instance_id with
       | Some id => Ok [running id]
       | None => Ok (listing (count is_listing tr))
       end;
     rds_delete_dbinstance := fun _ _ => Ok tt;
     rds_delete_parameter_group := fun _ _ => Ok tt;
     mysql_connect := fun _ _ _ _ _ _ => Ok tt;
     connection_autocommit := fun _ => Ok tt;
     connection_cursor := fun _ => Ok tt;
     connection_close := fun _ => Ok tt;
     cursor_close := fun _ => Ok tt;
     cursor_execute := fun _ s =>
       match failing s with
       | Some e => Raise e
       | None => Ok tt
       end;
     cursor_fetchall := fun _ => Ok [];
     db_errno := fun _ => 1064%Z;
     db_error := fun _ => "You have an error in your SQL syntax";
     format_summary_row := fun row => Ok (String.concat "  " (map str row)) |}.

(** Nothing fails, the instance is ready at the first refresh, nothing is
    listed. *)
Definition quiet : Env := world 0 (fun _ => []) (fun _ => None).

(** The instance of the run is still being deleted in the first nine
    listings and gone in the tenth, where only an instance of another
    project is left. *)
Definition slow_delete : Env :=
  world 0
    (fun k => if Nat.ltb k 9 then [deleting "testing-0-pgtesting-0"]
              else [running "billing-db"])
    (fun _ => None).

(** The catalog of a group fits one page: the answer carries no marker. *)
Definition one_page : Env :=
  {| boto_connect_rds := boto_connect_rds quiet;
     rds_create_parameter_group := rds_create_parameter_group quiet;
     rds_get_all_dbparameters := fun _ _ _ =>
       Ok (MkParameterGroup (pg_keys page1) None);
     parameter_set_value := parameter_set_value quiet;
     parameter_apply := parameter_apply quiet;
     rds_create_dbinstance := rds_create_dbinstance quiet;
     dbinstance_update := dbinstance_update quiet;
     rds_get_all_dbinstances := rds_get_all_dbinstances quiet;
     rds_delete_dbinstance := rds_delete_dbinstance quiet;
     rds_delete_parameter_group := rds_delete_parameter_group quiet;
     mysql_connect := mysql_connect quiet;
     connection_autocommit := connection_autocommit quiet;
     connection_cursor := connection_cursor quiet;
     connection_close := connection_close quiet;
     cursor_close := cursor_close quiet;
     cursor_execute := cursor_execute quiet;
     cursor_fetchall := cursor_fetchall quiet;
     db_errno := db_errno quiet;
     db_error := db_error quiet;
     format_summary_row := format_summary_row quiet |}.

(** The server goes away once the session is open: every statement fails,
    and so does closing the cursor; closing the connection still returns. *)
Definition gone_away : Env :=
  {| boto_connect_rds := boto_connect_rds quiet;
     rds_create_parameter_group := rds_create_parameter_group quiet;
     rds_get_all_dbparameters := rds_get_all_dbparameters quiet;
     parameter_set_value := parameter_set_value quiet;
     parameter_apply := parameter_apply quiet;
     rds_create_dbinstance := rds_create_dbinstance quiet;
     dbinstance_update := dbinstance_update quiet;
     rds_get_all_dbinstances := rds_get_all_dbinstances quiet;
     rds_delete_dbinstance := rds_delete_dbinstance quiet;
     rds_delete_parameter_group := rds_delete_parameter_group quiet;
     mysql_connect := mysql_connect quiet;
     connection_autocommit := connection_autocommit quiet;
     connection_cursor := connection_cursor quiet;
     connection_close := connection_close quiet;
     cursor_close := fun _ =>
       Raise (MySQLError 2006 "MySQL server has gone away");
     cursor_execute := fun _ _ =>
       Raise (MySQLError 2006 "MySQL server has gone away");
     cursor_fetchall := cursor_fetchall quiet;
     db_errno := fun _ => 2006%Z;
     db_error := fun _ => "MySQL server has gone away";
     format_summary_row := format_summary_row quiet |}.

(** The one workload query fails. *)
Definition bad_query : Env :=
  world 0 (fun _ => [])
    (fun s => if String.eqb s "select 1=1"
              then Some (MySQLError 1064 "syntax error") else None).

End Demo.

(** ** The rest of the script *)

Definition logging_debug (msg : string) : M unit := emit (EvLog DEBUG msg).

Section Rest.

Variable env : Env.

(** *** db_status (lines 222-232)

    The debug line prints [inst.endpoint], a tuple or [None], through
    Python's [repr]; that text is taken as the parameter [show_endpoint]. *)
Definition db_status (show_endpoint : option (string * Z) -> string)
  : M (list DBInstance) :=
  rds_connect env ;;;
  rs <- call (EvGetAllDbInstances None)
             (fun tr => rds_get_all_dbinstances env tr None) ;;
  (if truthy rs then
     for_each rs (fun inst =>
       logging_debug ("RDS instance " ++ inst_id inst
                      ++ ", status: " ++ inst_status inst
                      ++ ", endpoint: " ++ show_endpoint (inst_endpoint inst)))
   else logging_debug "No RDS instances") ;;;
  ret rs.

(** *** BasicReportTests.test_report (lines 407-411)

    [setUp] only configures logging. *)
Definition test_report : M unit :=
  db <- connect env "database" "user" "passwd" "localhost" DEFAULT_PORT ;;
  perform_test env db ALL_PROFILES "localhost" ;;;
  db_close env.

End Rest.

(** *** More to read off a history *)

(** Messages logged at level [lvl]. *)
Definition logged (lvl : level) (e : entry) : option string :=
  match e with
  | (EvLog DEBUG msg, _) => match lvl with DEBUG => Some msg | _ => None end
  | (EvLog INFO msg, _) => match lvl with INFO => Some msg | _ => None end
  | (EvLog ERROR msg, _) => match lvl with ERROR => Some msg | _ => None end
  | _ => None
  end.

(** Instances whose deletion was asked for. *)
Definition deleted_instance (e : entry) : option string :=
  match e with
  | (EvDeleteDbInstance id, _) => Some id
  | _ => None
  end.

(** Parameter groups whose creation was asked for, granted or not. *)
Definition create_request (e : entry) : option string :=
  match e with
  | (EvCreateParameterGroup name _ _, _) => Some name
  | _ => None
  end.

(** Instances whose creation was asked for. *)
Definition instance_request (e : entry) : option string :=
  match e with
  | (EvCreateDbInstance id _ _, _) => Some id
  | _ => None
  end.

(** Calls into RDS or MySQL, as opposed to log records and sleeps. *)
Definition is_log (e : entry) : bool :=
  match e with
  | (EvLog _ _, _) => true
  | _ => false
  end.

(** One record written by [logging.info]. *)
Definition info_line (line : string) : entry := (EvLog INFO line, None).

(** A call that ended in an exception. *)
Definition failed (e : entry) : bool :=
  match snd e with
  | Some _ => true
  | None => false
  end.

(** A statement executed without error. *)
Definition executed_ok (s : string) : entry := (EvExecute s, None).

(** The columns of a report over [categories]. *)
Definition report_formats (categories : list string) : list format_spec :=
  flat_map formats_of ("Always" :: categories).

(** Width of a line laid out over [formats] when every cell fits its
    field: the fields and one blank between neighbours. *)
Definition line_width (formats : list format_spec) : nat :=
  list_sum (map fs_width formats) + (List.length formats - 1).

(** A cell that fits its field. *)
Definition fits (f : format_spec) (s : string) : bool :=
  Nat.leb (String.length s) (fs_width f).

Fixpoint all_fit (formats : list format_spec) (args : list string) : bool :=
  match formats, args with
  | [], _ => true
  | _ :: _, [] => false
  | f :: fs, a :: args' => fits f a && all_fit fs args'
  end.

(** The value of the last pair for [param] in a list of pairs. *)
Fixpoint last_value (param : string) (pairs : list (string * pyval))
  : option pyval :=
  match pairs with
  | [] => None
  | (p, v) :: rest =>
      match last_value param rest with
      | Some v' => Some v'
      | None => if String.eqb p param then Some v else None
      end
  end.

(** A single tuple read as the list that holds it. *)
Definition as_list (param_set : param_spec) : param_spec :=
  SpecList (spec_pairs param_set).

(** What perform_rds_test adds to the history up to the open connection. *)
Definition rds_test_opening (number : nat) (label param_grp host : string)
  : trace :=
  [ (EvConnectRds, None);
    (EvLog INFO ("Performing test on database: " ++ label ++ " "
                 ++ str_of_nat number ++ " " ++ param_grp ++ newline), None);
    (EvGetAllDbInstances (Some (instance_name label number param_grp)), None);
    (EvConnect DEFAULT_DATABASE DEFAULT_USER DEFAULT_PASSWD host DEFAULT_PORT, None);
    (EvAutocommit, None) ].

(** The ways out of the [finally] clause [c.close(); db.close()] of a
    stage whose [try] statement ended in [r]: both calls return and the
    outcome is [r]; or [c.close()] raises, [db.close()] is not called and
    that exception is the outcome; or [db.close()] raises and its exception
    is the outcome. *)
Definition closing_outcome {A} (r : result A) (closing : trace)
  (outcome : result A) : Prop :=
  (closing = [(EvCursorClose, None); (EvDbClose, None)] /\ outcome = r) \/
  (exists e, closing = [(EvCursorClose, Some e)] /\ outcome = Raise e) \/
  (exists e,
     closing = [(EvCursorClose, None); (EvDbClose, Some e)] /\
     outcome = Raise e).

(** [forwards m]: [m] raises exactly when one of its calls does, and then
    raises the exception of that call, which is the last thing it did. *)
Definition forwards {A} (m : M A) : Prop :=
  forall tr, exists new,
    snd (m tr) = (tr ++ new)%list /\
    (forall ev e, In (ev, Some e) new -> fst (m tr) = Raise e) /\
    (forall e, fst (m tr) = Raise e ->
               exists pre ev, new = (pre ++ [(ev, Some e)])%list).

(** [halts_at_failure m]: a run of [m] either returns, and none of its
    calls raised, or raises the exception of a call that is the last thing
    it did, and none of the calls before raised. *)
Definition halts_at_failure {A} (m : M A) : Prop :=
  forall tr, exists new,
    snd (m tr) = (tr ++ new)%list /\
    ((exists a, fst (m tr) = Ok a /\ Forall (fun en => snd en = None) new) \/
     (exists e pre ev,
        fst (m tr) = Raise e /\
        new = (pre ++ [(ev, Some e)])%list /\
        Forall (fun en => snd en = None) pre)).

(** The entries of a run that only looks at RDS: the connection to RDS, a
    listing of all instances, a debug record. *)
Definition read_only (e : entry) : Prop :=
  match e with
  | (EvConnectRds, _) => True
  | (EvGetAllDbInstances None, _) => True
  | (EvLog DEBUG _, None) => True
  | _ => False
  end.

(** The calls of a history that leave the process: everything but the log
    records. *)
Definition requests (new : trace) : list event :=
  map fst (filter (fun e => negb (is_log e)) new).

(** The debug record of db_status for one instance. *)
Definition status_line (show_endpoint : option (string * Z) -> string)
  (inst : DBInstance) : string :=
  "RDS instance " ++ inst_id inst ++ ", status: " ++ inst_status inst
  ++ ", endpoint: " ++ show_endpoint (inst_endpoint inst).

(** *** More sample environments *)
Module Sample.

(** RDS answers as in [Demo.quiet], but no MySQL server accepts a
    connection. *)
Definition no_database : Env :=
  {| boto_connect_rds := boto_connect_rds Demo.quiet;
     rds_create_parameter_group := rds_create_parameter_group Demo.quiet;
     rds_get_all_dbparameters := rds_get_all_dbparameters Demo.quiet;
     parameter_set_value := parameter_set_value Demo.quiet;
     parameter_apply := parameter_apply Demo.quiet;
     rds_create_dbinstance := rds_create_dbinstance Demo.quiet;
     dbinstance_update := dbinstance_update Demo.quiet;
     rds_get_all_dbinstances := rds_get_all_dbinstances Demo.quiet;
     rds_delete_dbinstance := rds_delete_dbinstance Demo.quiet;
     rds_delete_parameter_group := rds_delete_parameter_group Demo.quiet;
     mysql_connect := fun _ _ _ _ _ _ =>
       Raise (MySQLError 2003 "Can't connect to MySQL server");
     connection_autocommit := connection_autocommit Demo.quiet;
     connection_cursor := connection_cursor Demo.quiet;
     connection_close := connection_close Demo.quiet;
     cursor_close := cursor_close Demo.quiet;
     cursor_execute := cursor_execute Demo.quiet;
     cursor_fetchall := cursor_fetchall Demo.quiet;
     db_errno := db_errno Demo.quiet;
     db_error := db_error Demo.quiet;
     format_summary_row := format_summary_row Demo.quiet |}.

(** Two instances of the run, ready to be deleted, and one of another
    project; all are gone at the second listing. *)
Definition two_to_delete : Env :=
  Demo.world 0
    (fun k => if Nat.eqb k 0
              then [ Demo.running "testing-0-pgtesting-0";
                     Demo.running "billing-db";
                     Demo.running "testing-1-pgtesting-1" ]
              else [])
    (fun _ => None).

End Sample.
(** ** Properties *)

(** *** Histories only grow *)

Lemma select_app {X} (keep : entry -> option X) (a b : trace) :
  select keep (a ++ b)%list = (select keep a ++ select keep b)%list.
Proof. unfold select. apply flat_map_app. Qed.

Lemma select_none {X} (keep : entry -> option X) (new : trace) :
  Forall (fun e => keep e = None) new -> select keep new = [].
Proof.
  induction 1 as [|e new He _ IH]; [reflexivity|].
  unfold select in *. simpl. rewrite He. exact IH.
Qed.

Lemma emits_ret {A} (P : entry -> Prop) (a : A) : emits P (ret a).
Proof. intros tr. exists []. simpl. rewrite app_nil_r. auto. Qed.

Lemma emits_raise {A} (P : entry -> Prop) (e : exn) : emits P (@raise A e).
Proof. intros tr. exists []. simpl. rewrite app_nil_r. auto. Qed.

Lemma emits_lift {A} (P : entry -> Prop) (r : result A) : emits P (lift r).
Proof. intros tr. exists []. simpl. rewrite app_nil_r. auto. Qed.

Lemma emits_call {A} (P : entry -> Prop) (ev : event) (f : trace -> result A) :
  (forall o, P (ev, o)) -> emits P (call ev f).
Proof. intros H tr. exists [(ev, exn_of (f tr))]. simpl. auto. Qed.

Lemma emits_emit (P : entry -> Prop) (ev : event) :
  P (ev, None) -> emits P (emit ev).
Proof. intros H tr. exists [(ev, None)]. simpl. auto. Qed.

Lemma emits_bind {A B} (P : entry -> Prop) (m : M A) (k : A -> M B) :
  emits P m -> (forall a, emits P (k a)) -> emits P (bind m k).
Proof.
  intros Hm Hk tr. unfold bind.
  destruct (Hm tr) as (n1 & E1 & F1).
  destruct (m tr) as [[a|e] tr1]; simpl in E1; subst tr1.
  - destruct (Hk a (tr ++ n1)%list) as (n2 & E2 & F2).
    exists (n1 ++ n2)%list. rewrite E2, app_assoc. split; [reflexivity|].
    apply Forall_app; auto.
  - exists n1. auto.
Qed.

Lemma emits_try_except {A} (P : entry -> Prop) (m : M A) (h : exn -> M A) :
  emits P m -> (forall e, emits P (h e)) -> emits P (try_except m h).
Proof.
  intros Hm Hh tr. unfold try_except.
  destruct (Hm tr) as (n1 & E1 & F1).
  destruct (m tr) as [[a|e] tr1]; simpl in E1; subst tr1.
  - exists n1. auto.
  - destruct (Hh e (tr ++ n1)%list) as (n2 & E2 & F2).
    exists (n1 ++ n2)%list. rewrite E2, app_assoc. split; [reflexivity|].
    apply Forall_app; auto.
Qed.

Lemma emits_try_finally {A} (P : entry -> Prop) (m : M A) (fin : M unit) :
  emits P m -> emits P fin -> emits P (try_finally m fin).
Proof.
  intros Hm Hf tr. unfold try_finally.
  destruct (Hm tr) as (n1 & E1 & F1).
  destruct (m tr) as [r tr1]; simpl in E1; subst tr1.
  destruct (Hf (tr ++ n1)%list) as (n2 & E2 & F2).
  exists (n1 ++ n2)%list.
  destruct (fin (tr ++ n1)%list) as [[u|e] tr2]; simpl in *; subst tr2;
    rewrite app_assoc; (split; [reflexivity|apply Forall_app; auto]).
Qed.

Lemma emits_for_each {A} (P : entry -> Prop) (l : list A) (body : A -> M unit) :
  (forall x, emits P (body x)) -> emits P (for_each l body).
Proof.
  intros Hb. induction l as [|x l IH]; simpl.
  - apply emits_ret.
  - apply emits_bind; auto.
Qed.

Lemma emits_for_enumerate {A} (P : entry -> Prop) (l : list A)
  (body : nat -> A -> M unit) :
  (forall i x, emits P (body i x)) -> forall i, emits P (for_enumerate i l body).
Proof.
  intros Hb. induction l as [|x l IH]; intros i; simpl.
  - apply emits_ret.
  - apply emits_bind; auto.
Qed.

Lemma emits_select_none {A X} (keep : entry -> option X) (m : M A) (tr : trace) :
  emits (fun e => keep e = None) m ->
  select keep (snd (m tr)) = select keep tr.
Proof.
  intros H. destruct (H tr) as (new & E & F). rewrite E, select_app.
  rewrite (select_none _ F). apply app_nil_r.
Qed.

Lemma call_ok {A} (ev : event) (f : trace -> result A) (tr : trace) (a : A) :
  f tr = Ok a -> call ev f tr = (Ok a, (tr ++ [(ev, None)])%list).
Proof. intros H. unfold call. rewrite H. reflexivity. Qed.

Lemma call_raise {A} (ev : event) (f : trace -> result A) (tr : trace) (e : exn) :
  f tr = Raise e -> call ev f tr = (Raise e, (tr ++ [(ev, Some e)])%list).
Proof. intros H. unfold call. rewrite H. reflexivity. Qed.

Lemma bind_emit {B} (ev : event) (k : unit -> M B) (tr : trace) :
  bind (emit ev) k tr = k tt (tr ++ [(ev, None)])%list.
Proof. reflexivity. Qed.

Lemma bind_lift_ok {A B} (a : A) (k : A -> M B) (tr : trace) :
  bind (lift (Ok a)) k tr = k a tr.
Proof. reflexivity. Qed.

Lemma bind_call_ok {A B} (ev : event) (f : trace -> result A) (k : A -> M B)
  (tr : trace) (a : A) :
  f tr = Ok a -> bind (call ev f) k tr = k a (tr ++ [(ev, None)])%list.
Proof. intros H. unfold bind. rewrite (call_ok _ _ _ H). reflexivity. Qed.

(** Case split on the answer to the first call met in [H]. *)
Ltac step_call H :=
  match type of H with
  | context [call ?ev ?f ?tr] =>
      let E := fresh "Ecall" in
      destruct (f tr) eqn:E;
      [ rewrite (call_ok ev f tr E) in H
      | rewrite (call_raise ev f tr E) in H ];
      cbv beta in E
  end.

Section ParamGroupFacts.

Variable env : Env.

Lemma set_param_emits (P : entry -> Prop) pg_name param val :
  (forall g m o, P (EvGetAllDbParameters g m, o)) ->
  (forall g p v o, P (EvSetValue g p v, o)) ->
  (forall g p v o, P (EvApply g p v, o)) ->
  emits P (set_param env pg_name param val).
Proof.
  intros H1 H2 H3. unfold set_param, assign_and_apply.
  repeat first
    [ apply emits_raise | apply emits_lift
    | apply emits_bind; [|intros ?]
    | apply emits_call; intros ?; auto
    | match goal with |- emits _ (if ?b then _ else _) => destruct b end ].
Qed.

End ParamGroupFacts.

(** *** profile_report: order of the categories *)

Lemma extend_each_flat_map {A} (f : string -> result (list A))
  (g : string -> list A) (keys : list string) :
  Forall (fun a => f a = Ok (g a)) keys ->
  forall acc, extend_each f keys acc = Ok (acc ++ flat_map g keys)%list.
Proof.
  induction 1 as [|a keys Ha _ IH]; intros acc; simpl.
  - rewrite app_nil_r. reflexivity.
  - rewrite Ha. simpl. rewrite IH, <- app_assoc. reflexivity.
Qed.

Lemma getitem_In {V} (d : list (string * V)) (k : string) (v : V) :
  getitem d k = Ok v -> In v (map snd d).
Proof.
  induction d as [|[k' v'] d IH]; simpl; [discriminate|].
  destruct (String.eqb k' k).
  - intros H. inversion H. auto.
  - auto.
Qed.

(** In every row of the table the first label is the group label and the
    others are one per format spec. *)
Lemma profile_headers_shape (a : string) (h : list string * list format_spec) :
  getitem profile_headers a = Ok h ->
  exists g labels, fst h = g :: labels /\ List.length labels = List.length (snd h).
Proof.
  intros H. apply getitem_In in H. simpl in H.
  repeat (destruct H as [H|H]; [subst h; simpl; eauto|]).
  contradiction.
Qed.

Lemma known_header_formats a :
  known a = true -> header_formats a = Ok (formats_of a).
Proof.
  unfold known, header_formats, formats_of.
  destruct (getitem profile_headers a); [reflexivity|discriminate].
Qed.

Lemma known_header_group_labels a :
  known a = true -> header_group_labels a = Ok (group_labels_of a).
Proof.
  unfold known, header_group_labels, group_labels_of.
  destruct (getitem profile_headers a) as [h|e] eqn:E; [|discriminate].
  intros _. destruct (profile_headers_shape _ E) as (g & labels & Hh & _).
  simpl. rewrite Hh. reflexivity.
Qed.

Lemma known_header_column_labels a :
  known a = true -> header_column_labels a = Ok (column_labels_of a).
Proof.
  unfold known, header_column_labels, column_labels_of.
  destruct (getitem profile_headers a); [reflexivity|discriminate].
Qed.

Lemma labels_per_format (keys : list string) :
  List.length (flat_map group_labels_of keys) = List.length (flat_map formats_of keys) /\
  List.length (flat_map column_labels_of keys) = List.length (flat_map formats_of keys).
Proof.
  induction keys as [|a keys [IH1 IH2]]; [split; reflexivity|].
  simpl. rewrite !length_app, IH1, IH2.
  unfold group_labels_of, column_labels_of, formats_of.
  destruct (getitem profile_headers a) as [h|e] eqn:E; [|split; reflexivity].
  destruct (profile_headers_shape _ E) as (g & labels & Hh & Hlen).
  rewrite Hh. simpl. rewrite repeat_length, Hlen. split; reflexivity.
Qed.

Lemma join_format_ok (formats : list format_spec) (args : list string) :
  List.length formats <= List.length args ->
  exists line, join_format formats args = Ok line.
Proof.
  intros H. unfold join_format.
  assert (exists cells, fill_fields formats args = Ok cells) as [cells Hc].
  { revert args H. induction formats as [|f fs IH]; intros args H; simpl.
    - eauto.
    - destruct args as [|a args]; simpl in H; [lia|].
      destruct (IH args) as [rest Hr]; [lia|]. rewrite Hr. eauto. }
  rewrite Hc. eauto.
Qed.

(** C1 (as the code has it): the two header lines are laid out over
    'Always' followed by the requested categories in the order in which they
    were supplied, so they follow the fixed external order exactly when the
    request does; the number of header columns is the same for every
    permutation of the request. *)
Theorem profile_report_request_order
  (sql : string) (rows : list (list pyval)) (categories : list string)
  (tr : trace) :
  forallb known categories = true ->
  exists line1 line2 rest,
    snd (profile_report sql rows categories tr) =
      (tr ++ [ (EvLog INFO (newline ++ "SQL: " ++ sql), None);
               (EvLog INFO "--------------------", None);
               (EvLog INFO line1, None);
               (EvLog INFO line2, None) ] ++ rest)%list /\
    join_format (flat_map formats_of ("Always" :: categories))
                (flat_map group_labels_of ("Always" :: categories)) = Ok line1 /\
    join_format (flat_map formats_of ("Always" :: categories))
                (flat_map column_labels_of ("Always" :: categories)) = Ok line2 /\
    forall categories',
      Permutation categories categories' ->
      List.length (flat_map formats_of ("Always" :: categories')) =
      List.length (flat_map formats_of ("Always" :: categories)).
Proof.
  intros Hknown.
  assert (Hkeys : Forall (fun a => known a = true) ("Always" :: categories)).
  { constructor; [reflexivity|]. apply Forall_forall.
    apply (proj1 (forallb_forall _ _) Hknown). }
  set (keys := ("Always" :: categories)%list) in *.
  assert (HF : extend_each header_formats keys [] = Ok (flat_map formats_of keys)).
  { apply (@extend_each_flat_map _ header_formats formats_of).
    eapply Forall_impl; [|exact Hkeys]. apply known_header_formats. }
  assert (HG : extend_each header_group_labels keys []
               = Ok (flat_map group_labels_of keys)).
  { apply (@extend_each_flat_map _ header_group_labels group_labels_of).
    eapply Forall_impl; [|exact Hkeys]. apply known_header_group_labels. }
  assert (HC : extend_each header_column_labels keys []
               = Ok (flat_map column_labels_of keys)).
  { apply (@extend_each_flat_map _ header_column_labels column_labels_of).
    eapply Forall_impl; [|exact Hkeys]. apply known_header_column_labels. }
  destruct (labels_per_format keys) as [Hlen1 Hlen2].
  destruct (@join_format_ok (flat_map formats_of keys) (flat_map group_labels_of keys))
    as [line1 Hl1]; [lia|].
  destruct (@join_format_ok (flat_map formats_of keys) (flat_map column_labels_of keys))
    as [line2 Hl2]; [lia|].
  pose (body := fun row : list pyval =>
                  line <- lift (join_format (flat_map formats_of keys) (map str row)) ;;
                  logging_info line).
  assert (Hrows : emits (fun _ => True) (for_each rows body)).
  { apply emits_for_each. intros row. unfold body.
    apply emits_bind; [apply emits_lift|]. intros line.
    apply emits_emit. exact I. }
  set (tr4 := (tr ++ [ (EvLog INFO (newline ++ "SQL: " ++ sql), None);
                       (EvLog INFO "--------------------", None);
                       (EvLog INFO line1, None);
                       (EvLog INFO line2, None) ])%list).
  destruct (Hrows tr4) as (rest & Hrest & _).
  exists line1, line2, rest.
  split; [|split; [exact Hl1|split; [exact Hl2|]]].
  - unfold profile_report, logging_info.
    rewrite !bind_emit. cbv beta zeta. fold keys.
    rewrite HF, HG, HC.
    rewrite !bind_lift_ok. cbv beta.
    rewrite Hl1, bind_lift_ok. cbv beta.
    rewrite bind_emit.
    rewrite !bind_lift_ok. cbv beta.
    rewrite Hl2, bind_lift_ok. cbv beta.
    rewrite bind_emit. fold logging_info. fold body.
    change (replicate 20 "-") with "--------------------".
    rewrite <- !app_assoc. cbn [app].
    unfold tr4 in Hrest. rewrite <- app_assoc in Hrest. exact Hrest.
  - intros categories' Hperm. apply Permutation_length.
    apply Permutation_flat_map. constructor. apply Permutation_sym. exact Hperm.
Qed.

Lemma profile_report_request_order_witness :
  exists rest,
    snd (profile_report "select 1=1" [] [CPU_PROFILE; SOURCE_PROFILE] []) =
      ([] ++ [ (EvLog INFO (newline ++ "SQL: " ++ "select 1=1"), None);
               (EvLog INFO "--------------------", None);
               (EvLog INFO (replicate 102 " "), None);
               (EvLog INFO ("Status                 Duration   CPU User  CPU System"
                            ++ "    Source function     Source file  Source line"),
                None) ] ++ rest)%list.
Proof.
  destruct (@profile_report_request_order "select 1=1" []
              [CPU_PROFILE; SOURCE_PROFILE] [])
    as (line1 & line2 & rest & Hsnd & H1 & H2 & _).
  - reflexivity.
  - exists rest. vm_compute in H1. vm_compute in H2.
    inversion H1. inversion H2. subst line1 line2. exact Hsnd.
Defined.

(** C1 as stated fails: the same two categories requested in two orders give
    two different reports, and the one requested as SOURCE, CPU puts the
    source columns before the CPU columns. *)
Lemma profile_report_order_counterexample :
  Permutation [SOURCE_PROFILE; CPU_PROFILE] [CPU_PROFILE; SOURCE_PROFILE] /\
  profile_report "select 1=1" [] [SOURCE_PROFILE; CPU_PROFILE] [] <>
  profile_report "select 1=1" [] [CPU_PROFILE; SOURCE_PROFILE] [] /\
  In (EvLog INFO ("Status                 Duration    Source function"
                  ++ "     Source file  Source line   CPU User  CPU System"), None)
     (snd (profile_report "select 1=1" [] [SOURCE_PROFILE; CPU_PROFILE] [])).
Proof.
  split; [apply perm_swap|]. split.
  - vm_compute. discriminate.
  - vm_compute. tauto.
Qed.

(** *** Parameter groups: names *)

Section GroupNames.

Variable env : Env.

Lemma apply_param_set_emits (P : entry -> Prop) pg_name param_set :
  (forall g m o, P (EvGetAllDbParameters g m, o)) ->
  (forall g p v o, P (EvSetValue g p v, o)) ->
  (forall g p v o, P (EvApply g p v, o)) ->
  emits P (apply_param_set env pg_name param_set).
Proof.
  intros H1 H2 H3. destruct param_set as [l|p]; simpl.
  - apply emits_for_each. intros x. apply set_param_emits; auto.
  - apply set_param_emits; auto.
Qed.

Lemma create_param_groups_from_names name_prefix engine :
  (forall h n e d n', rds_create_parameter_group env h n e d = Ok n' -> n' = n) ->
  forall params_to_vary index retVal tr names tr',
    create_param_groups_from env name_prefix engine index params_to_vary retVal tr
      = (Ok names, tr') ->
    names = (retVal ++ map (group_name name_prefix)
                           (seq index (List.length params_to_vary)))%list /\
    select created_group tr' =
      (select created_group tr
         ++ map (group_name name_prefix) (seq index (List.length params_to_vary)))%list.
Proof.
  intros Hecho. induction params_to_vary as [|param_set rest IH];
    intros index retVal tr names tr' Hrun; simpl in Hrun.
  - inversion Hrun; subst. simpl. rewrite !app_nil_r. auto.
  - unfold bind at 1 in Hrun. step_call Hrun; [|discriminate].
    apply Hecho in Ecall. subst a.
    unfold bind in Hrun.
    pose proof (@emits_select_none _ _ created_group
                  (apply_param_set env (group_name name_prefix index) param_set)
                  (tr ++ [(EvCreateParameterGroup (group_name name_prefix index)
                             engine (name_prefix ++ " " ++ str_of_nat index), None)])%list)
      as Hsel.
    destruct (apply_param_set env (group_name name_prefix index) param_set _)
      as [[u|e] tr1]; [|discriminate].
    apply IH in Hrun. destruct Hrun as [Hn Hc]. simpl in Hsel.
    rewrite Hsel in Hc by (apply apply_param_set_emits; reflexivity).
    rewrite select_app in Hc. simpl in Hc.
    split.
    + rewrite Hn, <- app_assoc. reflexivity.
    + rewrite Hc, <- app_assoc. reflexivity.
Qed.

End GroupNames.

(** C2 (as the code has it): when RDS reports each new group under the name
    it was asked to create, the group made for the i-th specification is
    named "pg", the run label, a hyphen and i, and the returned list holds
    these names, one per specification, in input order. *)
Theorem create_param_groups_names
  (env : Env) (name_prefix : string) (params_to_vary : list param_spec)
  (engine : string) (tr : trace) (names : list string) (tr' : trace) :
  (forall h n e d n', rds_create_parameter_group env h n e d = Ok n' -> n' = n) ->
  create_param_groups env name_prefix params_to_vary engine tr = (Ok names, tr') ->
  names = map (fun i => "pg" ++ name_prefix ++ "-" ++ str_of_nat i)
              (seq 0 (List.length params_to_vary)) /\
  select created_group tr' = (select created_group tr ++ names)%list.
Proof.
  intros Hecho Hrun. unfold create_param_groups, rds_connect in Hrun.
  unfold bind at 1 in Hrun. step_call Hrun; [|discriminate].
  apply create_param_groups_from_names in Hrun; [|exact Hecho].
  destruct Hrun as [Hn Hc]. simpl in Hn.
  rewrite select_app in Hc. simpl in Hc. rewrite app_nil_r in Hc.
  split; [exact Hn|]. rewrite Hc, Hn. reflexivity.
Qed.

Lemma create_param_groups_names_witness :
  exists tr',
    create_param_groups Demo.quiet "testing"
      [SpecList []; SpecTuple ("tmp_table_size", VInt 5)] "MySQL5.5" []
      = (Ok ["pgtesting-0"; "pgtesting-1"], tr') /\
    select created_group tr' = ["pgtesting-0"; "pgtesting-1"].
Proof.
  eexists. split; [vm_compute; reflexivity|].
  refine (proj2 (@create_param_groups_names Demo.quiet "testing"
            [SpecList []; SpecTuple ("tmp_table_size", VInt 5)] "MySQL5.5" []
            ["pgtesting-0"; "pgtesting-1"] _ _ _)).
  - intros h n e d n' H. inversion H. reflexivity.
  - vm_compute. reflexivity.
Defined.

(** C2 as stated fails: the first group of run "testing" is created and
    returned as "pgtesting-0", not "testing-0". *)
Lemma create_param_groups_names_counterexample :
  exists tr',
    create_param_groups Demo.quiet "testing" [SpecList []] "MySQL5.5" []
      = (Ok ["pgtesting-0"], tr') /\
    select created_group tr' = ["pgtesting-0"] /\
    "pgtesting-0" <> "testing" ++ "-" ++ str_of_nat 0.
Proof.
  eexists. split; [vm_compute; reflexivity|].
  split; [vm_compute; reflexivity|]. vm_compute. discriminate.
Qed.

(** *** set_param: one re-fetch *)

(** C5 (as the code has it): when the parameter is missing from the first
    page fetched and that page carries a marker, set_param fetches the
    catalog exactly once more, with that marker.  What follows is decided by
    the answer to that second fetch: if it raises, its exception is the
    result; if the second page lacks the parameter too, the result is
    KeyError on the parameter; in both cases nothing is applied.  If the
    second page holds the parameter, the value is assigned and applied on
    it: a run that returns has made exactly the two fetches, the assignment
    and the apply, and a run that raises has applied nothing and raises the
    exception of the call it made last. *)
Theorem set_param_refetches_once
  (env : Env) (pg_name param : string) (val : pyval) (tr : trace)
  (pg : ParameterGroup) (m : string) :
  rds_get_all_dbparameters env tr pg_name None = Ok pg ->
  existsb (String.eqb param) (pg_keys pg) = false ->
  pg_Marker pg = Some m ->
  exists new,
    snd (set_param env pg_name param val tr) = (tr ++ new)%list /\
    select catalog_fetch new = [(pg_name, None); (pg_name, Some m)] /\
    match rds_get_all_dbparameters env
            (tr ++ [(EvGetAllDbParameters pg_name None, None)])%list
            pg_name (Some m) with
    | Raise e2 =>
        fst (set_param env pg_name param val tr) = Raise e2 /\
        select applied_value new = []
    | Ok pg2 =>
        if existsb (String.eqb param) (pg_keys pg2) then
          (fst (set_param env pg_name param val tr) = Ok tt ->
           new = [ (EvGetAllDbParameters pg_name None, None);
                   (EvGetAllDbParameters pg_name (Some m), None);
                   (EvSetValue pg_name param val, None);
                   (EvApply pg_name param val, None) ]) /\
          (forall e,
             fst (set_param env pg_name param val tr) = Raise e ->
             select applied_value new = [] /\
             exists ev, last new (ev, None) = (ev, Some e))
        else
          fst (set_param env pg_name param val tr) = Raise (KeyError param) /\
          select applied_value new = []
    end.
Proof.
  intros Hfirst Habsent Hmarker.
  remember (set_param env pg_name param val tr) as run eqn:Hrun.
  unfold set_param in Hrun. unfold bind at 1 in Hrun.
  rewrite (call_ok _ _ _ Hfirst), Habsent in Hrun.
  unfold bind at 1, lift, Marker in Hrun. rewrite Hmarker in Hrun.
  unfold bind at 1 in Hrun.
  remember (tr ++ [(EvGetAllDbParameters pg_name None, None)])%list as tr1 eqn:Htr1.
  destruct (rds_get_all_dbparameters env tr1 pg_name (Some m)) as [pg2|e2] eqn:E2.
  - rewrite (@call_ok _ (EvGetAllDbParameters pg_name (Some m))
               (fun tr0 => rds_get_all_dbparameters env tr0 pg_name (Some m))
               tr1 pg2 E2) in Hrun.
    unfold assign_and_apply in Hrun.
    destruct (existsb (String.eqb param) (pg_keys pg2)) eqn:Hin.
    + unfold bind in Hrun.
      remember (tr1 ++ [(EvGetAllDbParameters pg_name (Some m), None)])%list
        as tr2 eqn:Htr2.
      destruct (parameter_set_value env tr2 pg_name param val) as [[]|e3] eqn:E3.
      * rewrite (@call_ok _ (EvSetValue pg_name param val)
                   (fun tr0 => parameter_set_value env tr0 pg_name param val)
                   tr2 tt E3) in Hrun.
        remember (tr2 ++ [(EvSetValue pg_name param val, None)])%list
          as tr3 eqn:Htr3.
        destruct (parameter_apply env tr3 pg_name param val) as [[]|e4] eqn:E4.
        -- rewrite (@call_ok _ (EvApply pg_name param val)
                      (fun tr0 => parameter_apply env tr0 pg_name param val)
                      tr3 tt E4) in Hrun.
           exists [ (EvGetAllDbParameters pg_name None, None);
                    (EvGetAllDbParameters pg_name (Some m), None);
                    (EvSetValue pg_name param val, None);
                    (EvApply pg_name param val, None) ].
           subst run tr3 tr2 tr1. cbn [fst snd]. cbv iota. rewrite <- !app_assoc.
           split; [reflexivity|]. split; [reflexivity|]. split.
           ++ intros _. reflexivity.
           ++ intros e He. discriminate He.
        -- rewrite (@call_raise _ (EvApply pg_name param val)
                      (fun tr0 => parameter_apply env tr0 pg_name param val)
                      tr3 e4 E4) in Hrun.
           exists [ (EvGetAllDbParameters pg_name None, None);
                    (EvGetAllDbParameters pg_name (Some m), None);
                    (EvSetValue pg_name param val, None);
                    (EvApply pg_name param val, Some e4) ].
           subst run tr3 tr2 tr1. cbn [fst snd]. cbv iota. rewrite <- !app_assoc.
           split; [reflexivity|]. split; [reflexivity|].
           split; [intros Hok; discriminate Hok|].
           intros e He. inversion He; subst. split; [reflexivity|].
           eexists. reflexivity.
      * rewrite (@call_raise _ (EvSetValue pg_name param val)
                   (fun tr0 => parameter_set_value env tr0 pg_name param val)
                   tr2 e3 E3) in Hrun.
        exists [ (EvGetAllDbParameters pg_name None, None);
                 (EvGetAllDbParameters pg_name (Some m), None);
                 (EvSetValue pg_name param val, Some e3) ].
        subst run tr2 tr1. cbn [fst snd]. cbv iota. rewrite <- !app_assoc.
        split; [reflexivity|]. split; [reflexivity|].
        split; [intros Hok; discriminate Hok|].
        intros e He. inversion He; subst. split; [reflexivity|].
        eexists. reflexivity.
    + exists [ (EvGetAllDbParameters pg_name None, None);
               (EvGetAllDbParameters pg_name (Some m), None) ].
      subst run tr1. cbn [fst snd raise]. cbv iota. rewrite <- !app_assoc.
      repeat split.
  - rewrite (@call_raise _ (EvGetAllDbParameters pg_name (Some m))
               (fun tr0 => rds_get_all_dbparameters env tr0 pg_name (Some m))
               tr1 e2 E2) in Hrun.
    exists [ (EvGetAllDbParameters pg_name None, None);
             (EvGetAllDbParameters pg_name (Some m), Some e2) ].
    subst run tr1. cbn [fst snd]. cbv iota. rewrite <- !app_assoc.
    repeat split.
Qed.

Lemma set_param_refetches_once_witness :
  exists new,
    snd (set_param Demo.quiet "pgtesting-1" "tmp_table_size" (VInt 5) [])
      = ([] ++ new)%list /\
    new = [ (EvGetAllDbParameters "pgtesting-1" None, None);
            (EvGetAllDbParameters "pgtesting-1" (Some "page-2"), None);
            (EvSetValue "pgtesting-1" "tmp_table_size" (VInt 5), None);
            (EvApply "pgtesting-1" "tmp_table_size" (VInt 5), None) ].
Proof.
  destruct (@set_param_refetches_once Demo.quiet "pgtesting-1" "tmp_table_size"
              (VInt 5) [] Demo.page1 "page-2")
    as (new & Hsnd & _ & Happly).
  - reflexivity.
  - reflexivity.
  - reflexivity.
  - exists new. split; [exact Hsnd|].
    apply (proj1 Happly). reflexivity.
Defined.

(** C5 as stated fails without a marker: a first page that lacks the
    parameter and carries no marker (the whole catalog fits one page) makes
    set_param raise AttributeError on reading [pg.Marker]; it fetches once
    and applies nothing. *)
Lemma set_param_no_marker_counterexample :
  set_param Demo.one_page "pgtesting-1" "tmp_table_size" (VInt 5) []
    = (Raise (AttributeError "Marker"),
       [(EvGetAllDbParameters "pgtesting-1" None, None)]) /\
  ~ (exists m new,
       snd (set_param Demo.one_page "pgtesting-1" "tmp_table_size" (VInt 5) [])
         = ([] ++ new)%list /\
       select catalog_fetch new = [("pgtesting-1", None); ("pgtesting-1", Some m)]).
Proof.
  split; [reflexivity|].
  intros (m & new & Hsnd & Hfetch).
  change (snd (set_param Demo.one_page "pgtesting-1" "tmp_table_size" (VInt 5) []))
    with [(EvGetAllDbParameters "pgtesting-1" None, @None exn)] in Hsnd.
  cbn [app] in Hsnd. subst new. discriminate Hfetch.
Qed.

(** *** Parameter groups: applied values *)

Lemma str_of_nat_inj (a b : nat) : str_of_nat a = str_of_nat b -> a = b.
Proof.
  unfold str_of_nat. intros H.
  assert (Hnn : forall n, Nat.to_uint n <> Decimal.Nil).
  { intros n. rewrite <- (DecimalNat.Unsigned.of_to n) at 1.
    rewrite DecimalNat.Unsigned.to_of. apply DecimalFacts.unorm_nonnil. }
  apply DecimalNat.Unsigned.to_uint_inj.
  pose proof (@NilZero.usu _ (Hnn a)) as Ha.
  pose proof (@NilZero.usu _ (Hnn b)) as Hb.
  rewrite H in Ha. congruence.
Qed.

Lemma append_cancel_l (p a b : string) : p ++ a = p ++ b -> a = b.
Proof.
  induction p as [|c p IH]; simpl; intros H; [exact H|].
  inversion H. auto.
Qed.

Lemma group_name_inj (name_prefix : string) (i j : nat) :
  group_name name_prefix i = group_name name_prefix j -> i = j.
Proof.
  unfold group_name. intros H.
  apply str_of_nat_inj.
  apply (append_cancel_l "-"), (append_cancel_l name_prefix), (append_cancel_l "pg").
  exact H.
Qed.

Section AppliedValues.

Variable env : Env.

Lemma assign_and_apply_applied g pg_name pg param val tr tr' :
  assign_and_apply env pg_name pg param val tr = (Ok tt, tr') ->
  select (applied_to g) tr' =
    (select (applied_to g) tr ++ on_group g pg_name [(param, val)])%list.
Proof.
  unfold assign_and_apply, on_group. intros H.
  destruct (existsb (String.eqb param) (pg_keys pg)); [|discriminate].
  unfold bind in H. step_call H; [|discriminate].
  step_call H; [|discriminate].
  inversion H; subst. rewrite !select_app. simpl.
  destruct (String.eqb pg_name g); simpl; rewrite ?app_nil_r; reflexivity.
Qed.

Lemma set_param_applied g pg_name param val tr tr' :
  set_param env pg_name param val tr = (Ok tt, tr') ->
  select (applied_to g) tr' =
    (select (applied_to g) tr ++ on_group g pg_name [(param, val)])%list.
Proof.
  unfold set_param. intros H.
  unfold bind at 1 in H. step_call H; [|discriminate].
  destruct (existsb (String.eqb param) (pg_keys a)).
  - apply assign_and_apply_applied with (g := g) in H.
    rewrite select_app in H. simpl in H. rewrite app_nil_r in H. exact H.
  - unfold bind at 1 in H. unfold lift in H.
    destruct (Marker a) as [m|e]; [|discriminate].
    unfold bind at 1 in H. step_call H; [|discriminate].
    apply assign_and_apply_applied with (g := g) in H.
    rewrite !select_app in H. simpl in H. rewrite !app_nil_r in H. exact H.
Qed.

Lemma on_group_app g g' (a b : list (string * pyval)) :
  on_group g g' (a ++ b)%list = (on_group g g' a ++ on_group g g' b)%list.
Proof. unfold on_group. destruct (String.eqb g' g); reflexivity. Qed.

Lemma for_each_set_param_applied g pg_name (l : list (string * pyval)) :
  forall tr tr',
    for_each l (fun pval => set_param env pg_name (fst pval) (snd pval)) tr
      = (Ok tt, tr') ->
    select (applied_to g) tr' =
      (select (applied_to g) tr ++ on_group g pg_name l)%list.
Proof.
  induction l as [|[p v] l IH]; intros tr tr' H; simpl in H.
  - inversion H; subst. unfold on_group.
    destruct (String.eqb pg_name g); rewrite app_nil_r; reflexivity.
  - unfold bind in H.
    destruct (set_param env pg_name p v tr) as [[[]|e] tr1] eqn:E1; [|discriminate].
    apply set_param_applied with (g := g) in E1.
    apply IH in H. rewrite H, E1, <- app_assoc.
    change ((p, v) :: l) with ([(p, v)] ++ l)%list.
    rewrite on_group_app. reflexivity.
Qed.

Lemma apply_param_set_applied g pg_name param_set tr tr' :
  apply_param_set env pg_name param_set tr = (Ok tt, tr') ->
  select (applied_to g) tr' =
    (select (applied_to g) tr ++ on_group g pg_name (spec_pairs param_set))%list.
Proof.
  destruct param_set as [l|[p v]]; simpl.
  - apply for_each_set_param_applied.
  - apply set_param_applied.
Qed.

Lemma create_param_groups_from_applied name_prefix engine j :
  forall params_to_vary index retVal tr names tr',
    create_param_groups_from env name_prefix engine index params_to_vary retVal tr
      = (Ok names, tr') ->
    select (applied_to (group_name name_prefix j)) tr' =
      (select (applied_to (group_name name_prefix j)) tr
         ++ pairs_at index j params_to_vary)%list.
Proof.
  induction params_to_vary as [|param_set rest IH];
    intros index retVal tr names tr' Hrun; simpl in Hrun.
  - inversion Hrun; subst. unfold pairs_at.
    destruct (Nat.leb index j); [destruct (j - index)|]; simpl;
      rewrite app_nil_r; reflexivity.
  - unfold bind at 1 in Hrun. step_call Hrun; [|discriminate].
    unfold bind in Hrun.
    destruct (apply_param_set env (group_name name_prefix index) param_set _)
      as [[[]|e] tr1] eqn:E1; [|discriminate].
    apply apply_param_set_applied with (g := group_name name_prefix j) in E1.
    apply IH in Hrun. rewrite Hrun, E1, select_app. simpl.
    rewrite app_nil_r, <- app_assoc. f_equal.
    unfold on_group, pairs_at.
    destruct (String.eqb_spec (group_name name_prefix index) (group_name name_prefix j))
      as [Heq|Hne].
    + apply group_name_inj in Heq. subst j.
      rewrite Nat.leb_refl, Nat.sub_diag.
      replace (Nat.leb (S index) index) with false
        by (symmetry; apply Nat.leb_gt; lia).
      cbn [nth_error]. apply app_nil_r.
    + assert (index <> j) by congruence. cbn [app].
      destruct (Nat.leb_spec (S index) j) as [Hle|Hgt].
      * replace (Nat.leb index j) with true by (symmetry; apply Nat.leb_le; lia).
        replace (j - index) with (S (j - S index)) by lia. reflexivity.
      * replace (Nat.leb index j) with false by (symmetry; apply Nat.leb_gt; lia).
        reflexivity.
Qed.

End AppliedValues.



(** *** Failing calls end the run *)

Lemma failfast_ret {A} (a : A) : failfast (ret a).
Proof. intros tr. exists []. simpl. rewrite app_nil_r. split; [auto|contradiction]. Qed.

Lemma failfast_lift {A} (r : result A) : failfast (lift r).
Proof. intros tr. exists []. simpl. rewrite app_nil_r. split; [auto|contradiction]. Qed.

Lemma failfast_emit (ev : event) : failfast (emit ev).
Proof.
  intros tr. exists [(ev, None)]. simpl. split; [auto|].
  intros ev' e [H|[]]. discriminate H.
Qed.

Lemma failfast_call {A} (ev : event) (f : trace -> result A) : failfast (call ev f).
Proof.
  intros tr. exists [(ev, exn_of (f tr))]. unfold call. simpl. split; [auto|].
  intros ev' e [H|[]]. destruct (f tr); simpl in H; inversion H. reflexivity.
Qed.

Lemma failfast_bind {A B} (m : M A) (k : A -> M B) :
  failfast m -> (forall a, failfast (k a)) -> failfast (bind m k).
Proof.
  intros Hm Hk tr. unfold bind.
  destruct (Hm tr) as (n1 & E1 & F1).
  destruct (m tr) as [[a|e] tr1]; simpl in E1, F1; subst tr1.
  - destruct (Hk a (tr ++ n1)%list) as (n2 & E2 & F2).
    exists (n1 ++ n2)%list. rewrite E2, app_assoc. split; [reflexivity|].
    intros ev e Hin. apply in_app_or in Hin. destruct Hin as [Hin|Hin].
    + specialize (F1 _ _ Hin). discriminate F1.
    + apply (F2 ev). exact Hin.
  - exists n1. simpl. split; [reflexivity|].
    intros ev e' Hin. specialize (F1 _ _ Hin). inversion F1. reflexivity.
Qed.

Lemma failfast_for_each {A} (l : list A) (body : A -> M unit) :
  (forall x, failfast (body x)) -> failfast (for_each l body).
Proof.
  intros Hb. induction l as [|x l IH]; simpl.
  - apply failfast_ret.
  - apply failfast_bind; auto.
Qed.

Lemma failfast_for_enumerate {A} (l : list A) (body : nat -> A -> M unit) :
  (forall i x, failfast (body i x)) -> forall i, failfast (for_enumerate i l body).
Proof.
  intros Hb. induction l as [|x l IH]; intros i; simpl.
  - apply failfast_ret.
  - apply failfast_bind; auto.
Qed.

(** Splits a goal [failfast m] along the structure of [m]. *)
Ltac failfast_tac :=
  repeat first
    [ apply failfast_ret | apply failfast_lift | apply failfast_emit
    | apply failfast_call
    | apply failfast_bind; [|intros ?]
    | apply failfast_for_each; intros ?
    | apply failfast_for_enumerate; intros ? ?
    | match goal with |- failfast (if ?b then _ else _) => destruct b end ].

Lemma emits_for_each_in {A} (P : entry -> Prop) (l : list A) (body : A -> M unit) :
  (forall x, In x l -> emits P (body x)) -> emits P (for_each l body).
Proof.
  induction l as [|x l IH]; intros Hb; simpl.
  - apply emits_ret.
  - apply emits_bind; [apply Hb; left; reflexivity|].
    intros _. apply IH. intros y Hy. apply Hb. right. exact Hy.
Qed.

(** profile_report only writes log records. *)
Lemma profile_report_emits (P : entry -> Prop) sql rows categories :
  (forall msg, P (EvLog INFO msg, None)) ->
  emits P (profile_report sql rows categories).
Proof.
  intros H. unfold profile_report, logging_info. cbv zeta.
  repeat first
    [ apply emits_lift
    | apply emits_bind; [|intros ?]
    | apply emits_for_each; intros ?
    | apply emits_emit; apply H ].
Qed.

Lemma profile_report_failfast sql rows categories :
  failfast (profile_report sql rows categories).
Proof. unfold profile_report, logging_info. cbv zeta. failfast_tac. Qed.

Lemma try_except_reraise {A} (m : M A) (tr : trace) :
  try_except m (fun e => raise e) tr = m tr.
Proof. unfold try_except, raise. destruct (m tr) as [[a|e] tr']; reflexivity. Qed.

(** *** Runs that return *)

Lemma runs_ok_ret {A} (a : A) : runs_ok [] (ret a).
Proof.
  intros tr a' tr' H. inversion H; subst. exists [].
  rewrite app_nil_r. auto.
Qed.

Lemma runs_ok_lift {A} (r : result A) : runs_ok [] (lift r).
Proof.
  intros tr a' tr' H. unfold lift in H. inversion H; subst. exists [].
  rewrite app_nil_r. auto.
Qed.

Lemma runs_ok_emit (ev : event) :
  executed (ev, None) = None -> runs_ok [] (emit ev).
Proof.
  intros Hev tr a' tr' H. inversion H; subst. exists [(ev, None)].
  split; [reflexivity|]. split.
  - unfold select. cbn [flat_map]. rewrite Hev. reflexivity.
  - repeat constructor.
Qed.

Lemma runs_ok_call {A} (ev : event) (f : trace -> result A) :
  runs_ok (select executed [(ev, None)]) (call ev f).
Proof.
  intros tr a' tr' H. unfold call in H. inversion H; subst.
  rewrite H1. exists [(ev, None)]. simpl.
  split; [reflexivity|]. split; [reflexivity|]. repeat constructor.
Qed.

Lemma runs_ok_bind {A B} l1 l2 (m : M A) (k : A -> M B) :
  runs_ok l1 m -> (forall a, runs_ok l2 (k a)) -> runs_ok (l1 ++ l2)%list (bind m k).
Proof.
  intros Hm Hk tr b tr' H. unfold bind in H.
  destruct (m tr) as [[a|e] tr1] eqn:E1; [|discriminate].
  destruct (Hm _ _ _ E1) as (n1 & -> & S1 & F1).
  destruct (Hk a _ _ _ H) as (n2 & -> & S2 & F2).
  exists (n1 ++ n2)%list. rewrite app_assoc, select_app, S1, S2.
  split; [reflexivity|]. split; [reflexivity|]. apply Forall_app; auto.
Qed.

(** The form of [runs_ok_bind] for a step that executes nothing. *)
Lemma runs_ok_skip {A B} l (m : M A) (k : A -> M B) :
  runs_ok [] m -> (forall a, runs_ok l (k a)) -> runs_ok l (bind m k).
Proof. intros Hm Hk. exact (@runs_ok_bind A B [] l m k Hm Hk). Qed.

Lemma runs_ok_for_each_nil {A} (l : list A) (body : A -> M unit) :
  (forall x, runs_ok [] (body x)) -> runs_ok [] (for_each l body).
Proof.
  intros Hb. induction l as [|x l IH]; simpl.
  - apply runs_ok_ret.
  - apply runs_ok_skip; auto.
Qed.

Section PerformTest.

Variable env : Env.

Lemma runs_ok_execute (s : string) : runs_ok [s] (execute env s).
Proof. apply (@runs_ok_call _ (EvExecute s)). Qed.

Lemma runs_ok_fetchall : runs_ok [] (fetchall env).
Proof. apply (@runs_ok_call _ EvFetchall). Qed.

Lemma runs_ok_for_each_execute (sql : list string) :
  runs_ok sql (for_each sql (execute env)).
Proof.
  induction sql as [|s sql IH]; simpl.
  - apply runs_ok_ret.
  - apply (@runs_ok_bind _ _ [s] sql); [apply runs_ok_execute|intros _; exact IH].
Qed.

Lemma runs_ok_profile_report sql rows categories :
  runs_ok [] (profile_report sql rows categories).
Proof.
  unfold profile_report, logging_info. cbv zeta.
  repeat first
    [ apply runs_ok_lift
    | apply runs_ok_emit; reflexivity
    | apply runs_ok_skip; [|intros ?]
    | apply runs_ok_for_each_nil; intros ? ].
Qed.

Lemma runs_ok_profile_queries profile_list profiles (sql : list string) :
  forall i,
    runs_ok (detail_queries profile_list i (List.length sql))
            (for_enumerate i sql (profile_query env profile_list profiles)).
Proof.
  induction sql as [|s sql IH]; intros i; simpl.
  - apply runs_ok_ret.
  - unfold detail_queries. simpl. unfold profile_query at 1.
    destruct (Nat.eqb i 0); simpl.
    + apply runs_ok_skip; [apply runs_ok_ret|]. intros _. apply IH.
    + apply (@runs_ok_bind _ _ [show_profile profile_list i]).
      * apply (@runs_ok_bind _ _ [show_profile profile_list i] []);
          [apply runs_ok_execute|]. intros _.
        apply runs_ok_skip; [apply runs_ok_fetchall|]. intros rows.
        apply runs_ok_profile_report.
      * intros _. apply IH.
Qed.

Lemma filter_positive_seq (n i : nat) :
  0 < i -> filter (fun k => negb (Nat.eqb k 0)) (seq i n) = seq i n.
Proof.
  revert i. induction n as [|n IH]; intros i Hi; simpl; [reflexivity|].
  destruct i; [lia|]. simpl. f_equal. apply IH. lia.
Qed.

Lemma detail_queries_from_0 profile_list n :
  detail_queries profile_list 0 n = map (show_profile profile_list) (seq 1 (n - 1)).
Proof.
  unfold detail_queries. destruct n as [|n]; [reflexivity|].
  simpl. rewrite Nat.sub_0_r. f_equal. apply filter_positive_seq. lia.
Qed.

Lemma runs_ok_perform_test_body sql profiles db_name :
  runs_ok (sql ++ ["show profiles"]
               ++ map (show_profile (String.concat "," profiles))
                      (seq 1 (List.length sql - 1))
               ++ ["set profiling=0"])%list
          (perform_test_body env sql profiles db_name).
Proof.
  unfold perform_test_body. cbv zeta.
  apply runs_ok_bind; [apply runs_ok_for_each_execute|]. intros _.
  apply (@runs_ok_bind _ _ ["show profiles"]); [apply runs_ok_execute|]. intros _.
  apply runs_ok_skip; [apply runs_ok_fetchall|]. intros rows.
  apply runs_ok_skip; [apply runs_ok_emit; reflexivity|]. intros _.
  apply runs_ok_skip; [apply runs_ok_emit; reflexivity|]. intros _.
  apply runs_ok_skip; [apply runs_ok_emit; reflexivity|]. intros _.
  apply runs_ok_skip.
  { apply runs_ok_for_each_nil. intros row.
    apply runs_ok_skip; [apply runs_ok_lift|]. intros line.
    apply runs_ok_emit. reflexivity. }
  intros _. rewrite <- detail_queries_from_0.
  apply runs_ok_bind; [apply runs_ok_profile_queries|]. intros _.
  apply runs_ok_execute.
Qed.

End PerformTest.

(** C8: when perform_test returns, the statements it executed are, in this
    order and all without error: the workload statements, "show profiles",
    one "show profile ... for query i" for each workload statement of index
    i >= 1 (none for the first), and "set profiling=0"; they all lie between
    the opening of the cursor and its close, which is the last thing done. *)
Theorem perform_test_retrievals
  (env : Env) (sql : list string) (db : connection) (profiles : list string)
  (db_name : string) (tr tr' : trace) :
  perform_test_with env sql db profiles db_name tr = (Ok tt, tr') ->
  exists body,
    tr' = (tr ++ (EvCursor, None) :: body ++ [(EvCursorClose, None)])%list /\
    select executed body =
      (sql ++ ["show profiles"]
           ++ map (show_profile (String.concat "," profiles))
                  (seq 1 (List.length sql - 1))
           ++ ["set profiling=0"])%list /\
    Forall (fun en => snd en = None) body.
Proof.
  intros H. unfold perform_test_with, cursor, c_close in H.
  unfold bind at 1 in H. unfold call at 1 in H. cbv beta zeta in H.
  destruct (connection_cursor env tr) as [[]|e0]; cbn [exn_of] in H;
    [|discriminate H].
  unfold try_finally in H. rewrite try_except_reraise in H.
  destruct (perform_test_body env sql profiles db_name _) as [[[]|e] tr1] eqn:E;
    unfold call in H; cbv beta zeta in H;
    destruct (cursor_close env tr1) as [[]|e1]; cbn [exn_of] in H;
    try discriminate H.
  injection H as H. subst tr'.
  destruct (@runs_ok_perform_test_body env sql profiles db_name _ _ _ E)
    as (new & -> & Hsel & Hok).
  exists new. rewrite <- !app_assoc. simpl.
  split; [reflexivity|]. split; [exact Hsel|exact Hok].
Qed.

Lemma perform_test_retrievals_witness :
  exists body,
    snd (perform_test Demo.quiet Connection [CPU_PROFILE; SOURCE_PROFILE] "localhost" [])
      = ([] ++ (EvCursor, None) :: body ++ [(EvCursorClose, None)])%list /\
    select executed body =
      [ "set profiling=1"; "select 1=1"; "show profiles";
        "show profile CPU,SOURCE for query 1"; "set profiling=0" ].
Proof.
  destruct (@perform_test_retrievals Demo.quiet test_sql Connection
              [CPU_PROFILE; SOURCE_PROFILE] "localhost" []
              (snd (perform_test Demo.quiet Connection
                      [CPU_PROFILE; SOURCE_PROFILE] "localhost" [])))
    as (body & Htr & Hsel & _).
  - vm_compute. reflexivity.
  - exists body. split; [exact Htr|]. rewrite Hsel. reflexivity.
Defined.
(** *** Runs that raise *)

Lemma aborts_emits {A} (ev0 : event) (m : M A) :
  failfast m -> emits (fun x => fst x <> ev0) m -> aborts ev0 m.
Proof.
  intros Hf He tr. destruct (Hf tr) as (new & E & F).
  destruct (He tr) as (new' & E' & F').
  rewrite E in E'. apply app_inv_head in E'. subst new'.
  exists new. split; [exact E|]. split; [exact F|].
  intros e _ o Hin. rewrite Forall_forall in F'.
  exfalso. apply (F' _ Hin). reflexivity.
Qed.

Lemma aborts_bind {A B} (ev0 : event) (m : M A) (k : A -> M B) :
  failfast m -> emits (fun x => fst x <> ev0) m -> (forall a, aborts ev0 (k a)) ->
  aborts ev0 (bind m k).
Proof.
  intros Hf He Hk tr. unfold bind.
  destruct (aborts_emits Hf He tr) as (n1 & E1 & F1 & G1).
  destruct (He tr) as (n1' & E1' & P1).
  rewrite E1 in E1'. apply app_inv_head in E1'. subst n1'.
  destruct (m tr) as [[a|e] tr1]; simpl in E1, F1, G1; subst tr1.
  - destruct (Hk a (tr ++ n1)%list) as (n2 & E2 & F2 & G2).
    exists (n1 ++ n2)%list. rewrite E2, app_assoc. split; [reflexivity|]. split.
    + intros ev e Hin. apply in_app_or in Hin. destruct Hin as [Hin|Hin].
      * specialize (F1 _ _ Hin). discriminate F1.
      * apply (F2 ev). exact Hin.
    + intros e He' o Hin. apply in_app_or in Hin. destruct Hin as [Hin|Hin].
      * rewrite Forall_forall in P1. exfalso. apply (P1 _ Hin). reflexivity.
      * apply (G2 e He' o Hin).
  - exists n1. simpl. split; [reflexivity|]. split.
    + intros ev e' Hin. specialize (F1 _ _ Hin). inversion F1. reflexivity.
    + intros e' He' o Hin. rewrite Forall_forall in P1.
      exfalso. apply (P1 _ Hin). reflexivity.
Qed.

Section PerformTestErrors.

Variable env : Env.

Lemma aborts_execute (s : string) : aborts (EvExecute s) (execute env s).
Proof.
  intros tr. unfold execute, call.
  exists [(EvExecute s, exn_of (cursor_execute env tr s))]. simpl.
  split; [reflexivity|]. split.
  - intros ev e [H|[]]. destruct (cursor_execute env tr s); simpl in H;
      inversion H. reflexivity.
  - intros e He o [H|[]]. rewrite He in H. simpl in H. congruence.
Qed.

Lemma show_profile_not_disable profile_list i :
  show_profile profile_list i <> "set profiling=0".
Proof. unfold show_profile. simpl. discriminate. Qed.

Lemma perform_test_body_aborts sql profiles db_name :
  ~ In "set profiling=0" sql ->
  aborts disable_profiling (perform_test_body env sql profiles db_name).
Proof.
  intros Hsql. unfold perform_test_body, disable_profiling. cbv zeta.
  apply aborts_bind.
  { unfold execute. failfast_tac. }
  { apply emits_for_each_in. intros s Hs. apply emits_call. intros o.
    simpl. intros Heq. inversion Heq. subst s. contradiction. }
  intros _. apply aborts_bind.
  { unfold execute. failfast_tac. }
  { apply emits_call. intros o. discriminate. }
  intros _. apply aborts_bind.
  { unfold fetchall. failfast_tac. }
  { apply emits_call. intros o. discriminate. }
  intros rows. unfold logging_info.
  do 3 (apply aborts_bind;
        [apply failfast_emit | apply emits_emit; discriminate | intros _]).
  apply aborts_bind.
  { failfast_tac. }
  { apply emits_for_each. intros row. apply emits_bind; [apply emits_lift|].
    intros line. apply emits_emit. discriminate. }
  intros _. apply aborts_bind.
  { apply failfast_for_enumerate. intros i s. unfold profile_query, execute, fetchall.
    destruct (Nat.eqb i 0); [apply failfast_ret|].
    apply failfast_bind; [apply failfast_call|]. intros _.
    apply failfast_bind; [apply failfast_call|]. intros rows'.
    apply profile_report_failfast. }
  { apply emits_for_enumerate. intros i s. unfold profile_query, execute, fetchall.
    destruct (Nat.eqb i 0); [apply emits_ret|].
    apply emits_bind.
    - apply emits_call. intros o Heq. simpl in Heq.
      apply (@show_profile_not_disable (String.concat "," profiles) i).
      congruence.
    - intros _. apply emits_bind; [apply emits_call; intros o; discriminate|].
      intros rows'. apply profile_report_emits. intros msg. discriminate. }
  intros _. apply aborts_execute.
Qed.

End PerformTestErrors.



(** *** create_db: the readiness wait *)

Section Readiness.

Variable env : Env.

Lemma wait_round (inst : DBInstance) (tr : trace) (inst1 : DBInstance) :
  dbinstance_update env (tr ++ [(EvSleep 30, None)])%list inst = Ok inst1 ->
  (time_sleep 30 ;;;
   call (EvUpdate (inst_id inst)) (fun tr0 => dbinstance_update env tr0 inst)) tr
  = (Ok inst1, (tr ++ [(EvSleep 30, None); (EvUpdate (inst_id inst), None)])%list).
Proof.
  intros H. unfold time_sleep. rewrite bind_emit.
  rewrite (@call_ok _ (EvUpdate (inst_id inst))
             (fun tr0 => dbinstance_update env tr0 inst) _ inst1 H).
  rewrite <- app_assoc. reflexivity.
Qed.

Lemma wait_round_raise (inst : DBInstance) (tr : trace) (e : exn) :
  dbinstance_update env (tr ++ [(EvSleep 30, None)])%list inst = Raise e ->
  (time_sleep 30 ;;;
   call (EvUpdate (inst_id inst)) (fun tr0 => dbinstance_update env tr0 inst)) tr
  = (Raise e, (tr ++ [(EvSleep 30, None); (EvUpdate (inst_id inst), Some e)])%list).
Proof.
  intros H. unfold time_sleep. rewrite bind_emit.
  rewrite (@call_raise _ (EvUpdate (inst_id inst))
             (fun tr0 => dbinstance_update env tr0 inst) _ e H).
  rewrite <- app_assoc. reflexivity.
Qed.

(** Enough fuel: the loop returns the handle the rounds lead to. *)
Lemma wait_enough n inst tr inst' tr' :
  refreshes env n inst tr inst' tr' ->
  inst_status inst' = "available" ->
  forall fuel, n <= fuel ->
    wait_until_available env fuel inst tr = Some (Ok inst', tr').
Proof.
  induction 1 as [inst tr|n inst tr inst1 inst' tr' Hst Hup _ IH];
    intros Hav fuel Hfuel.
  - destruct fuel; simpl; rewrite Hav; reflexivity.
  - destruct fuel as [|fuel]; [lia|]. cbn [wait_until_available].
    apply String.eqb_neq in Hst. rewrite Hst.
    rewrite (@wait_round _ _ _ Hup). apply IH; [exact Hav|lia].
Qed.

(** Too little fuel: the loop is still waiting. *)
Lemma wait_short n inst tr inst' tr' :
  refreshes env n inst tr inst' tr' ->
  forall fuel, fuel < n -> wait_until_available env fuel inst tr = None.
Proof.
  induction 1 as [inst tr|n inst tr inst1 inst' tr' Hst Hup _ IH];
    intros fuel Hfuel; [lia|].
  apply String.eqb_neq in Hst.
  destruct fuel as [|fuel]; cbn [wait_until_available]; rewrite Hst; [reflexivity|].
  rewrite (@wait_round _ _ _ Hup). apply IH. lia.
Qed.

(** A loop that ends either returns an 'available' handle reached by rounds
    of sleep and refresh, or raises what a refresh raised; it attempts no
    connection. *)
Lemma wait_sound fuel :
  forall inst tr r tr',
    wait_until_available env fuel inst tr = Some (r, tr') ->
    (exists new, tr' = (tr ++ new)%list /\ select connect_attempt new = []) /\
    ((exists n inst',
        r = Ok inst' /\ refreshes env n inst tr inst' tr' /\
        inst_status inst' = "available") \/
     (exists e, r = Raise e)).
Proof.
  induction fuel as [|fuel IH]; intros inst tr r tr' H; cbn [wait_until_available] in H.
  - destruct (String.eqb_spec (inst_status inst) "available") as [Hav|Hst];
      [|discriminate].
    inversion H; subst. split.
    + exists []. rewrite app_nil_r. auto.
    + left. exists 0, inst. split; [reflexivity|]. split; [constructor|exact Hav].
  - destruct (String.eqb_spec (inst_status inst) "available") as [Hav|Hst].
    + inversion H; subst. split.
      * exists []. rewrite app_nil_r. auto.
      * left. exists 0, inst. split; [reflexivity|]. split; [constructor|exact Hav].
    + destruct (dbinstance_update env (tr ++ [(EvSleep 30, None)])%list inst)
        as [inst1|e] eqn:Hup.
      * rewrite (@wait_round _ _ _ Hup) in H.
        destruct (IH _ _ _ _ H) as [(new & -> & Hsel) Hcases]. split.
        -- exists ([(EvSleep 30, None); (EvUpdate (inst_id inst), None)] ++ new)%list.
           rewrite <- app_assoc. split; [reflexivity|].
           rewrite select_app, Hsel. reflexivity.
        -- destruct Hcases as [(n & inst' & -> & Hr & Hav)|[e ->]].
           ++ left. exists (S n), inst'. split; [reflexivity|].
              split; [|exact Hav]. econstructor; eauto.
           ++ right. eauto.
      * rewrite (@wait_round_raise _ _ _ Hup) in H. inversion H; subst. split.
        -- eexists. split; [reflexivity|]. reflexivity.
        -- right. eauto.
Qed.

Lemma create_db_provision_connects number label cls param_grp :
  emits (fun e => connect_attempt e = None)
        (create_db_provision env number label cls param_grp).
Proof.
  unfold create_db_provision, rds_connect, logging_info, time_sleep.
  repeat first
    [ apply emits_bind; [|intros ?]
    | apply emits_call; intros ?; reflexivity
    | apply emits_emit; reflexivity ].
Qed.

(** The handle returned by the bootstrap is the one it was given. *)
Lemma create_db_bootstrap_returns number label param_grp inst tr inst' tr' :
  create_db_bootstrap env number label param_grp inst tr = (Ok inst', tr') ->
  inst' = inst.
Proof.
  unfold create_db_bootstrap. intros H.
  unfold bind at 1 in H. unfold lift in H.
  destruct (endpoint_host inst) as [hostname|e]; [|discriminate].
  unfold bind at 1 in H.
  destruct (connect env "" "root" "changeME" hostname DEFAULT_PORT tr)
    as [[db|e] tr1]; [|discriminate].
  unfold bind at 1 in H.
  destruct (cursor env tr1) as [[u0|e] tr1']; [|discriminate].
  unfold bind in H.
  match type of H with
  | match ?X with _ => _ end = _ => destruct X as [[u|e] tr2]
  end; [|discriminate].
  inversion H. reflexivity.
Qed.

End Readiness.

(** *** The sample world that turns ready at the n-th round *)

Lemma count_update_sleep tr :
  Demo.count Demo.is_update (tr ++ [(EvSleep 30, None)])%list
  = Demo.count Demo.is_update tr.
Proof.
  unfold Demo.count. rewrite filter_app, length_app. simpl. apply Nat.add_0_r.
Qed.

Lemma count_update_round tr id :
  Demo.count Demo.is_update (tr ++ [(EvSleep 30, None); (EvUpdate id, None)])%list
  = S (Demo.count Demo.is_update tr).
Proof.
  unfold Demo.count. rewrite filter_app, length_app. simpl. apply Nat.add_1_r.
Qed.

Lemma world_refreshes (n : nat) listing failing (id : string) :
  forall m tr,
    1 <= m ->
    Demo.count Demo.is_update tr + m = S n ->
    exists tr',
      refreshes (Demo.world n listing failing) m (Demo.creating id) tr
                (Demo.running id) tr'.
Proof.
  induction m as [|m IH]; intros tr Hm Hc; [lia|].
  destruct m as [|m].
  - eexists. eapply refreshes_round.
    + simpl. discriminate.
    + simpl. rewrite count_update_sleep.
      replace (Nat.leb n (Demo.count Demo.is_update tr)) with true
        by (symmetry; apply Nat.leb_le; lia).
      reflexivity.
    + apply refreshes_done.
  - destruct (IH (tr ++ [(EvSleep 30, None); (EvUpdate id, None)])%list)
      as [tr' Hr]; [lia|rewrite count_update_round; lia|].
    exists tr'. eapply refreshes_round.
    + simpl. discriminate.
    + simpl. rewrite count_update_sleep.
      replace (Nat.leb n (Demo.count Demo.is_update tr)) with false
        by (symmetry; apply Nat.leb_gt; lia).
      reflexivity.
    + exact Hr.
Qed.

(** C9: create_db returns a handle only when its status is 'available', and
    attempts a connection only after rounds of 30-second sleep and refresh
    have led to such a handle; it runs as many rounds as the environment
    takes to report 'available', whatever that number is, and for every
    number there is an environment that takes more rounds than that. *)
Theorem create_db_readiness_wait :
  (forall env fuel number label cls pg tr r tr',
     create_db env fuel number label cls pg tr = Some (r, tr') ->
     (forall inst, r = Ok inst -> inst_status inst = "available") /\
     ((exists e new,
         r = Raise e /\ tr' = (tr ++ new)%list /\ select connect_attempt new = []) \/
      (exists inst0 tr1 n inst' tr2,
         create_db_provision env number label cls pg tr = (Ok inst0, tr1) /\
         refreshes env n inst0 tr1 inst' tr2 /\
         inst_status inst' = "available" /\
         create_db_bootstrap env number label pg inst' tr2 = (r, tr')))) /\
  (forall env number label cls pg tr inst0 tr1 n inst' tr2,
     create_db_provision env number label cls pg tr = (Ok inst0, tr1) ->
     refreshes env n inst0 tr1 inst' tr2 ->
     inst_status inst' = "available" ->
     (forall fuel, n <= fuel ->
        create_db env fuel number label cls pg tr
        = Some (create_db_bootstrap env number label pg inst' tr2)) /\
     (forall fuel, fuel < n ->
        create_db env fuel number label cls pg tr = None)) /\
  (forall n, exists env, forall number label cls pg,
     (forall fuel, fuel < n ->
        create_db env fuel number label cls pg [] = None) /\
     (forall fuel, n <= fuel ->
        exists inst tr',
          create_db env fuel number label cls pg [] = Some (Ok inst, tr'))).
Proof.
  split; [|split].
  - intros env fuel number label cls pg tr r tr' H. unfold create_db in H.
    destruct (@create_db_provision_connects env number label cls pg tr)
      as (prov & Eprov & Fprov).
    destruct (create_db_provision env number label cls pg tr)
      as [[inst0|e] tr1] eqn:Ep; simpl in Eprov; subst tr1.
    + destruct (wait_until_available env fuel inst0 (tr ++ prov)%list)
        as [[[inst'|e] tr2]|] eqn:Ew; [| |discriminate].
      * destruct (@wait_sound env fuel _ _ _ _ Ew) as [_ [(n & i & Hi & Hr & Hav)|[e He]]];
          [|discriminate].
        inversion Hi; subst i. inversion H as [Hb]. split.
        -- intros inst ->. apply create_db_bootstrap_returns in Hb.
           subst inst. exact Hav.
        -- right. exists inst0, (tr ++ prov)%list, n, inst', tr2. auto.
      * inversion H; subst. split; [intros inst Hinst; discriminate|].
        left. destruct (@wait_sound env fuel _ _ _ _ Ew) as [(new & -> & Hsel) _].
        exists e, (prov ++ new)%list. split; [reflexivity|].
        split; [symmetry; apply app_assoc|].
        rewrite select_app, Hsel, (select_none _ Fprov). reflexivity.
    + inversion H; subst. split; [intros inst Hinst; discriminate|].
      left. exists e, prov. split; [reflexivity|]. split; [reflexivity|].
      apply select_none. exact Fprov.
  - intros env number label cls pg tr inst0 tr1 n inst' tr2 Hp Hr Hav. split.
    + intros fuel Hfuel. unfold create_db. rewrite Hp.
      rewrite (wait_enough Hr Hav Hfuel). reflexivity.
    + intros fuel Hfuel. unfold create_db. rewrite Hp.
      rewrite (wait_short Hr Hfuel). reflexivity.
  - intros n. exists (Demo.world n (fun _ => []) (fun _ => None)).
    intros number label cls pg.
    set (id := instance_name label number pg).
    set (tr1 := [ (EvConnectRds, None);
                  (EvLog INFO ("Creating RDS instance with default database: "
                               ++ label ++ " " ++ cls ++ " " ++ pg ++ newline), None);
                  (EvCreateDbInstance id cls pg, None);
                  (EvSleep 30, None);
                  (EvUpdate id, None) ] : trace).
    destruct n as [|n].
    + split; [intros fuel Hfuel; lia|]. intros fuel _.
      eexists. eexists. unfold create_db.
      destruct fuel; reflexivity.
    + assert (Hp : create_db_provision (Demo.world (S n) (fun _ => []) (fun _ => None))
                     number label cls pg [] = (Ok (Demo.creating id), tr1))
        by reflexivity.
      destruct (@world_refreshes (S n) (fun _ => []) (fun _ => None) id (S n) tr1)
        as [tr2 Hr]; [lia|reflexivity|].
      split.
      * intros fuel Hfuel. unfold create_db. rewrite Hp.
        rewrite (wait_short Hr Hfuel). reflexivity.
      * intros fuel Hfuel. unfold create_db. rewrite Hp.
        rewrite (wait_enough Hr eq_refl Hfuel).
        eexists. eexists. reflexivity.
Qed.

Lemma create_db_readiness_wait_witness :
  exists inst tr',
    create_db (Demo.world 2 (fun _ => []) (fun _ => None)) 5 0 label inst_class
              "pgtesting-0" [] = Some (Ok inst, tr') /\
    inst_status inst = "available".
Proof.
  eexists. eexists. split; [vm_compute; reflexivity|].
  refine (proj1 (proj1 create_db_readiness_wait
                   (Demo.world 2 (fun _ => []) (fun _ => None)) 5 0 label
                   inst_class "pgtesting-0" [] _ _ _) _ eq_refl).
  vm_compute. reflexivity.
Defined.

(** *** Connections and cursors are closed *)

Lemma handles_after_app (h : handles) (a b : trace) :
  handles_after h (a ++ b)%list = handles_after (handles_after h a) b.
Proof. unfold handles_after. apply fold_left_app. Qed.

Lemma handles_after_free (h : handles) (new : trace) :
  Forall handle_free new -> handles_after h new = h.
Proof.
  induction 1 as [|e new He _ IH]; [reflexivity|].
  unfold handles_after in *. simpl. rewrite He. exact IH.
Qed.

Lemma keeps_handles_free {A} (h : handles) (m : M A) :
  emits handle_free m -> keeps_handles h m.
Proof.
  intros Hm tr. destruct (Hm tr) as (new & E & F).
  exists new. split; [exact E|]. apply handles_after_free. exact F.
Qed.

Lemma no_fault_app (a b : trace) :
  existsb handle_fault (a ++ b)%list = false ->
  existsb handle_fault a = false /\ existsb handle_fault b = false.
Proof. rewrite existsb_app. apply orb_false_elim. Qed.

Lemma ends_closed_free {A} (m : M A) :
  emits handle_free m -> ends_closed_from no_handles m.
Proof.
  intros Hm tr. destruct (Hm tr) as (new & E & F).
  exists new. split; [exact E|]. intros _. apply handles_after_free. exact F.
Qed.

Lemma ends_closed_bind_free {A B} (m : M A) (k : A -> M B) :
  emits handle_free m ->
  (forall a, ends_closed_from no_handles (k a)) ->
  ends_closed_from no_handles (bind m k).
Proof.
  intros Hm Hk tr. unfold bind.
  destruct (Hm tr) as (n1 & E1 & F1).
  destruct (m tr) as [[a|e] tr1]; simpl in E1; subst tr1.
  - destruct (Hk a (tr ++ n1)%list) as (n2 & E2 & H2).
    exists (n1 ++ n2)%list. rewrite E2, app_assoc. split; [reflexivity|].
    intros Hno. apply no_fault_app in Hno. destruct Hno as [_ Hno].
    rewrite handles_after_app, (handles_after_free _ F1). exact (H2 Hno).
  - exists n1. split; [reflexivity|]. intros _. apply handles_after_free. exact F1.
Qed.

(** A call on a handle that either returns, and the run goes on from the
    handles it leaves, or raises, which is a fault. *)
Lemma ends_closed_call_bind {B} (h : handles) (ev : event)
  (f : trace -> result unit) (k : unit -> M B) :
  (forall e, handle_fault (ev, Some e) = true) ->
  ends_closed_from (handle_step h (ev, None)) (k tt) ->
  ends_closed_from h (bind (call ev f) k).
Proof.
  intros Hev Hk tr. unfold bind, call. cbv beta zeta.
  destruct (f tr) as [[]|e]; cbn [exn_of].
  - destruct (Hk (tr ++ [(ev, None)])%list) as (n2 & E2 & H2).
    exists ((ev, None) :: n2). rewrite E2, <- app_assoc. split; [reflexivity|].
    intros Hno. apply (no_fault_app [(ev, None)] n2) in Hno.
    destruct Hno as [_ Hno]. exact (H2 Hno).
  - exists [(ev, Some e)]. split; [reflexivity|].
    intros Hno. cbn [existsb] in Hno. rewrite Hev in Hno. discriminate Hno.
Qed.

Lemma ends_closed_call (h : handles) (ev : event) (f : trace -> result unit) :
  (forall e, handle_fault (ev, Some e) = true) ->
  handle_step h (ev, None) = no_handles -> ends_closed_from h (call ev f).
Proof.
  intros Hev H tr. unfold call. cbv beta zeta.
  destruct (f tr) as [[]|e]; cbn [exn_of].
  - exists [(ev, None)]. split; [reflexivity|]. intros _.
    unfold handles_after. simpl. exact H.
  - exists [(ev, Some e)]. split; [reflexivity|].
    intros Hno. cbn [existsb] in Hno. rewrite Hev in Hno. discriminate Hno.
Qed.

Lemma ends_closed_then_ret {A B} (h : handles) (m : M A) (b : B) :
  ends_closed_from h m -> ends_closed_from h (bind m (fun _ => ret b)).
Proof.
  intros Hm tr. unfold bind, ret. destruct (Hm tr) as (new & E & H).
  exists new. destruct (m tr) as [[a|e] tr1]; simpl in *; auto.
Qed.

Lemma ends_closed_try_finally {A} (h : handles) (body : M A) (fin : M unit) :
  keeps_handles h body -> ends_closed_from h fin ->
  ends_closed_from h (try_finally body fin).
Proof.
  intros Hb Hf tr. unfold try_finally.
  destruct (Hb tr) as (n1 & E1 & H1).
  destruct (body tr) as [r tr1]. simpl in E1. subst tr1.
  destruct (Hf (tr ++ n1)%list) as (n2 & E2 & H2).
  exists (n1 ++ n2)%list.
  destruct (fin (tr ++ n1)%list) as [[u|e] tr2]; simpl in E2; subst tr2; simpl;
    (split; [symmetry; apply app_assoc|]); intros Hno;
    apply no_fault_app in Hno; destruct Hno as [_ Hno];
    rewrite handles_after_app, H1; exact (H2 Hno).
Qed.

Lemma keeps_handles_try_except {A} (h : handles) (body : M A) (handler : exn -> M A) :
  keeps_handles h body -> (forall e, emits handle_free (handler e)) ->
  keeps_handles h (try_except body handler).
Proof.
  intros Hb Hh tr. unfold try_except.
  destruct (Hb tr) as (n1 & E1 & H1).
  destruct (body tr) as [[a|e] tr1]; simpl in E1; subst tr1.
  - exists n1. auto.
  - destruct (Hh e (tr ++ n1)%list) as (n2 & E2 & F2).
    exists (n1 ++ n2)%list. rewrite E2, app_assoc. split; [reflexivity|].
    rewrite handles_after_app, H1. apply handles_after_free. exact F2.
Qed.

Lemma free_log lvl msg o : handle_free (EvLog lvl msg, o).
Proof. intros h. reflexivity. Qed.

Lemma free_execute s o : handle_free (EvExecute s, o).
Proof. intros h. reflexivity. Qed.

Lemma free_fetchall o : handle_free (EvFetchall, o).
Proof. intros h. reflexivity. Qed.

Section Stages.

Variable env : Env.

Lemma keeps_handles_try_except_Exception {A} (h : handles) (body : M A)
  (handler : exn -> M A) :
  keeps_handles h body -> (forall e, emits handle_free (handler e)) ->
  keeps_handles h (try_except_Exception body handler).
Proof.
  intros Hb Hh tr. unfold try_except_Exception.
  destruct (Hb tr) as (n1 & E1 & H1).
  destruct (body tr) as [[a|e] tr1]; simpl in E1; subst tr1.
  - exists n1. auto.
  - destruct (is_Exception e).
    + destruct (Hh e (tr ++ n1)%list) as (n2 & E2 & F2).
      exists (n1 ++ n2)%list. rewrite E2, app_assoc. split; [reflexivity|].
      rewrite handles_after_app, H1. apply handles_after_free. exact F2.
    + exists n1. auto.
Qed.

(** [connect] returns with the connection open, or [MySQLdb.connect]
    raises and nothing is open, or [autocommit] raises and the connection is
    open. *)
Lemma connect_cases database username pwd hostname portnum tr :
  connect env database username pwd hostname portnum tr =
    (Ok Connection,
     (tr ++ [ (EvConnect database username pwd hostname portnum, None);
              (EvAutocommit, None) ])%list) \/
  (exists e,
     connect env database username pwd hostname portnum tr =
       (Raise e,
        (tr ++ [(EvConnect database username pwd hostname portnum, Some e)])%list)) \/
  (exists e,
     connect env database username pwd hostname portnum tr =
       (Raise e,
        (tr ++ [ (EvConnect database username pwd hostname portnum, None);
                 (EvAutocommit, Some e) ])%list)).
Proof.
  remember (connect env database username pwd hostname portnum tr) as run eqn:Hrun.
  unfold connect, autocommit, bind, call, ret in Hrun. cbv beta zeta in Hrun.
  destruct (mysql_connect env tr database username pwd hostname portnum)
    as [[]|e]; cbn [exn_of] in Hrun.
  - destruct (connection_autocommit env _) as [[]|e]; cbn [exn_of] in Hrun;
      rewrite <- app_assoc in Hrun; subst run.
    + left. reflexivity.
    + right. right. exists e. reflexivity.
  - subst run. right. left. exists e. reflexivity.
Qed.

Lemma ends_closed_connect_bind {B} database username pwd hostname portnum
  (k : connection -> M B) :
  (forall db, ends_closed_from (MkHandles true false) (k db)) ->
  ends_closed_from no_handles
    (bind (connect env database username pwd hostname portnum) k).
Proof.
  intros Hk tr. unfold bind.
  destruct (connect_cases database username pwd hostname portnum tr)
    as [E|[[e E]|[e E]]]; rewrite E.
  - destruct (Hk Connection
                (tr ++ [ (EvConnect database username pwd hostname portnum, None);
                         (EvAutocommit, None) ])%list) as (n2 & E2 & H2).
    exists ([ (EvConnect database username pwd hostname portnum, None);
              (EvAutocommit, None) ] ++ n2)%list.
    rewrite E2, <- app_assoc. split; [reflexivity|].
    intros Hno. apply no_fault_app in Hno. destruct Hno as [_ Hno].
    rewrite handles_after_app. exact (H2 Hno).
  - exists [(EvConnect database username pwd hostname portnum, Some e)].
    split; [reflexivity|]. intros _. reflexivity.
  - exists [ (EvConnect database username pwd hostname portnum, None);
             (EvAutocommit, Some e) ].
    split; [reflexivity|]. intros Hno. discriminate Hno.
Qed.

Lemma ends_closed_closing :
  ends_closed_from (MkHandles true true) (c_close env ;;; db_close env).
Proof.
  unfold c_close, db_close.
  apply ends_closed_call_bind; [intros e; reflexivity|]. simpl.
  apply ends_closed_call; [intros e; reflexivity|reflexivity].
Qed.

(** The session of create_db and load_db: cursor, statements under
    [try]/[except]/[finally], both closes. *)
Lemma ends_closed_session {A} (body : M A) (handler : exn -> M A) :
  emits handle_free body -> (forall e, emits handle_free (handler e)) ->
  ends_closed_from (MkHandles true false)
    (cursor env ;;;
     try_finally (try_except body handler)
                 (c_close env ;;; db_close env)).
Proof.
  intros Hb Hh. unfold cursor.
  apply ends_closed_call_bind; [intros e; reflexivity|]. simpl.
  apply ends_closed_try_finally.
  - apply keeps_handles_try_except; [|exact Hh].
    apply keeps_handles_free. exact Hb.
  - apply ends_closed_closing.
Qed.

Lemma create_db_bootstrap_closes number label param_grp inst :
  ends_closed_from no_handles (create_db_bootstrap env number label param_grp inst).
Proof.
  unfold create_db_bootstrap.
  apply ends_closed_bind_free; [apply emits_lift|]. intros hostname.
  apply ends_closed_connect_bind. intros db. unfold cursor.
  apply ends_closed_call_bind; [intros e; reflexivity|]. simpl.
  apply ends_closed_then_ret.
  apply ends_closed_try_finally.
  - apply keeps_handles_try_except.
    + apply keeps_handles_free. unfold execute.
      apply emits_bind; [|intros _]; apply emits_call; intros o; apply free_execute.
    + intros e tr. exists [(EvLog ERROR
        ("setting up " ++ instance_name label number param_grp ++ ", error "
         ++ str_of_Z (db_errno env tr) ++ " " ++ db_error env tr ++ newline), None)].
      split; [reflexivity|]. constructor; [apply free_log|constructor].
  - apply ends_closed_closing.
Qed.

Lemma load_db_closes sql number label param_grp :
  ends_closed_from no_handles (load_db_with env sql number label param_grp).
Proof.
  unfold load_db_with, rds_connect, logging_info.
  apply ends_closed_bind_free; [apply emits_call; intros o h; reflexivity|]. intros _.
  apply ends_closed_bind_free; [apply emits_emit; intros h; reflexivity|]. intros _.
  apply ends_closed_bind_free; [apply emits_call; intros o h; reflexivity|]. intros inst.
  apply ends_closed_bind_free; [apply emits_lift|]. intros inst0.
  apply ends_closed_bind_free; [apply emits_lift|]. intros hostname.
  apply ends_closed_connect_bind. intros db.
  apply ends_closed_session.
  - apply emits_for_each. intros s. apply emits_call. intros o. apply free_execute.
  - intros e tr. exists [(EvLog ERROR
      ("load data error on " ++ instance_name label number param_grp ++ " "
       ++ str_of_Z (db_errno env tr) ++ " " ++ db_error env tr ++ newline), None)].
    split; [reflexivity|]. constructor; [apply free_log|constructor].
Qed.

Lemma perform_test_body_free sql profiles db_name :
  emits handle_free (perform_test_body env sql profiles db_name).
Proof.
  unfold perform_test_body, profile_query, execute, fetchall, logging_info.
  cbv zeta.
  repeat first
    [ apply emits_ret | apply emits_lift
    | apply profile_report_emits; intros ? ?; reflexivity
    | apply emits_bind; [|intros ?]
    | apply emits_for_each; intros ?
    | apply emits_for_enumerate; intros ? ?
    | apply emits_call; intros ? ?; reflexivity
    | apply emits_emit; intros ?; reflexivity
    | match goal with |- emits _ (if ?b then _ else _) => destruct b end ].
Qed.

(** perform_test leaves the connection as it was and no cursor in use. *)
Lemma perform_test_keeps_connection sql db profiles db_name :
  keeps_handles (MkHandles true false) (perform_test_with env sql db profiles db_name).
Proof.
  intros tr. unfold perform_test_with, cursor.
  unfold bind at 1. unfold call at 1. cbv beta zeta.
  destruct (connection_cursor env tr) as [[]|e0]; cbn [exn_of].
  2:{ exists [(EvCursor, Some e0)]. split; reflexivity. }
  unfold try_finally. rewrite try_except_reraise.
  destruct (perform_test_body_free sql profiles db_name (tr ++ [(EvCursor, None)])%list)
    as (body & E & F).
  destruct (perform_test_body env sql profiles db_name _) as [r tr1].
  simpl in E. subst tr1. unfold c_close, call. cbv beta zeta.
  remember (exn_of (cursor_close env ((tr ++ [(EvCursor, None)]) ++ body)%list))
    as o eqn:Ho.
  exists ([(EvCursor, None)] ++ body ++ [(EvCursorClose, o)])%list.
  split.
  - destruct (cursor_close env _) as [[]|e1]; cbn [exn_of] in Ho; subst o;
      cbn [snd]; rewrite <- !app_assoc; reflexivity.
  - rewrite !handles_after_app.
    change (handles_after (MkHandles true false) [(EvCursor, @None exn)])
      with (MkHandles true true).
    rewrite (handles_after_free _ F). reflexivity.
Qed.

Lemma perform_rds_test_closes sql number label param_grp profiles :
  ends_closed_from no_handles
    (perform_rds_test_with env sql number label param_grp profiles).
Proof.
  unfold perform_rds_test_with, rds_connect, logging_info.
  apply ends_closed_bind_free; [apply emits_call; intros o h; reflexivity|]. intros _.
  apply ends_closed_bind_free; [apply emits_emit; intros h; reflexivity|]. intros _.
  apply ends_closed_bind_free; [apply emits_call; intros o h; reflexivity|]. intros inst.
  intros tr. unfold bind at 1 2, lift.
  destruct (head inst) as [inst0|e0].
  2:{ exists []. rewrite app_nil_r. unfold try_finally, try_except_Exception, raise.
      destruct (is_Exception e0); (split; [reflexivity|intros _; reflexivity]). }
  destruct (endpoint_host inst0) as [hostname|e0].
  2:{ exists []. rewrite app_nil_r. unfold try_finally, try_except_Exception, raise.
      destruct (is_Exception e0); (split; [reflexivity|intros _; reflexivity]). }
  destruct (connect_cases DEFAULT_DATABASE DEFAULT_USER DEFAULT_PASSWD hostname
              DEFAULT_PORT tr) as [E|[[e E]|[e E]]]; rewrite E.
  - assert (Hrest : ends_closed_from (MkHandles true false)
              (try_finally
                 (try_except_Exception
                    (inst1 <- lift (Ok inst0) ;;
                     perform_test_with env sql Connection profiles (inst_id inst1))
                    (fun e =>
                       (fun tr0 =>
                          logging_error
                            ("test error on " ++ instance_name label number param_grp
                             ++ " " ++ str_of_Z (db_errno env tr0) ++ " "
                             ++ db_error env tr0 ++ newline) tr0) ;;;
                       raise e))
                 (db_close env))).
    { apply ends_closed_try_finally;
        [|apply ends_closed_call; [intros e; reflexivity|reflexivity]].
      apply keeps_handles_try_except_Exception.
      - intros tr0. rewrite bind_lift_ok. apply perform_test_keeps_connection.
      - intros e. apply emits_bind; [|intros _; apply emits_raise].
        intros tr0. eexists. split; [reflexivity|].
        constructor; [apply free_log|constructor]. }
    destruct (Hrest (tr ++ [ (EvConnect DEFAULT_DATABASE DEFAULT_USER DEFAULT_PASSWD
                                hostname DEFAULT_PORT, None);
                             (EvAutocommit, None) ])%list) as (n2 & E2 & H2).
    exists ([ (EvConnect DEFAULT_DATABASE DEFAULT_USER DEFAULT_PASSWD
                 hostname DEFAULT_PORT, None);
              (EvAutocommit, None) ] ++ n2)%list.
    rewrite app_assoc. split; [exact E2|].
    intros Hno. apply no_fault_app in Hno. destruct Hno as [_ Hno].
    rewrite handles_after_app. exact (H2 Hno).
  - exists [(EvConnect DEFAULT_DATABASE DEFAULT_USER DEFAULT_PASSWD hostname
               DEFAULT_PORT, Some e)].
    unfold try_finally, try_except_Exception, raise.
    destruct (is_Exception e); (split; [reflexivity|intros _; reflexivity]).
  - exists [ (EvConnect DEFAULT_DATABASE DEFAULT_USER DEFAULT_PASSWD hostname
                DEFAULT_PORT, None);
             (EvAutocommit, Some e) ].
    unfold try_finally, try_except_Exception, raise.
    destruct (is_Exception e);
      (split; [reflexivity|intros Hno; discriminate Hno]).
Qed.

End Stages.

Section CreateDbHandles.

Variable env : Env.

Lemma wait_until_available_emits (P : entry -> Prop) :
  P (EvSleep 30, None) -> (forall id o, P (EvUpdate id, o)) ->
  forall fuel inst tr r tr',
    wait_until_available env fuel inst tr = Some (r, tr') ->
    exists new, tr' = (tr ++ new)%list /\ Forall P new.
Proof.
  intros Hs Hu. induction fuel as [|fuel IH]; intros inst tr r tr' H;
    cbn [wait_until_available] in H;
    destruct (String.eqb (inst_status inst) "available").
  - inversion H; subst. exists []. rewrite app_nil_r. auto.
  - discriminate.
  - inversion H; subst. exists []. rewrite app_nil_r. auto.
  - destruct (dbinstance_update env (tr ++ [(EvSleep 30, None)])%list inst)
      as [inst1|e] eqn:Hup.
    + rewrite (@wait_round _ _ _ _ Hup) in H.
      destruct (IH _ _ _ _ H) as (new & -> & F).
      exists ([(EvSleep 30, None); (EvUpdate (inst_id inst), None)] ++ new)%list.
      rewrite <- app_assoc. split; [reflexivity|].
      apply Forall_app. split; [|exact F]. repeat constructor; auto.
    + rewrite (@wait_round_raise _ _ _ _ Hup) in H. inversion H; subst.
      eexists. split; [reflexivity|]. repeat constructor; auto.
Qed.

Lemma create_db_closes fuel number label cls param_grp tr r tr' :
  create_db env fuel number label cls param_grp tr = Some (r, tr') ->
  exists new,
    tr' = (tr ++ new)%list /\
    (existsb handle_fault new = false ->
     handles_after no_handles new = no_handles).
Proof.
  unfold create_db. intros H.
  assert (Hprov : emits handle_free (create_db_provision env number label cls param_grp)).
  { unfold create_db_provision, rds_connect, logging_info, time_sleep.
    repeat first
      [ apply emits_bind; [|intros ?]
      | apply emits_call; intros ? ?; reflexivity
      | apply emits_emit; intros ?; reflexivity ]. }
  destruct (Hprov tr) as (prov & Eprov & Fprov).
  destruct (create_db_provision env number label cls param_grp tr)
    as [[inst0|e] tr1]; simpl in Eprov; subst tr1.
  - destruct (wait_until_available env fuel inst0 (tr ++ prov)%list)
      as [[[inst'|e] tr2]|] eqn:Ew; [| |discriminate].
    + destruct (@wait_until_available_emits handle_free
                  (fun h => eq_refl) (fun id o h => eq_refl) _ _ _ _ _ Ew)
        as (waits & -> & Fwaits).
      destruct (@create_db_bootstrap_closes env number label param_grp inst'
                  ((tr ++ prov) ++ waits)%list) as (boot & Eboot & Hboot).
      inversion H as [Hb]. rewrite Hb in Eboot. simpl in Eboot. subst tr'.
      exists (prov ++ waits ++ boot)%list. rewrite !app_assoc.
      split; [reflexivity|]. intros Hno.
      rewrite <- !app_assoc in Hno. apply no_fault_app in Hno.
      destruct Hno as [_ Hno]. apply no_fault_app in Hno. destruct Hno as [_ Hno].
      rewrite <- !app_assoc, !handles_after_app.
      rewrite (handles_after_free _ Fprov), (handles_after_free _ Fwaits).
      exact (Hboot Hno).
    + destruct (@wait_until_available_emits handle_free
                  (fun h => eq_refl) (fun id o h => eq_refl) _ _ _ _ _ Ew)
        as (waits & -> & Fwaits).
      inversion H; subst. exists (prov ++ waits)%list.
      rewrite app_assoc. split; [reflexivity|]. intros _.
      apply handles_after_free. apply Forall_app. auto.
  - inversion H; subst. exists prov. split; [reflexivity|]. intros _.
    apply handles_after_free. exact Fprov.
Qed.

End CreateDbHandles.

(** C3 (the code departs from it): the server goes away while load_db
    loads its data: the statement fails, the handler logs it, and in the
    [finally] clause c.close() raises too, so db.close(), which stands
    after it in the same clause, is never called: load_db raises and leaves
    the connection open.  The bootstrap of create_db, built the same way,
    does the same.  perform_rds_test, in the same environment, closes its
    connection: there c.close() stands in the [finally] clause of
    perform_test and db.close() in one of its own. *)
Theorem load_db_leaves_connection_open :
  (exists new,
     load_db Demo.gone_away 0 label "pgtesting-0" []
       = (Raise (MySQLError 2006 "MySQL server has gone away"), new) /\
     last new (EvCursor, None)
       = (EvCursorClose, Some (MySQLError 2006 "MySQL server has gone away")) /\
     (forall o, ~ In (EvDbClose, o) new) /\
     db_open (handles_after no_handles new) = true) /\
  (exists new,
     create_db Demo.gone_away 1 0 label inst_class "pgtesting-0" []
       = Some (Raise (MySQLError 2006 "MySQL server has gone away"), new) /\
     last new (EvCursor, None)
       = (EvCursorClose, Some (MySQLError 2006 "MySQL server has gone away")) /\
     (forall o, ~ In (EvDbClose, o) new) /\
     db_open (handles_after no_handles new) = true) /\
  (exists new,
     perform_rds_test Demo.gone_away 0 label "pgtesting-0" ALL_PROFILES []
       = (Raise (MySQLError 2006 "MySQL server has gone away"), new) /\
     In (EvCursorClose, Some (MySQLError 2006 "MySQL server has gone away")) new /\
     last new (EvCursor, None) = (EvDbClose, None) /\
     db_open (handles_after no_handles new) = false).
Proof.
  split; [|split].
  - eexists. split; [vm_compute; reflexivity|].
    split; [reflexivity|]. split; [|reflexivity].
    intros o H. cbn [In] in H.
    repeat (destruct H as [H|H]; [discriminate H|]). exact H.
  - eexists. split; [vm_compute; reflexivity|].
    split; [reflexivity|]. split; [|reflexivity].
    intros o H. cbn [In] in H.
    repeat (destruct H as [H|H]; [discriminate H|]). exact H.
  - eexists. split; [vm_compute; reflexivity|].
    split; [|split; reflexivity].
    cbn [In]. do 7 right. left. reflexivity.
Qed.
(** *** cleanup: the polling loop *)

Lemma unwatched_not_poll (e : entry) : unwatched e -> is_poll e = false.
Proof.
  destruct e as [[] o]; simpl; try reflexivity.
  - destruct instance_id; [reflexivity|contradiction].
  - contradiction.
Qed.

Lemma latest_poll_snoc (tr : trace) (e : entry) :
  latest_poll (tr ++ [e])%list = if is_poll e then Some (fst e) else latest_poll tr.
Proof.
  unfold latest_poll. rewrite filter_app. cbn [filter].
  destruct (is_poll e).
  - rewrite rev_app_distr. destruct e. reflexivity.
  - rewrite app_nil_r. reflexivity.
Qed.

Lemma latest_poll_unwatched (tr new : trace) :
  Forall unwatched new -> latest_poll (tr ++ new)%list = latest_poll tr.
Proof.
  intros H. unfold latest_poll. rewrite filter_app.
  assert (Hnone : filter is_poll new = []).
  { induction H as [|e new He _ IH]; [reflexivity|].
    cbn [filter]. rewrite (unwatched_not_poll _ He). exact IH. }
  rewrite Hnone, app_nil_r. reflexivity.
Qed.

Lemma just_listed_after (tr new : trace) (o : option exn) :
  Forall unwatched new ->
  just_listed ((tr ++ [(EvGetAllDbInstances None, o)]) ++ new)%list = true.
Proof.
  intros H. unfold just_listed.
  rewrite (latest_poll_unwatched _ H), latest_poll_snoc. reflexivity.
Qed.

Lemma just_slept_after (tr new : trace) (s : Z) (o : option exn) :
  Forall unwatched new ->
  just_slept ((tr ++ [(EvSleep s, o)]) ++ new)%list = true.
Proof.
  intros H. unfold just_slept.
  rewrite (latest_poll_unwatched _ H), latest_poll_snoc. reflexivity.
Qed.

Lemma watch_run_app env label w (a b : trace) :
  fold_left (watch_step env label) (a ++ b)%list w
  = fold_left (watch_step env label) b (fold_left (watch_step env label) a w).
Proof. apply fold_left_app. Qed.

Lemma watch_run_unwatched env label (new : trace) :
  Forall unwatched new ->
  forall w,
    watch_run env label w new
    = Some (MkWatch (seen w ++ new)%list (rounds w) (matching w)).
Proof.
  unfold watch_run.
  induction 1 as [|e new He _ IH]; intros w.
  - simpl. rewrite app_nil_r. destruct w; reflexivity.
  - cbn [fold_left].
    assert (Hstep : watch_step env label (Some w) e
                    = Some (MkWatch (seen w ++ [e])%list (rounds w) (matching w))).
    { destruct e as [[] o]; try reflexivity.
      - destruct instance_id; [reflexivity|contradiction].
      - contradiction. }
    rewrite Hstep, IH. simpl. rewrite <- app_assoc. reflexivity.
Qed.

(** A listing passes when polling may go on and it is the first, or follows
    a sleep. *)
Lemma watch_step_listing env label (w : watch) (o : option exn) :
  matching w = true ->
  rounds w = 0 \/ just_slept (seen w) = true ->
  watch_step env label (Some w) (EvGetAllDbInstances None, o)
  = Some (MkWatch (seen w ++ [(EvGetAllDbInstances None, o)])%list
            (S (rounds w))
            match rds_get_all_dbinstances env (seen w) None with
            | Ok rs => truthy (filter (fun d => contains label (inst_id d)) rs)
            | Raise _ => false
            end).
Proof.
  intros Hm Hs. cbn [watch_step]. rewrite Hm.
  destruct Hs as [Hs|Hs]; rewrite Hs; [reflexivity|].
  rewrite orb_true_r. reflexivity.
Qed.

(** A sleep of 60 seconds passes right after a listing that matched. *)
Lemma watch_step_sleep env label (w : watch) :
  matching w = true -> 0 < rounds w -> just_listed (seen w) = true ->
  watch_step env label (Some w) (EvSleep 60, None)
  = Some (MkWatch (seen w ++ [(EvSleep 60, None)])%list (rounds w) true).
Proof.
  intros Hm Hr Hl. cbn [watch_step]. rewrite Hm, Hl.
  apply Nat.ltb_lt in Hr. rewrite Hr. reflexivity.
Qed.

Section Cleanup.

Variable env : Env.
Variable label : string.

Lemma delete_loop_unwatched (label_rs : list DBInstance) :
  emits unwatched
    (for_each label_rs (fun inst =>
       if existsb (String.eqb (inst_status inst)) deletable_statuses then
         logging_info ("Deleting RDS instance " ++ inst_id inst) ;;;
         call (EvDeleteDbInstance (inst_id inst))
              (fun tr => rds_delete_dbinstance env tr (inst_id inst))
       else ret tt)).
Proof.
  apply emits_for_each. intros inst.
  destruct (existsb _ _); [|apply emits_ret].
  apply emits_bind; [apply emits_emit; exact I|].
  intros _. apply emits_call. intros o. exact I.
Qed.

(** One pass, seen by the watcher: the listing, the deletions, then the
    sleep when an instance matched. *)
Lemma cleanup_round_watched tr w :
  seen w = tr -> matching w = true -> rounds w < 10 ->
  rounds w = 0 \/ just_slept tr = true ->
  exists new w',
    snd (cleanup_round env label tr) = (tr ++ new)%list /\
    watch_run env label w new = Some w' /\
    seen w' = (tr ++ new)%list /\
    rounds w' = S (rounds w) /\
    forall rs label_rs,
      fst (cleanup_round env label tr) = Ok (rs, label_rs) ->
      matching w' = truthy label_rs /\
      (truthy label_rs = true -> just_slept (tr ++ new)%list = true).
Proof.
  intros Hseen Hmatch Hrounds Hslept. rewrite <- Hseen in Hslept.
  remember (cleanup_round env label tr) as run eqn:Hrun.
  unfold cleanup_round in Hrun. unfold bind at 1 in Hrun.
  unfold call at 1 in Hrun. cbv beta zeta in Hrun.
  pose proof (watch_step_listing env label w
                (exn_of (rds_get_all_dbinstances env tr None)) Hmatch Hslept)
    as Hstep.
  rewrite Hseen in Hstep.
  destruct (rds_get_all_dbinstances env tr None) as [rs|e]; cbn [exn_of] in *.
  2:{ subst run. exists [(EvGetAllDbInstances None, Some e)]. eexists.
      cbn [fst snd]. split; [reflexivity|].
      split; [unfold watch_run; cbn [fold_left]; exact Hstep|].
      split; [reflexivity|]. split; [reflexivity|].
      intros rs' lrs' Heq. discriminate Heq. }
  remember (filter (fun d => contains label (inst_id d)) rs) as label_rs eqn:Hlrs.
  remember (tr ++ [(EvGetAllDbInstances None, None)])%list as tr1 eqn:Htr1.
  remember (MkWatch tr1 (S (rounds w)) (truthy label_rs)) as w1 eqn:Hw1.
  unfold bind at 1 in Hrun.
  destruct (delete_loop_unwatched label_rs tr1) as (dels & Edels & Fdels).
  assert (Hw2 : watch_run env label w ([(EvGetAllDbInstances None, None)] ++ dels)%list
                = Some (MkWatch (tr1 ++ dels)%list (S (rounds w)) (truthy label_rs))).
  { unfold watch_run. rewrite watch_run_app. cbn [fold_left]. rewrite Hstep.
    fold (watch_run env label w1 dels).
    rewrite (watch_run_unwatched env label Fdels). subst w1. reflexivity. }
  match type of Edels with
  | snd (?X) = _ => destruct X as [[[]|e] tr2]
  end; cbn [snd] in Edels; subst tr2.
  2:{ subst run. exists ([(EvGetAllDbInstances None, None)] ++ dels)%list. eexists.
      cbn [fst snd]. split; [subst tr1; rewrite <- !app_assoc; reflexivity|].
      split; [exact Hw2|].
      split; [subst tr1; cbn [seen]; rewrite <- !app_assoc; reflexivity|].
      split; [reflexivity|].
      intros rs' lrs' Heq. discriminate Heq. }
  unfold bind at 1 in Hrun. destruct (truthy label_rs) eqn:Htr.
  - unfold time_sleep in Hrun. cbn [emit ret] in Hrun. subst run.
    exists (([(EvGetAllDbInstances None, None)] ++ dels) ++ [(EvSleep 60, None)])%list.
    exists (MkWatch ((tr1 ++ dels) ++ [(EvSleep 60, None)])%list (S (rounds w)) true).
    cbn [fst snd]. split; [subst tr1; rewrite <- !app_assoc; reflexivity|]. split.
    + unfold watch_run in *. rewrite watch_run_app, Hw2.
      cbn [fold_left].
      apply (watch_step_sleep env label
               (MkWatch (tr1 ++ dels)%list (S (rounds w)) true));
        [reflexivity|cbn [rounds]; lia|].
      cbn [seen]. subst tr1. apply just_listed_after. exact Fdels.
    + split; [subst tr1; cbn [seen]; rewrite <- !app_assoc; reflexivity|].
      split; [reflexivity|].
      intros rs' lrs' Heq. inversion Heq; subst rs' lrs'.
      split; [symmetry; exact Htr|]. intros _.
      replace (tr ++ ([(EvGetAllDbInstances None, None)] ++ dels)
                  ++ [(EvSleep 60, None)])%list
        with (((tr ++ [(EvGetAllDbInstances None, None)] ++ dels)
                 ++ [(EvSleep 60, None)]) ++ [])%list
        by (rewrite app_nil_r, <- !app_assoc; reflexivity).
      apply just_slept_after. constructor.
  - cbn [ret] in Hrun. subst run.
    exists ([(EvGetAllDbInstances None, None)] ++ dels)%list. eexists.
    cbn [fst snd]. split; [subst tr1; rewrite <- !app_assoc; reflexivity|].
    split; [exact Hw2|].
    split; [subst tr1; cbn [seen]; rewrite <- !app_assoc; reflexivity|].
    split; [reflexivity|].
    intros rs' lrs' Heq. inversion Heq; subst rs' lrs'.
    split; [symmetry; exact Htr|]. intros Hc. rewrite Htr in Hc. discriminate Hc.
Qed.

(** The loop, seen by the watcher: it passes and counts at most 10 rounds;
    when the loop ends by itself, either the latest listing showed no
    instance with the label, or 10 rounds were made and the loop slept
    after the last. *)
Lemma cleanup_while_watched :
  forall fuel loop rs label_rs tr w,
    10 - loop <= fuel -> loop <= 10 ->
    seen w = tr -> rounds w = loop -> matching w = may_go_on label_rs ->
    loop = 0 \/ may_go_on label_rs = false \/ just_slept tr = true ->
    exists new w',
      snd (cleanup_while env fuel label loop rs label_rs tr) = (tr ++ new)%list /\
      watch_run env label w new = Some w' /\
      seen w' = (tr ++ new)%list /\
      rounds w' <= 10 /\
      forall st,
        fst (cleanup_while env fuel label loop rs label_rs tr) = Ok st ->
        rounds w' = fst (fst st) /\
        (matching w' = false \/
         (rounds w' = 10 /\ just_slept (tr ++ new)%list = true)).
Proof.
  induction fuel as [|fuel IH];
    intros loop rs label_rs tr w Hfuel Hloop Hseen Hrounds Hmatch Hinv.
  - assert (Hl : Nat.ltb loop 10 = false) by (apply Nat.ltb_ge; lia).
    cbn [cleanup_while]. rewrite Hl. cbn [andb ret].
    exists [], w. rewrite app_nil_r. unfold watch_run. cbn [fold_left fst snd].
    split; [reflexivity|]. split; [reflexivity|]. split; [exact Hseen|].
    split; [lia|]. intros st Hst. inversion Hst; subst st. cbn [fst snd].
    split; [exact Hrounds|].
    destruct (may_go_on label_rs) eqn:Hgo; [|left; exact Hmatch].
    right. split; [lia|]. destruct Hinv as [H0|[Hf|Hs]]; [lia|discriminate Hf|exact Hs].
  - cbn [cleanup_while]. fold (may_go_on label_rs).
    destruct (Nat.ltb_spec loop 10) as [Hlt|Hge]; cbn [andb].
    + destruct (may_go_on label_rs) eqn:Hgo; cbv iota.
      * assert (Hs : rounds w = 0 \/ just_slept tr = true).
        { destruct Hinv as [H0|[Hf|Hs]];
            [left; lia|discriminate Hf|right; exact Hs]. }
        destruct (@cleanup_round_watched tr w Hseen Hmatch) as
          (n1 & w1 & E1 & R1 & S1 & C1 & M1); [lia|exact Hs|].
        unfold bind.
        destruct (cleanup_round env label tr) as [[[rs1 lrs1]|e] tr1];
          cbn [fst snd] in E1, M1; subst tr1.
        -- destruct (M1 rs1 lrs1 eq_refl) as [Hm1 Hsl1].
           destruct (IH (loop + 1) (Some rs1) (Some lrs1) (tr ++ n1)%list w1)
             as (n2 & w2 & E2 & R2 & S2 & C2 & F2);
             [lia|lia|exact S1|lia|exact Hm1| |].
           { cbn [may_go_on]. destruct (truthy lrs1);
               [right; right; apply Hsl1; reflexivity|right; left; reflexivity]. }
           exists (n1 ++ n2)%list, w2. cbn [fst snd] in *.
           rewrite E2, app_assoc. split; [reflexivity|]. split.
           ++ unfold watch_run in *. rewrite watch_run_app, R1. exact R2.
           ++ split; [rewrite S2; reflexivity|]. split; [exact C2|exact F2].
        -- exists n1, w1. cbn [fst snd].
           split; [reflexivity|]. split; [exact R1|]. split; [exact S1|].
           split; [lia|]. intros st Hst. discriminate Hst.
      * exists [], w. rewrite app_nil_r. unfold watch_run. cbn [fold_left fst snd ret].
        split; [reflexivity|]. split; [reflexivity|]. split; [exact Hseen|].
        split; [lia|]. intros st Hst. inversion Hst; subst st. cbn [fst snd].
        split; [exact Hrounds|]. left. exact Hmatch.
    + exists [], w. rewrite app_nil_r. unfold watch_run. cbn [fold_left fst snd ret].
      split; [reflexivity|]. split; [reflexivity|]. split; [exact Hseen|].
      split; [lia|]. intros st Hst. inversion Hst; subst st. cbn [fst snd].
      split; [exact Hrounds|].
      destruct (may_go_on label_rs) eqn:Hgo; [|left; exact Hmatch].
      right. split; [lia|]. destruct Hinv as [H0|[Hf|Hs]]; [lia|discriminate Hf|exact Hs].
Qed.

(** Fuel beyond [10 - loop] changes nothing. *)
Lemma cleanup_while_fuel :
  forall fuel1 fuel2 loop rs label_rs tr,
    10 - loop <= fuel1 -> 10 - loop <= fuel2 ->
    cleanup_while env fuel1 label loop rs label_rs tr
    = cleanup_while env fuel2 label loop rs label_rs tr.
Proof.
  induction fuel1 as [|fuel1 IH]; intros fuel2 loop rs label_rs tr H1 H2.
  - assert (Nat.ltb loop 10 = false) as Hl by (apply Nat.ltb_ge; lia).
    destruct fuel2; cbn [cleanup_while]; rewrite Hl; reflexivity.
  - destruct fuel2 as [|fuel2].
    + assert (Nat.ltb loop 10 = false) as Hl by (apply Nat.ltb_ge; lia).
      cbn [cleanup_while]. rewrite Hl. reflexivity.
    + cbn [cleanup_while].
      destruct (Nat.ltb_spec loop 10) as [Hlt|Hge]; [|reflexivity].
      destruct (match label_rs with None => true | Some l => truthy l end);
        [|reflexivity].
      cbn [andb]. cbv iota beta. unfold bind.
      destruct (cleanup_round env label tr) as [[r|e] tr1]; [|reflexivity].
      apply IH; lia.
Qed.

Lemma delete_parameter_groups_unwatched pgroups :
  emits unwatched (delete_parameter_groups env pgroups).
Proof.
  unfold delete_parameter_groups. apply emits_for_each. intros pg.
  apply emits_call. intros o. exact I.
Qed.

Lemma cleanup_tail_unwatched pgroups (loop : nat) (rs : option (list DBInstance)) :
  emits unwatched
    (if Nat.eqb loop 10 then
       match rs with
       | None => raise (UnboundLocalError "rs")
       | Some rs0 =>
           if truthy rs0 then logging_error timed_out_message
           else delete_parameter_groups env pgroups
       end
     else delete_parameter_groups env pgroups).
Proof.
  destruct (Nat.eqb loop 10); [|apply delete_parameter_groups_unwatched].
  destruct rs as [rs0|]; [|apply emits_raise].
  destruct (truthy rs0); [|apply delete_parameter_groups_unwatched].
  apply emits_emit. exact I.
Qed.

End Cleanup.

(** C7: in every run of cleanup the watcher of the polling passes and has
    counted at most 10 listings of all instances: every listing after the
    first follows a sleep, every sleep is of 60 seconds and is the one
    polling step that follows a listing which showed an instance with the
    label in its id, and after a listing that showed none (or failed) there
    is no further listing and no sleep.  When cleanup returns, the latest
    listing showed no such instance, or there were 10 listings and cleanup
    slept after the last. *)
Theorem cleanup_polls_at_most_10_rounds
  (env : Env) (label : string) (pgroups : list string) (tr : trace) :
  exists new w,
    snd (cleanup env label pgroups tr) = (tr ++ new)%list /\
    watch_run env label (MkWatch tr 0 true) new = Some w /\
    rounds w <= 10 /\
    (fst (cleanup env label pgroups tr) = Ok tt ->
     matching w = false \/
     (rounds w = 10 /\ just_slept (tr ++ new)%list = true)).
Proof.
  remember (cleanup env label pgroups tr) as run eqn:Hrun.
  unfold cleanup, rds_connect in Hrun. unfold bind at 1 in Hrun.
  unfold call in Hrun. cbv beta zeta in Hrun.
  remember (exn_of (boto_connect_rds env tr)) as o eqn:Ho.
  remember (MkWatch (tr ++ [(EvConnectRds, o)])%list 0 true) as w0 eqn:Hw0.
  assert (H0 : watch_run env label (MkWatch tr 0 true) [(EvConnectRds, o)] = Some w0)
    by (subst w0; reflexivity).
  destruct (boto_connect_rds env tr) as [[]|e]; cbn [exn_of] in Ho.
  - assert (Hs0 : seen w0 = (tr ++ [(EvConnectRds, o)])%list)
      by (subst w0; reflexivity).
    assert (Hr0 : rounds w0 = 0) by (subst w0; reflexivity).
    assert (Hm0 : matching w0 = may_go_on None) by (subst w0; reflexivity).
    destruct (@cleanup_while_watched env label 10 0 None None
                (tr ++ [(EvConnectRds, o)])%list w0
                (Nat.le_refl 10) (Nat.le_0_l 10) Hs0 Hr0 Hm0 (or_introl eq_refl))
      as (n1 & w1 & E1 & R1 & S1 & C1 & F1).
    unfold bind in Hrun.
    destruct (cleanup_while env 10 label 0 None None _) as [[st|e] tr1];
      cbn [fst snd] in E1, F1; subst tr1.
    + cbv beta zeta in Hrun.
      destruct (@cleanup_tail_unwatched env pgroups (fst (fst st)) (snd (fst st))
                  ((tr ++ [(EvConnectRds, o)]) ++ n1)%list) as (n2 & E2 & F2).
      exists ([(EvConnectRds, o)] ++ n1 ++ n2)%list.
      exists (MkWatch (seen w1 ++ n2)%list (rounds w1) (matching w1)).
      subst run.
      split; [rewrite E2, <- !app_assoc; reflexivity|]. split.
      * unfold watch_run in *. rewrite !watch_run_app, H0, R1.
        apply (watch_run_unwatched env label F2).
      * split; [exact C1|]. intros _. cbn [rounds matching].
        destruct (F1 st eq_refl) as [_ [Hm|[Hr Hs]]]; [left; exact Hm|].
        right. split; [exact Hr|].
        replace (tr ++ [(EvConnectRds, o)] ++ n1 ++ n2)%list
          with (((tr ++ [(EvConnectRds, o)]) ++ n1) ++ n2)%list
          by (rewrite <- !app_assoc; reflexivity).
        unfold just_slept in *. rewrite (latest_poll_unwatched _ F2). exact Hs.
    + subst run. exists ([(EvConnectRds, o)] ++ n1)%list, w1.
      split; [rewrite <- app_assoc; reflexivity|]. split.
      * unfold watch_run in *. rewrite watch_run_app, H0. exact R1.
      * split; [exact C1|]. intros H. discriminate H.
  - subst run. exists [(EvConnectRds, o)], w0.
    split; [cbn [snd]; subst o; reflexivity|]. split; [exact H0|].
    split; [subst w0; simpl; lia|]. intros H. discriminate H.
Qed.

(** *** cleanup: the parameter groups *)

(** C4 (the code departs from it): in the world [Demo.slow_delete] the tenth
    and last listing shows no instance with the label "testing" in its id,
    only an instance of another project; cleanup nevertheless logs the
    time-out error and asks for the deletion of no parameter group. *)
Theorem cleanup_keeps_groups_although_none_matches :
  let run := cleanup Demo.slow_delete "testing" ["pgtesting-0"] [] in
  fst run = Ok tt /\
  (exists w,
     watch_run Demo.slow_delete "testing" (MkWatch [] 0 true) (snd run) = Some w /\
     rounds w = 10 /\ matching w = false) /\
  In (EvLog ERROR "Problem deleting RDS instances: timed out", None) (snd run) /\
  select deleted_group (snd run) = [].
Proof.
  vm_compute. split; [reflexivity|]. split.
  - eexists. split; [reflexivity|]. split; reflexivity.
  - split; [|reflexivity]. tauto.
Qed.

(** When the instances are gone before the tenth listing, the groups are
    deleted, whatever else is listed. *)
Example cleanup_deletes_groups_when_clear_early :
  select deleted_group
    (snd (cleanup (Demo.world 0 (fun _ => [Demo.running "billing-db"]) (fun _ => None))
                  "testing" ["pgtesting-0"; "pgtesting-1"] []))
  = ["pgtesting-0"; "pgtesting-1"].
Proof. vm_compute. reflexivity. Qed.

(** ** Further properties *)

(** *** profile_report: missing categories, rows, widths *)

Lemma getitem_raise {V} (d : list (string * V)) (k : string) (e : exn) :
  getitem d k = Raise e -> e = KeyError k.
Proof.
  induction d as [|[k' v] d IH]; simpl.
  - intros H. inversion H. reflexivity.
  - destruct (String.eqb k' k); [discriminate|exact IH].
Qed.

Lemma unknown_header_formats (c : string) :
  known c = false -> header_formats c = Raise (KeyError c).
Proof.
  unfold known, header_formats.
  destruct (getitem profile_headers c) as [h|e] eqn:E; [discriminate|].
  intros _. apply getitem_raise in E. subst e. reflexivity.
Qed.

Lemma extend_each_raise {A} (f : string -> result (list A)) (g : string -> list A)
  (pre : list string) (c : string) (post : list string) (e : exn) :
  Forall (fun a => f a = Ok (g a)) pre -> f c = Raise e ->
  forall acc, extend_each f (pre ++ c :: post)%list acc = Raise e.
Proof.
  induction 1 as [|a pre Ha _ IH]; intros Hc acc; simpl.
  - rewrite Hc. reflexivity.
  - rewrite Ha. simpl. apply IH. exact Hc.
Qed.

Lemma all_profiles_known (categories : list string) :
  incl categories ALL_PROFILES -> forallb known categories = true.
Proof.
  intros H. apply forallb_forall. intros c Hc. apply H in Hc.
  unfold ALL_PROFILES in Hc. simpl in Hc.
  repeat (destruct Hc as [Hc|Hc]; [subst c; reflexivity|]). contradiction.
Qed.

(** For categories of the table the report comes down to its two header
    lines followed by the loop over the rows. *)
Lemma profile_report_headers (categories : list string) :
  forallb known categories = true ->
  exists line1 line2,
    join_format (report_formats categories)
                (flat_map group_labels_of ("Always" :: categories)) = Ok line1 /\
    join_format (report_formats categories)
                (flat_map column_labels_of ("Always" :: categories)) = Ok line2 /\
    forall sql rows tr,
      profile_report sql rows categories tr =
      for_each rows (fun row =>
          line <- lift (join_format (report_formats categories) (map str row)) ;;
          logging_info line)
        (tr ++ [ (EvLog INFO (newline ++ "SQL: " ++ sql), None);
                 (EvLog INFO "--------------------", None);
                 (EvLog INFO line1, None);
                 (EvLog INFO line2, None) ])%list.
Proof.
  intros Hknown. unfold report_formats.
  assert (Hkeys : Forall (fun a => known a = true) ("Always" :: categories)).
  { constructor; [reflexivity|]. apply Forall_forall.
    apply (proj1 (forallb_forall _ _) Hknown). }
  set (keys := ("Always" :: categories)%list) in *.
  assert (HF : extend_each header_formats keys [] = Ok (flat_map formats_of keys)).
  { apply (@extend_each_flat_map _ header_formats formats_of).
    eapply Forall_impl; [|exact Hkeys]. apply known_header_formats. }
  assert (HG : extend_each header_group_labels keys []
               = Ok (flat_map group_labels_of keys)).
  { apply (@extend_each_flat_map _ header_group_labels group_labels_of).
    eapply Forall_impl; [|exact Hkeys]. apply known_header_group_labels. }
  assert (HC : extend_each header_column_labels keys []
               = Ok (flat_map column_labels_of keys)).
  { apply (@extend_each_flat_map _ header_column_labels column_labels_of).
    eapply Forall_impl; [|exact Hkeys]. apply known_header_column_labels. }
  destruct (labels_per_format keys) as [Hlen1 Hlen2].
  destruct (@join_format_ok (flat_map formats_of keys) (flat_map group_labels_of keys))
    as [line1 Hl1]; [lia|].
  destruct (@join_format_ok (flat_map formats_of keys) (flat_map column_labels_of keys))
    as [line2 Hl2]; [lia|].
  exists line1, line2. split; [exact Hl1|]. split; [exact Hl2|].
  intros sql rows tr. unfold profile_report, logging_info.
  rewrite !bind_emit. cbv beta zeta. fold keys.
  rewrite HF, HG, HC.
  rewrite !bind_lift_ok. cbv beta.
  rewrite Hl1, bind_lift_ok. cbv beta.
  rewrite bind_emit.
  rewrite !bind_lift_ok. cbv beta.
  rewrite Hl2, bind_lift_ok. cbv beta.
  rewrite bind_emit.
  change (replicate 20 "-") with "--------------------".
  rewrite <- !app_assoc. reflexivity.
Qed.

(** The loop over the rows: every row that has a cell for each column is
    logged. *)
Lemma report_rows_logged (formats : list format_spec) (rows : list (list pyval)) :
  Forall (fun row => List.length formats <= List.length row) rows ->
  exists lines,
    Forall2 (fun row line => join_format formats (map str row) = Ok line) rows lines /\
    forall tr,
      for_each rows (fun row =>
          line <- lift (join_format formats (map str row)) ;;
          logging_info line) tr
      = (Ok tt, (tr ++ map info_line lines)%list).
Proof.
  induction 1 as [|row rows Hrow _ (lines & HF & IH)].
  - exists []. split; [constructor|]. intros tr. simpl. rewrite app_nil_r. reflexivity.
  - destruct (@join_format_ok formats (map str row)) as [line Hl];
      [rewrite length_map; exact Hrow|].
    exists (line :: lines). split; [constructor; assumption|].
    intros tr. cbn [for_each]. unfold bind at 1.
    rewrite Hl, bind_lift_ok. unfold logging_info at 1. cbn [emit].
    rewrite IH. simpl. rewrite <- app_assoc. reflexivity.
Qed.

Lemma join_format_short (formats : list format_spec) (args : list string) :
  List.length args < List.length formats ->
  join_format formats args = Raise IndexError.
Proof.
  intros H. unfold join_format.
  assert (fill_fields formats args = Raise IndexError) as ->; [|reflexivity].
  revert args H. induction formats as [|f fs IH]; intros args H; simpl in *; [lia|].
  destruct args as [|a args]; [reflexivity|]. simpl in H.
  rewrite IH by lia. reflexivity.
Qed.

Lemma fill_fields_firstn (formats : list format_spec) (args : list string) :
  fill_fields formats (firstn (List.length formats) args) = fill_fields formats args.
Proof.
  revert args. induction formats as [|f fs IH]; intros args; simpl; [reflexivity|].
  destruct args as [|a args]; [reflexivity|]. rewrite IH. reflexivity.
Qed.

Lemma bind_lift_raise_run {A B} (e : exn) (k : A -> M B) (tr : trace) :
  bind (lift (Raise e)) k tr = (Raise e, tr).
Proof. reflexivity. Qed.

(** X1: a category that is not a key of the header table stops the report
    with KeyError on that category (the first such one in the request),
    when only the statement line and the rule have been logged. *)
Theorem profile_report_unknown_category
  (sql : string) (rows : list (list pyval)) (pre : list string) (c : string)
  (post : list string) (tr : trace) :
  forallb known pre = true -> known c = false ->
  profile_report sql rows (pre ++ c :: post) tr =
    (Raise (KeyError c),
     (tr ++ [ (EvLog INFO (newline ++ "SQL: " ++ sql), None);
              (EvLog INFO "--------------------", None) ])%list).
Proof.
  intros Hpre Hc. unfold profile_report, logging_info.
  rewrite !bind_emit. cbv beta zeta.
  rewrite (@extend_each_raise _ header_formats formats_of
             ("Always" :: pre) c post (KeyError c)).
  - unfold bind, lift. rewrite <- app_assoc. reflexivity.
  - constructor; [reflexivity|]. apply Forall_forall. intros a Ha.
    apply known_header_formats. apply (proj1 (forallb_forall _ _) Hpre a Ha).
  - apply unknown_header_formats. exact Hc.
Qed.

Lemma profile_report_unknown_category_witness :
  fst (profile_report "select 1=1" [] [CPU_PROFILE; "cpu"; SOURCE_PROFILE] [])
    = Raise (KeyError "cpu").
Proof.
  exact (f_equal fst
           (@profile_report_unknown_category "select 1=1" [] [CPU_PROFILE] "cpu"
              [SOURCE_PROFILE] [] eq_refl eq_refl)).
Defined.

(** X2: for categories taken from ALL_PROFILES and rows that have a cell for
    every column, the report returns normally and logs the statement line,
    the rule, the two header lines and then one line per row, in the order
    of the rows, each laid out from the cells of its row (surplus cells are
    dropped). *)
Theorem profile_report_logs_every_row
  (sql : string) (rows : list (list pyval)) (categories : list string)
  (tr : trace) :
  incl categories ALL_PROFILES ->
  Forall (fun row => List.length (report_formats categories) <= List.length row) rows ->
  exists line1 line2 lines,
    profile_report sql rows categories tr =
      (Ok tt,
       (tr ++ [ (EvLog INFO (newline ++ "SQL: " ++ sql), None);
                (EvLog INFO "--------------------", None);
                (EvLog INFO line1, None);
                (EvLog INFO line2, None) ]
           ++ map info_line lines)%list) /\
    Forall2 (fun row line =>
               join_format (report_formats categories)
                           (firstn (List.length (report_formats categories))
                                   (map str row)) = Ok line)
            rows lines.
Proof.
  intros Hincl Hrows.
  destruct (@profile_report_headers categories (all_profiles_known Hincl))
    as (line1 & line2 & _ & _ & Hrun).
  destruct (@report_rows_logged (report_formats categories) rows Hrows) as (lines & HF & Hloop).
  exists line1, line2, lines. split.
  - rewrite Hrun, Hloop, <- app_assoc. reflexivity.
  - clear - HF. induction HF as [|row line rows lines H _ IH]; constructor; auto.
    rewrite <- H. unfold join_format. rewrite fill_fields_firstn. reflexivity.
Qed.

Lemma profile_report_logs_every_row_witness :
  exists line1 line2 lines,
    profile_report "select 1=1"
      [[VStr "starting"; VStr "0.000012"; VStr "0.0"; VStr "0.0"; VNone]]
      [CPU_PROFILE] [] =
      (Ok tt,
       ([] ++ [ (EvLog INFO (newline ++ "SQL: " ++ "select 1=1"), None);
                (EvLog INFO "--------------------", None);
                (EvLog INFO line1, None);
                (EvLog INFO line2, None) ]
           ++ map info_line lines)%list) /\
    List.length lines = 1.
Proof.
  destruct (@profile_report_logs_every_row "select 1=1"
              [[VStr "starting"; VStr "0.000012"; VStr "0.0"; VStr "0.0"; VNone]]
              [CPU_PROFILE] [])
    as (line1 & line2 & lines & Hrun & HF).
  - intros c [Hc|[]]. subst c. simpl. auto.
  - constructor; [vm_compute; lia|constructor].
  - exists line1, line2, lines. split; [exact Hrun|].
    apply Forall2_length in HF. simpl in HF. symmetry. exact HF.
Defined.

(** X3: the first row with fewer cells than the report has columns stops the
    report with IndexError; the header and the rows before it have been
    logged, the rows after it are not. *)
Theorem profile_report_short_row
  (sql : string) (good : list (list pyval)) (bad : list pyval)
  (rest : list (list pyval)) (categories : list string) (tr : trace) :
  incl categories ALL_PROFILES ->
  Forall (fun row => List.length (report_formats categories) <= List.length row) good ->
  List.length bad < List.length (report_formats categories) ->
  exists line1 line2 lines,
    profile_report sql (good ++ bad :: rest) categories tr =
      (Raise IndexError,
       (tr ++ [ (EvLog INFO (newline ++ "SQL: " ++ sql), None);
                (EvLog INFO "--------------------", None);
                (EvLog INFO line1, None);
                (EvLog INFO line2, None) ]
           ++ map info_line lines)%list) /\
    List.length lines = List.length good.
Proof.
  intros Hincl Hgood Hbad.
  destruct (@profile_report_headers categories (all_profiles_known Hincl))
    as (line1 & line2 & _ & _ & Hrun).
  destruct (@report_rows_logged (report_formats categories) good Hgood) as (lines & HF & Hloop).
  exists line1, line2, lines. split; [|symmetry; exact (Forall2_length HF)].
  rewrite Hrun. clear Hrun.
  set (body := fun row : list pyval =>
                 line <- lift (join_format (report_formats categories) (map str row)) ;;
                 logging_info line) in *.
  assert (Happ : forall (l1 l2 : list (list pyval)) t,
            for_each (l1 ++ l2)%list body t =
            match for_each l1 body t with
            | (Ok _, t') => for_each l2 body t'
            | (Raise e, t') => (Raise e, t')
            end).
  { induction l1 as [|x l1 IH]; intros l2 t; simpl.
    - unfold ret. reflexivity.
    - unfold bind. destruct (body x t) as [[u|e] t']; [apply IH|reflexivity]. }
  rewrite Happ, Hloop. cbn [for_each]. unfold bind at 1. unfold body at 1.
  rewrite join_format_short by (rewrite length_map; exact Hbad).
  unfold bind, lift. rewrite <- app_assoc. reflexivity.
Qed.

Lemma profile_report_short_row_witness :
  fst (profile_report "select 1=1"
         [[VStr "starting"; VStr "0.000012"; VStr "0.0"; VStr "0.0"];
          [VStr "end"; VStr "0.000003"]]
         [CPU_PROFILE] [])
    = Raise IndexError.
Proof.
  destruct (@profile_report_short_row "select 1=1"
              [[VStr "starting"; VStr "0.000012"; VStr "0.0"; VStr "0.0"]]
              [VStr "end"; VStr "0.000003"] [] [CPU_PROFILE] [])
    as (line1 & line2 & lines & Hrun & _).
  - intros c [Hc|[]]. subst c. simpl. auto.
  - constructor; [vm_compute; lia|constructor].
  - vm_compute. lia.
  - exact (f_equal fst Hrun).
Defined.

Lemma string_length_append (a b : string) :
  String.length (a ++ b) = String.length a + String.length b.
Proof. induction a as [|c a IH]; simpl; [reflexivity|]. rewrite IH. reflexivity. Qed.

Lemma replicate_blank_length (n : nat) : String.length (replicate n " ") = n.
Proof. induction n as [|n IH]; simpl; [reflexivity|]. rewrite IH. reflexivity. Qed.

Lemma format_field_length (f : format_spec) (s : string) :
  fits f s = true -> String.length (format_field f s) = fs_width f.
Proof.
  unfold fits, format_field. intros H. apply Nat.leb_le in H.
  destruct (fs_align f); rewrite string_length_append, replicate_blank_length; lia.
Qed.

Lemma fill_fields_width (formats : list format_spec) :
  forall args,
    all_fit formats args = true ->
    exists cells,
      fill_fields formats args = Ok cells /\
      List.length cells = List.length formats /\
      String.length (String.concat " " cells) = line_width formats.
Proof.
  unfold line_width.
  induction formats as [|f fs IH]; intros args H; simpl in H.
  - exists []. simpl. auto.
  - destruct args as [|a args]; [discriminate|].
    apply andb_true_iff in H. destruct H as [Hf Hfs].
    destruct (IH args Hfs) as (rest & Hr & Hlen & Hw).
    exists (format_field f a :: rest). cbn [fill_fields]. rewrite Hr.
    split; [reflexivity|]. split; [simpl; rewrite Hlen; reflexivity|].
    cbn [String.concat map list_sum List.length].
    destruct rest as [|c rest].
    + destruct fs; [|discriminate Hlen]. simpl.
      rewrite (format_field_length _ _ Hf). lia.
    + rewrite !string_length_append, (format_field_length _ _ Hf), Hw.
      destruct fs as [|f' fs]; [discriminate Hlen|]. simpl. lia.
Qed.

Lemma join_format_width (formats : list format_spec) (args : list string) :
  all_fit formats args = true ->
  exists line,
    join_format formats args = Ok line /\ String.length line = line_width formats.
Proof.
  intros H. destruct (fill_fields_width _ _ H) as (cells & Hc & _ & Hw).
  exists (String.concat " " cells). unfold join_format. rewrite Hc. auto.
Qed.

Lemma all_fit_app (f1 f2 : list format_spec) (a1 a2 : list string) :
  List.length a1 = List.length f1 ->
  all_fit f1 a1 = true -> all_fit f2 a2 = true ->
  all_fit (f1 ++ f2) (a1 ++ a2) = true.
Proof.
  revert a1. induction f1 as [|f f1 IH]; intros a1 Hlen H1 H2.
  - destruct a1; [exact H2|discriminate].
  - destruct a1 as [|a a1]; [discriminate|]. simpl in *.
    apply andb_true_iff in H1. destruct H1 as [Hf H1].
    rewrite Hf. simpl. apply IH; auto.
Qed.

(** Every label of the table fits the field it is printed in. *)
Lemma profile_headers_fit (a : string) :
  all_fit (formats_of a) (group_labels_of a) = true /\
  all_fit (formats_of a) (column_labels_of a) = true /\
  List.length (group_labels_of a) = List.length (formats_of a) /\
  List.length (column_labels_of a) = List.length (formats_of a).
Proof.
  unfold formats_of, group_labels_of, column_labels_of.
  destruct (getitem profile_headers a) as [h|e] eqn:E; [|repeat split].
  apply getitem_In in E. simpl in E.
  repeat (destruct E as [E|E]; [subst h; repeat split|]).
  contradiction.
Qed.

Lemma header_labels_fit (keys : list string) :
  all_fit (flat_map formats_of keys) (flat_map group_labels_of keys) = true /\
  all_fit (flat_map formats_of keys) (flat_map column_labels_of keys) = true.
Proof.
  induction keys as [|a keys [IH1 IH2]]; [split; reflexivity|].
  destruct (profile_headers_fit a) as (F1 & F2 & L1 & L2).
  simpl. split; apply all_fit_app; auto.
Qed.

(** X4: for categories taken from ALL_PROFILES the two header lines of a
    report are equally wide, namely the field widths of all its columns plus
    one blank between neighbours, and so is every row line whose cells fit
    their fields: the columns line up. *)
Theorem profile_report_lines_align
  (sql : string) (rows : list (list pyval)) (categories : list string)
  (tr : trace) :
  incl categories ALL_PROFILES ->
  exists line1 line2 rest,
    snd (profile_report sql rows categories tr) =
      (tr ++ [ (EvLog INFO (newline ++ "SQL: " ++ sql), None);
               (EvLog INFO "--------------------", None);
               (EvLog INFO line1, None);
               (EvLog INFO line2, None) ] ++ rest)%list /\
    String.length line1 = line_width (report_formats categories) /\
    String.length line2 = line_width (report_formats categories) /\
    forall row line,
      all_fit (report_formats categories) (map str row) = true ->
      join_format (report_formats categories) (map str row) = Ok line ->
      String.length line = line_width (report_formats categories).
Proof.
  intros Hincl.
  destruct (@profile_report_headers categories (all_profiles_known Hincl))
    as (line1 & line2 & H1 & H2 & Hrun).
  destruct (header_labels_fit ("Always" :: categories)) as [F1 F2].
  fold (report_formats categories) in F1, F2.
  destruct (join_format_width _ _ F1) as (l1 & E1 & W1).
  destruct (join_format_width _ _ F2) as (l2 & E2 & W2).
  rewrite H1 in E1. rewrite H2 in E2. inversion E1. inversion E2. subst l1 l2.
  assert (Hrows : emits (fun _ => True)
            (for_each rows (fun row =>
               line <- lift (join_format (report_formats categories) (map str row)) ;;
               logging_info line))).
  { apply emits_for_each. intros row.
    apply emits_bind; [apply emits_lift|]. intros line.
    apply emits_emit. exact I. }
  set (tr4 := (tr ++ [ (EvLog INFO (newline ++ "SQL: " ++ sql), None);
                       (EvLog INFO "--------------------", None);
                       (EvLog INFO line1, None);
                       (EvLog INFO line2, None) ])%list).
  destruct (Hrows tr4) as (rest & Hrest & _).
  exists line1, line2, rest.
  split; [|split; [exact W1|split; [exact W2|]]].
  - rewrite Hrun. fold tr4. rewrite Hrest. unfold tr4.
    rewrite <- app_assoc. reflexivity.
  - intros row line Hfit Hline.
    destruct (join_format_width _ _ Hfit) as (l & El & Wl).
    rewrite Hline in El. inversion El. subst l. exact Wl.
Qed.

Lemma profile_report_lines_align_witness :
  exists line1 line2 rest,
    snd (profile_report "select 1=1" [] ALL_PROFILES []) =
      ([] ++ [ (EvLog INFO (newline ++ "SQL: " ++ "select 1=1"), None);
               (EvLog INFO "--------------------", None);
               (EvLog INFO line1, None);
               (EvLog INFO line2, None) ] ++ rest)%list /\
    String.length line1 = 196 /\ String.length line2 = 196.
Proof.
  destruct (@profile_report_lines_align "select 1=1" [] ALL_PROFILES [])
    as (line1 & line2 & rest & Hsnd & W1 & W2 & _).
  - intros c Hc. exact Hc.
  - exists line1, line2, rest. split; [exact Hsnd|].
    split; [rewrite W1|rewrite W2]; reflexivity.
Defined.

(** *** Parameter groups: first page, failures, tuples, names, overrides *)

(** X5: when the first page fetched holds the parameter, set_param fetches
    the catalog once, without marker, and assigns and applies the value on
    that page; a failing assignment or apply is the result and nothing is
    applied. *)
Theorem set_param_first_page
  (env : Env) (pg_name param : string) (val : pyval) (tr : trace)
  (pg : ParameterGroup) :
  rds_get_all_dbparameters env tr pg_name None = Ok pg ->
  existsb (String.eqb param) (pg_keys pg) = true ->
  exists new,
    snd (set_param env pg_name param val tr) = (tr ++ new)%list /\
    select catalog_fetch new = [(pg_name, None)] /\
    (fst (set_param env pg_name param val tr) = Ok tt ->
     select applied_value new = [(pg_name, param, val)]) /\
    (forall e,
       fst (set_param env pg_name param val tr) = Raise e ->
       select applied_value new = [] /\
       exists ev, last new (ev, None) = (ev, Some e)).
Proof.
  intros Hfirst Hin.
  remember (set_param env pg_name param val tr) as run eqn:Hrun.
  unfold set_param in Hrun. unfold bind at 1 in Hrun.
  rewrite (call_ok _ _ _ Hfirst), Hin in Hrun.
  unfold assign_and_apply in Hrun. rewrite Hin in Hrun. unfold bind in Hrun.
  set (tr1 := (tr ++ [(EvGetAllDbParameters pg_name None, None)])%list) in *.
  destruct (parameter_set_value env tr1 pg_name param val) as [[]|e3] eqn:E3.
  - rewrite (@call_ok _ (EvSetValue pg_name param val)
               (fun tr0 => parameter_set_value env tr0 pg_name param val)
               tr1 tt E3) in Hrun.
    set (tr2 := (tr1 ++ [(EvSetValue pg_name param val, None)])%list) in *.
    destruct (parameter_apply env tr2 pg_name param val) as [[]|e4] eqn:E4.
    + rewrite (@call_ok _ (EvApply pg_name param val)
                 (fun tr0 => parameter_apply env tr0 pg_name param val)
                 tr2 tt E4) in Hrun.
      exists [ (EvGetAllDbParameters pg_name None, None);
               (EvSetValue pg_name param val, None);
               (EvApply pg_name param val, None) ].
      subst run tr2 tr1. cbn [fst snd]. rewrite <- !app_assoc.
      split; [reflexivity|]. split; [reflexivity|]. split.
      * intros _. reflexivity.
      * intros e He. discriminate He.
    + rewrite (@call_raise _ (EvApply pg_name param val)
                 (fun tr0 => parameter_apply env tr0 pg_name param val)
                 tr2 e4 E4) in Hrun.
      exists [ (EvGetAllDbParameters pg_name None, None);
               (EvSetValue pg_name param val, None);
               (EvApply pg_name param val, Some e4) ].
      subst run tr2 tr1. cbn [fst snd]. rewrite <- !app_assoc.
      split; [reflexivity|]. split; [reflexivity|].
      split; [intros Hok; discriminate Hok|].
      intros e He. inversion He; subst. split; [reflexivity|].
      eexists. reflexivity.
  - rewrite (@call_raise _ (EvSetValue pg_name param val)
               (fun tr0 => parameter_set_value env tr0 pg_name param val)
               tr1 e3 E3) in Hrun.
    exists [ (EvGetAllDbParameters pg_name None, None);
             (EvSetValue pg_name param val, Some e3) ].
    subst run tr1. cbn [fst snd]. rewrite <- !app_assoc.
    split; [reflexivity|]. split; [reflexivity|].
    split; [intros Hok; discriminate Hok|].
    intros e He. inversion He; subst. split; [reflexivity|].
    eexists. reflexivity.
Qed.

Lemma set_param_first_page_witness :
  exists new,
    snd (set_param Demo.quiet "pgtesting-0" "collation_server"
           (VStr "utf8_general_ci") []) = ([] ++ new)%list /\
    select catalog_fetch new = [("pgtesting-0", None)].
Proof.
  destruct (@set_param_first_page Demo.quiet "pgtesting-0" "collation_server"
              (VStr "utf8_general_ci") [] Demo.page1)
    as (new & Hsnd & Hfetch & _).
  - reflexivity.
  - reflexivity.
  - exists new. split; [exact Hsnd|exact Hfetch].
Defined.

Section GroupRequests.

Variable env : Env.

Lemma set_param_failfast pg_name param val :
  failfast (set_param env pg_name param val).
Proof. unfold set_param, assign_and_apply. failfast_tac. Qed.

Lemma apply_param_set_failfast pg_name param_set :
  failfast (apply_param_set env pg_name param_set).
Proof.
  destruct param_set as [l|p]; simpl.
  - apply failfast_for_each. intros x. apply set_param_failfast.
  - apply set_param_failfast.
Qed.

Lemma create_param_groups_from_failfast name_prefix engine :
  forall params_to_vary index retVal,
    failfast (create_param_groups_from env name_prefix engine index
                params_to_vary retVal).
Proof.
  induction params_to_vary as [|param_set rest IH]; intros index retVal; simpl.
  - apply failfast_ret.
  - apply failfast_bind; [apply failfast_call|]. intros name.
    apply failfast_bind; [apply apply_param_set_failfast|]. intros _. apply IH.
Qed.

(** The create requests of a run are those of the first [k] groups. *)
Lemma create_param_groups_from_requests name_prefix engine :
  forall params_to_vary index retVal tr,
    exists new k,
      snd (create_param_groups_from env name_prefix engine index
             params_to_vary retVal tr) = (tr ++ new)%list /\
      k <= List.length params_to_vary /\
      select create_request new = map (group_name name_prefix) (seq index k) /\
      (forall names,
         fst (create_param_groups_from env name_prefix engine index
                params_to_vary retVal tr) = Ok names ->
         k = List.length params_to_vary).
Proof.
  induction params_to_vary as [|param_set rest IH]; intros index retVal tr.
  - exists [], 0. simpl. rewrite app_nil_r. auto.
  - remember (create_param_groups_from env name_prefix engine index
                (param_set :: rest) retVal tr) as run eqn:Hrun.
    cbn [create_param_groups_from] in Hrun. unfold bind at 1 in Hrun.
    set (pg_name := group_name name_prefix index) in *.
    set (description := name_prefix ++ " " ++ str_of_nat index) in *.
    destruct (rds_create_parameter_group env tr pg_name engine description)
      as [name|e] eqn:Ec.
    + rewrite (@call_ok _ (EvCreateParameterGroup pg_name engine description)
                 (fun tr0 => rds_create_parameter_group env tr0 pg_name engine description)
                 tr name Ec) in Hrun.
      set (tr1 := (tr ++ [(EvCreateParameterGroup pg_name engine description, None)])%list) in *.
      unfold bind at 1 in Hrun.
      destruct (@apply_param_set_emits env (fun x => create_request x = None)
                  pg_name param_set) with (tr := tr1) as (n1 & E1 & F1);
        try (intros; reflexivity).
      destruct (apply_param_set env pg_name param_set tr1) as [[u|e] tr2];
        simpl in E1; subst tr2.
      * destruct (IH (S index) (retVal ++ [name])%list (tr1 ++ n1)%list)
          as (n2 & k & E2 & Hk & Hsel & Hok).
        exists ((EvCreateParameterGroup pg_name engine description, None) :: n1 ++ n2)%list,
               (S k).
        subst run.
        split; [rewrite E2; unfold tr1; rewrite <- !app_assoc; reflexivity|].
        split; [simpl; lia|]. split.
        -- change ((EvCreateParameterGroup pg_name engine description, None) :: n1 ++ n2)%list
             with ([(EvCreateParameterGroup pg_name engine description, @None exn)]
                     ++ n1 ++ n2)%list.
           rewrite !select_app, (select_none _ F1), Hsel. reflexivity.
        -- intros names Hn. simpl. f_equal. apply (Hok names Hn).
      * exists ((EvCreateParameterGroup pg_name engine description, None) :: n1), 1.
        subst run. cbn [fst snd].
        split; [unfold tr1; rewrite <- app_assoc; reflexivity|].
        split; [simpl; lia|]. split.
        -- change ((EvCreateParameterGroup pg_name engine description, None) :: n1)
             with ([(EvCreateParameterGroup pg_name engine description, @None exn)]
                     ++ n1)%list.
           rewrite select_app, (select_none _ F1). reflexivity.
        -- intros names Hn. discriminate Hn.
    + rewrite (@call_raise _ (EvCreateParameterGroup pg_name engine description)
                 (fun tr0 => rds_create_parameter_group env tr0 pg_name engine description)
                 tr e Ec) in Hrun.
      exists [(EvCreateParameterGroup pg_name engine description, Some e)], 1.
      subst run. cbn [fst snd].
      split; [reflexivity|]. split; [simpl; lia|]. split; [reflexivity|].
      intros names Hn. discriminate Hn.
Qed.

Lemma create_param_groups_requests name_prefix params_to_vary engine tr :
  exists new k,
    snd (create_param_groups env name_prefix params_to_vary engine tr)
      = (tr ++ new)%list /\
    k <= List.length params_to_vary /\
    select create_request new = map (group_name name_prefix) (seq 0 k) /\
    (forall names,
       fst (create_param_groups env name_prefix params_to_vary engine tr) = Ok names ->
       k = List.length params_to_vary).
Proof.
  unfold create_param_groups, rds_connect. unfold bind, call.
  set (o := exn_of (boto_connect_rds env tr)).
  destruct (boto_connect_rds env tr) as [[]|e].
  - destruct (@create_param_groups_from_requests name_prefix engine params_to_vary
                0 [] (tr ++ [(EvConnectRds, o)])%list)
      as (n2 & k & E2 & Hk & Hsel & Hok).
    exists ((EvConnectRds, o) :: n2), k.
    split; [rewrite E2, <- app_assoc; reflexivity|].
    split; [exact Hk|]. split; [exact Hsel|exact Hok].
  - exists [(EvConnectRds, o)], 0. split; [reflexivity|].
    split; [lia|]. split; [reflexivity|]. intros names Hn. discriminate Hn.
Qed.

End GroupRequests.

(** X6: create_param_groups catches nothing: the exception of any failing
    RDS call is its result.  The groups whose creation it has asked for are
    always the first k of the sequence, under their names in order, with k
    the full number when it returns. *)
Theorem create_param_groups_stops_at_failure
  (env : Env) (name_prefix : string) (params_to_vary : list param_spec)
  (engine : string) (tr : trace) :
  exists new k,
    snd (create_param_groups env name_prefix params_to_vary engine tr)
      = (tr ++ new)%list /\
    k <= List.length params_to_vary /\
    select create_request new = map (group_name name_prefix) (seq 0 k) /\
    (forall names,
       fst (create_param_groups env name_prefix params_to_vary engine tr) = Ok names ->
       k = List.length params_to_vary) /\
    (forall ev e,
       In (ev, Some e) new ->
       fst (create_param_groups env name_prefix params_to_vary engine tr) = Raise e).
Proof.
  destruct (@create_param_groups_requests env name_prefix params_to_vary engine tr)
    as (new & k & E & Hk & Hsel & Hok).
  exists new, k. repeat (split; [assumption|]).
  assert (Hf : failfast (create_param_groups env name_prefix params_to_vary engine)).
  { unfold create_param_groups, rds_connect.
    apply failfast_bind; [apply failfast_call|]. intros _.
    apply create_param_groups_from_failfast. }
  destruct (Hf tr) as (new' & E' & F).
  rewrite E in E'. apply app_inv_head in E'. subst new'. exact F.
Qed.

(** X8: no two create requests of a run of create_param_groups carry the
    same group name. *)
Theorem create_param_groups_requests_distinct
  (env : Env) (name_prefix : string) (params_to_vary : list param_spec)
  (engine : string) (tr : trace) :
  exists new,
    snd (create_param_groups env name_prefix params_to_vary engine tr)
      = (tr ++ new)%list /\
    NoDup (select create_request new).
Proof.
  destruct (@create_param_groups_requests env name_prefix params_to_vary engine tr)
    as (new & k & E & _ & Hsel & _).
  exists new. split; [exact E|]. rewrite Hsel.
  generalize (seq_NoDup k 0). generalize (seq 0 k) as l.
  induction l as [|i l IH]; intros Hnd; simpl; [constructor|].
  inversion Hnd as [|? ? Hi Hl]; subst. constructor; [|apply IH; exact Hl].
  intros Hin. apply in_map_iff in Hin. destruct Hin as (j & Hj & Hjl).
  apply group_name_inj in Hj. subst j. contradiction.
Qed.

Section TuplesAndOverrides.

Variable env : Env.

Lemma apply_param_set_as_list pg_name param_set tr :
  apply_param_set env pg_name (as_list param_set) tr
  = apply_param_set env pg_name param_set tr.
Proof.
  destruct param_set as [l|p]; [reflexivity|].
  unfold as_list. simpl. unfold bind, ret.
  destruct (set_param env pg_name (fst p) (snd p) tr) as [[[]|e] tr']; reflexivity.
Qed.

Lemma create_param_groups_from_as_list name_prefix engine :
  forall params_to_vary index retVal tr,
    create_param_groups_from env name_prefix engine index
      (map as_list params_to_vary) retVal tr
    = create_param_groups_from env name_prefix engine index
        params_to_vary retVal tr.
Proof.
  induction params_to_vary as [|param_set rest IH]; intros index retVal tr;
    [reflexivity|].
  cbn [map create_param_groups_from]. unfold bind.
  destruct (call _ _ tr) as [[name|e] tr1]; [|reflexivity].
  rewrite apply_param_set_as_list.
  destruct (apply_param_set env _ param_set tr1) as [[u|e] tr2]; [|reflexivity].
  apply IH.
Qed.

(** The values applied to group [i] in a returning run of the groups of
    [__main__]. *)
Lemma main_param_groups_applied_seq label parameters tr names tr' i deltas :
  main_param_groups env label parameters tr = (Ok names, tr') ->
  nth_error parameters i = Some deltas ->
  select (applied_to (group_name label i)) tr' =
    (select (applied_to (group_name label i)) tr ++ deltas ++ utf8params)%list.
Proof.
  intros Hrun Hnth.
  unfold main_param_groups, create_param_groups, rds_connect in Hrun.
  unfold bind at 1 in Hrun. step_call Hrun; [|discriminate].
  apply create_param_groups_from_applied with (j := i) in Hrun.
  rewrite select_app in Hrun. simpl in Hrun. rewrite app_nil_r in Hrun.
  rewrite Hrun. f_equal. unfold pairs_at. simpl. rewrite Nat.sub_0_r.
  rewrite nth_error_map, Hnth. reflexivity.
Qed.

End TuplesAndOverrides.

Lemma last_value_app (param : string) (a b : list (string * pyval)) :
  last_value param (a ++ b) =
    match last_value param b with
    | Some v => Some v
    | None => last_value param a
    end.
Proof.
  induction a as [|[p v] a IH]; simpl.
  - destruct (last_value param b); reflexivity.
  - rewrite IH. destruct (last_value param b); reflexivity.
Qed.

(** X7: a bare tuple in [params_to_vary] is handled exactly like the
    one-element list that holds it: replacing every tuple by such a list
    changes neither the result nor the calls made. *)
Theorem create_param_groups_tuple_as_list
  (env : Env) (name_prefix : string) (params_to_vary : list param_spec)
  (engine : string) (tr : trace) :
  create_param_groups env name_prefix (map as_list params_to_vary) engine tr
  = create_param_groups env name_prefix params_to_vary engine tr.
Proof.
  unfold create_param_groups, bind.
  destruct (rds_connect env tr) as [[u|e] tr1]; [|reflexivity].
  apply create_param_groups_from_as_list.
Qed.



(** *** Stages: what happens to statement and connection errors *)

Section StageErrors.

Variable env : Env.

(** The statements of a list are executed up to the first that fails. *)
Lemma for_each_execute_cases (sql : list string) :
  forall tr,
    for_each sql (execute env) tr = (Ok tt, (tr ++ map executed_ok sql)%list) \/
    exists done s rest e,
      sql = (done ++ s :: rest)%list /\
      for_each sql (execute env) tr =
        (Raise e, (tr ++ map executed_ok done ++ [(EvExecute s, Some e)])%list).
Proof.
  induction sql as [|s sql IH]; intros tr.
  - left. simpl. rewrite app_nil_r. reflexivity.
  - assert (Hstep : for_each (s :: sql) (execute env) tr =
                    match cursor_execute env tr s with
                    | Ok _ => for_each sql (execute env) (tr ++ [(EvExecute s, None)])%list
                    | Raise e => (Raise e, (tr ++ [(EvExecute s, Some e)])%list)
                    end).
    { cbn [for_each]. unfold bind, execute, call.
      destruct (cursor_execute env tr s) as [[]|]; reflexivity. }
    rewrite Hstep. clear Hstep.
    destruct (cursor_execute env tr s) as [[]|e].
    + destruct (IH (tr ++ [(EvExecute s, None)])%list)
        as [H|(done & s' & rest & e & Hsql & H)]; rewrite H.
      * left. f_equal. symmetry.
        exact (app_assoc tr [(EvExecute s, None)] (map executed_ok sql)).
      * right. exists (s :: done), s', rest, e. split; [rewrite Hsql; reflexivity|].
        f_equal. symmetry.
        exact (app_assoc tr [(EvExecute s, None)]
                 (map executed_ok done ++ [(EvExecute s', Some e)])).
    + right. exists [], s, sql, e. split; reflexivity.
Qed.

Lemma select_executed_ok (sql : list string) :
  select executed (map executed_ok sql) = sql.
Proof. induction sql as [|s sql IH]; simpl; [reflexivity|]. f_equal. exact IH. Qed.

Lemma select_logged_executed_ok lvl (sql : list string) :
  select (logged lvl) (map executed_ok sql) = [].
Proof. induction sql as [|s sql IH]; simpl; [reflexivity|exact IH]. Qed.

Lemma filter_failed_executed_ok (sql : list string) :
  filter failed (map executed_ok sql) = [].
Proof. induction sql as [|s sql IH]; simpl; [reflexivity|exact IH]. Qed.

Lemma connect_ok database username pwd hostname portnum tr :
  mysql_connect env tr database username pwd hostname portnum = Ok tt ->
  connection_autocommit env
    (tr ++ [(EvConnect database username pwd hostname portnum, None)])%list = Ok tt ->
  connect env database username pwd hostname portnum tr =
    (Ok Connection,
     (tr ++ [ (EvConnect database username pwd hostname portnum, None);
              (EvAutocommit, None) ])%list).
Proof.
  intros H Ha. unfold connect, autocommit.
  rewrite (@bind_call_ok _ _ (EvConnect database username pwd hostname portnum)
             (fun tr0 => mysql_connect env tr0 database username pwd hostname portnum)
             _ tr tt H).
  rewrite (@bind_call_ok _ _ EvAutocommit (connection_autocommit env) _ _ tt Ha).
  unfold ret. rewrite <- app_assoc. reflexivity.
Qed.

(** The [finally] clause of create_db and load_db. *)
Lemma try_finally_closing {A} (body : M A) (tr : trace) (r : result A) (tr1 : trace) :
  body tr = (r, tr1) ->
  exists closing,
    snd (try_finally body (c_close env ;;; db_close env) tr) = (tr1 ++ closing)%list /\
    closing_outcome r closing
      (fst (try_finally body (c_close env ;;; db_close env) tr)).
Proof.
  intros Hbody. unfold try_finally. rewrite Hbody.
  unfold c_close, db_close, bind, call. cbv beta zeta.
  destruct (cursor_close env tr1) as [[]|e1]; cbn [exn_of].
  - destruct (connection_close env _) as [[]|e2]; cbn [exn_of fst snd].
    + exists [(EvCursorClose, None); (EvDbClose, None)].
      split; [rewrite <- app_assoc; reflexivity|]. left. split; reflexivity.
    + exists [(EvCursorClose, None); (EvDbClose, Some e2)].
      split; [rewrite <- app_assoc; reflexivity|].
      right. right. exists e2. split; reflexivity.
  - exists [(EvCursorClose, Some e1)]. cbn [fst snd].
    split; [reflexivity|]. right. left. exists e1. split; reflexivity.
Qed.

End StageErrors.

(** X11: when the instance is found with an endpoint and the connection and
    its cursor open, load_db swallows every statement error: it executes
    the load statements in order up to the first that fails, skips the
    rest and logs one error record for the failure; with no failure it
    executes them all and logs no error.  It ends in the [finally] clause:
    when c.close() and db.close() return, load_db returns; when c.close()
    raises, db.close() is not called and load_db raises that exception;
    when db.close() raises, load_db raises that one. *)
Theorem load_db_swallows_statement_errors
  (env : Env) (sql : list string) (number : nat) (label param_grp : string)
  (inst0 : DBInstance) (others : list DBInstance) (host : string) (port : Z)
  (tr : trace) :
  (forall h, boto_connect_rds env h = Ok tt) ->
  (forall h, rds_get_all_dbinstances env h
               (Some (instance_name label number param_grp)) = Ok (inst0 :: others)) ->
  inst_endpoint inst0 = Some (host, port) ->
  (forall h, mysql_connect env h DEFAULT_DATABASE DEFAULT_USER DEFAULT_PASSWD
               host DEFAULT_PORT = Ok tt) ->
  (forall h, connection_autocommit env h = Ok tt) ->
  (forall h, connection_cursor env h = Ok tt) ->
  exists new closing,
    snd (load_db_with env sql number label param_grp tr)
      = (tr ++ new ++ closing)%list /\
    ((select executed new = sql /\
      filter failed new = [] /\
      select (logged ERROR) new = []) \/
     (exists done s rest e,
        sql = (done ++ s :: rest)%list /\
        select executed new = (done ++ [s])%list /\
        filter failed new = [(EvExecute s, Some e)] /\
        List.length (select (logged ERROR) new) = 1)) /\
    closing_outcome (Ok tt) closing
      (fst (load_db_with env sql number label param_grp tr)).
Proof.
  intros Hrds Hlist Hend Hconn Hauto Hcur.
  remember (load_db_with env sql number label param_grp tr) as run eqn:Hrun.
  unfold load_db_with, rds_connect, logging_info, cursor in Hrun.
  rewrite (@bind_call_ok _ _ EvConnectRds (boto_connect_rds env) _ tr tt (Hrds tr))
    in Hrun.
  rewrite bind_emit in Hrun.
  rewrite (@bind_call_ok _ _
             (EvGetAllDbInstances (Some (instance_name label number param_grp)))
             (fun tr0 => rds_get_all_dbinstances env tr0
                           (Some (instance_name label number param_grp)))
             _ _ (inst0 :: others) (Hlist _)) in Hrun.
  cbn [head] in Hrun. rewrite bind_lift_ok in Hrun.
  unfold endpoint_host in Hrun. rewrite Hend, bind_lift_ok in Hrun.
  unfold bind at 1 in Hrun.
  rewrite (connect_ok _ _ _ _ _ _ _ (Hconn _) (Hauto _)) in Hrun.
  rewrite (@bind_call_ok _ _ EvCursor (connection_cursor env) _ _ tt (Hcur _)) in Hrun.
  match type of Hrun with
  | run = try_finally ?b _ ?t =>
      remember t as tr2 eqn:Htr2;
      assert (Hbody :
        (b tr2 = (Ok tt, (tr2 ++ map executed_ok sql)%list)) \/
        (exists done s rest e,
           sql = (done ++ s :: rest)%list /\
           b tr2 =
             (Ok tt,
              (tr2 ++ map executed_ok done
                   ++ [ (EvExecute s, Some e);
                        (EvLog ERROR
                           ("load data error on "
                            ++ instance_name label number param_grp ++ " "
                            ++ str_of_Z
                                 (db_errno env
                                    (tr2 ++ map executed_ok done
                                         ++ [(EvExecute s, Some e)])%list)
                            ++ " "
                            ++ db_error env
                                 (tr2 ++ map executed_ok done
                                      ++ [(EvExecute s, Some e)])%list
                            ++ newline), None) ])%list)))
  end.
  { unfold try_except.
    destruct (for_each_execute_cases env sql tr2)
      as [H|(done & s & rest & e & Hsql & H)]; rewrite H.
    - left. reflexivity.
    - right. exists done, s, rest, e. split; [exact Hsql|].
      unfold logging_error, emit. rewrite <- !app_assoc. reflexivity. }
  assert (Hpre : exists pre,
            tr2 = (tr ++ pre)%list /\ select executed pre = [] /\
            filter failed pre = [] /\ select (logged ERROR) pre = []).
  { eexists. split; [rewrite Htr2, <- !app_assoc; reflexivity|].
    split; [reflexivity|]. split; reflexivity. }
  destruct Hpre as (pre & Epre & Xpre & Fpre & Lpre).
  destruct Hbody as [Hb|(done & s & rest & e & Hsql & Hb)];
    destruct (try_finally_closing env _ _ Hb) as (closing & Hsnd & Hout);
    rewrite <- Hrun in Hsnd, Hout.
  - exists (pre ++ map executed_ok sql)%list, closing.
    split; [rewrite Hsnd, Epre, <- !app_assoc; reflexivity|].
    split; [|exact Hout]. left.
    rewrite !select_app, filter_app, Xpre, Fpre, Lpre.
    rewrite select_executed_ok, select_logged_executed_ok, filter_failed_executed_ok.
    split; [reflexivity|]. split; reflexivity.
  - eexists (pre ++ map executed_ok done ++ [(EvExecute s, Some e); _])%list, closing.
    split; [rewrite Hsnd, Epre, <- !app_assoc; reflexivity|].
    split; [|exact Hout]. right. exists done, s, rest, e.
    split; [exact Hsql|].
    rewrite !select_app, !filter_app, Xpre, Fpre, Lpre.
    rewrite select_executed_ok, select_logged_executed_ok, filter_failed_executed_ok.
    split; [reflexivity|]. split; reflexivity.
Qed.

Lemma load_db_swallows_statement_errors_witness :
  exists new closing,
    snd (load_db Demo.bad_query 0 label "pgtesting-0" [])
      = ([] ++ new ++ closing)%list /\
    closing_outcome (Ok tt) closing
      (fst (load_db Demo.bad_query 0 label "pgtesting-0" [])).
Proof.
  destruct (@load_db_swallows_statement_errors Demo.bad_query load_data_sql 0 label
              "pgtesting-0" (Demo.running "testing-0-pgtesting-0") []
              "testing-0-pgtesting-0.rds.example" 3306 [])
    as (new & closing & Hrun & _ & Hout); try (intros; reflexivity).
  exists new, closing. split; [exact Hrun|exact Hout].
Defined.
(** X10: once the connection of the bootstrap and its cursor are open,
    create_db's bootstrap swallows every statement error: a failing
    statement is logged as one error record and what is left of the two
    statements is skipped.  It ends in the [finally] clause: when c.close()
    and db.close() return, the bootstrap returns the instance handle; when
    c.close() raises, db.close() is not called and the bootstrap raises
    that exception; when db.close() raises, it raises that one. *)
Theorem create_db_bootstrap_swallows_statement_errors
  (env : Env) (number : nat) (label param_grp : string) (inst : DBInstance)
  (host : string) (port : Z) (tr : trace) :
  inst_endpoint inst = Some (host, port) ->
  (forall h, mysql_connect env h "" "root" "changeME" host DEFAULT_PORT = Ok tt) ->
  (forall h, connection_autocommit env h = Ok tt) ->
  (forall h, connection_cursor env h = Ok tt) ->
  exists new closing,
    snd (create_db_bootstrap env number label param_grp inst tr)
      = (tr ++ new ++ closing)%list /\
    ((select executed new =
        [ "CREATE DATABASE testdata";
          "grant all on testdata.* to testuser@'%' identified by 'testpass'" ] /\
      filter failed new = [] /\
      select (logged ERROR) new = []) \/
     (exists e,
        select executed new = ["CREATE DATABASE testdata"] /\
        filter failed new = [(EvExecute "CREATE DATABASE testdata", Some e)] /\
        List.length (select (logged ERROR) new) = 1) \/
     (exists e,
        select executed new =
          [ "CREATE DATABASE testdata";
            "grant all on testdata.* to testuser@'%' identified by 'testpass'" ] /\
        filter failed new =
          [(EvExecute
              "grant all on testdata.* to testuser@'%' identified by 'testpass'",
            Some e)] /\
        List.length (select (logged ERROR) new) = 1)) /\
    closing_outcome (Ok inst) closing
      (fst (create_db_bootstrap env number label param_grp inst tr)).
Proof.
  intros Hend Hconn Hauto Hcur.
  remember (create_db_bootstrap env number label param_grp inst tr) as run eqn:Hrun.
  unfold create_db_bootstrap, endpoint_host, cursor in Hrun.
  rewrite Hend, bind_lift_ok in Hrun.
  unfold bind at 1 in Hrun.
  rewrite (connect_ok _ _ _ _ _ _ _ (Hconn _) (Hauto _)) in Hrun.
  rewrite (@bind_call_ok _ _ EvCursor (connection_cursor env) _ _ tt (Hcur _)) in Hrun.
  change ("CREATE DATABASE " ++ DEFAULT_DATABASE)
    with "CREATE DATABASE testdata" in Hrun.
  change ("grant all on " ++ DEFAULT_DATABASE ++ ".* to " ++ DEFAULT_USER
          ++ "@'%' identified by '" ++ DEFAULT_PASSWD ++ "'")
    with "grant all on testdata.* to testuser@'%' identified by 'testpass'" in Hrun.
  unfold bind at 1 in Hrun.
  match type of Hrun with
  | context [try_finally ?b _ ?t] =>
      remember t as tr2 eqn:Htr2;
      assert (Hbody : exists bodynew,
        b tr2 = (Ok tt, (tr2 ++ bodynew)%list) /\
        ((select executed bodynew =
            [ "CREATE DATABASE testdata";
              "grant all on testdata.* to testuser@'%' identified by 'testpass'" ] /\
          filter failed bodynew = [] /\
          select (logged ERROR) bodynew = []) \/
         (exists e,
            select executed bodynew = ["CREATE DATABASE testdata"] /\
            filter failed bodynew = [(EvExecute "CREATE DATABASE testdata", Some e)] /\
            List.length (select (logged ERROR) bodynew) = 1) \/
         (exists e,
            select executed bodynew =
              [ "CREATE DATABASE testdata";
                "grant all on testdata.* to testuser@'%' identified by 'testpass'" ] /\
            filter failed bodynew =
              [(EvExecute
                  "grant all on testdata.* to testuser@'%' identified by 'testpass'",
                Some e)] /\
            List.length (select (logged ERROR) bodynew) = 1)))
  end.
  { unfold try_except, execute, bind, call, logging_error, emit. cbv beta zeta.
    destruct (cursor_execute env tr2 "CREATE DATABASE testdata") as [[]|e1];
      cbn [exn_of].
    - destruct (cursor_execute env _
                  "grant all on testdata.* to testuser@'%' identified by 'testpass'")
        as [[]|e2]; cbn [exn_of].
      + eexists. split; [rewrite <- !app_assoc; reflexivity|].
        left. split; [reflexivity|]. split; reflexivity.
      + eexists. split; [rewrite <- !app_assoc; reflexivity|].
        right. right. exists e2. split; [reflexivity|]. split; reflexivity.
    - eexists. split; [rewrite <- !app_assoc; reflexivity|].
      right. left. exists e1. split; [reflexivity|]. split; reflexivity. }
  destruct Hbody as (bodynew & Hb & Hcases).
  destruct (try_finally_closing env _ _ Hb) as (closing & Hsnd & Hout).
  exists ([ (EvConnect "" "root" "changeME" host DEFAULT_PORT, None);
            (EvAutocommit, None); (EvCursor, None) ] ++ bodynew)%list, closing.
  assert (Hsel : forall {X} (keep : entry -> option X),
            keep (EvConnect "" "root" "changeME" host DEFAULT_PORT, None) = None ->
            keep (EvAutocommit, None) = None -> keep (EvCursor, None) = None ->
            select keep
              ([ (EvConnect "" "root" "changeME" host DEFAULT_PORT, None);
                 (EvAutocommit, None); (EvCursor, None) ] ++ bodynew)%list
            = select keep bodynew).
  { intros X keep H1 H2 H3. rewrite select_app. unfold select at 1.
    cbn [flat_map]. rewrite H1, H2, H3. reflexivity. }
  rewrite !Hsel by reflexivity.
  change (filter failed
            ([ (EvConnect "" "root" "changeME" host DEFAULT_PORT, None);
               (EvAutocommit, None); (EvCursor, None) ] ++ bodynew)%list)
    with (filter failed bodynew).
  match type of Hsnd with
  | snd ?TF = _ => destruct TF as [[[]|e] tr3] eqn:ETF
  end; cbn [fst snd] in Hsnd, Hout; unfold ret in Hrun; subst run tr3;
    cbn [fst snd].
  - split; [rewrite Htr2, <- !app_assoc; reflexivity|]. split; [exact Hcases|].
    destruct Hout as [[Hc _]|[(e & _ & He)|(e & _ & He)]];
      [left; split; [exact Hc|reflexivity]|discriminate He|discriminate He].
  - split; [rewrite Htr2, <- !app_assoc; reflexivity|]. split; [exact Hcases|].
    destruct Hout as [[_ He]|[(e' & Hc & He)|(e' & Hc & He)]];
      [discriminate He| |].
    + right. left. exists e'. split; [exact Hc|congruence].
    + right. right. exists e'. split; [exact Hc|congruence].
Qed.

Lemma create_db_bootstrap_swallows_statement_errors_witness :
  exists new closing,
    snd (create_db_bootstrap Demo.quiet 0 label "pgtesting-0"
           (Demo.running "testing-0-pgtesting-0") [])
      = ([] ++ new ++ closing)%list /\
    closing_outcome (Ok (Demo.running "testing-0-pgtesting-0")) closing
      (fst (create_db_bootstrap Demo.quiet 0 label "pgtesting-0"
              (Demo.running "testing-0-pgtesting-0") [])).
Proof.
  destruct (@create_db_bootstrap_swallows_statement_errors Demo.quiet 0 label
              "pgtesting-0" (Demo.running "testing-0-pgtesting-0")
              "testing-0-pgtesting-0.rds.example" 3306 [])
    as (new & closing & Hrun & _ & Hout); try (intros; reflexivity).
  exists new, closing. split; [exact Hrun|exact Hout].
Defined.

Section RdsTestErrors.

Variable env : Env.

Lemma perform_test_body_emits (P : entry -> Prop) sql profiles db_name :
  (forall s o, P (EvExecute s, o)) ->
  (forall o, P (EvFetchall, o)) ->
  (forall msg, P (EvLog INFO msg, None)) ->
  emits P (perform_test_body env sql profiles db_name).
Proof.
  intros He Hf Hl.
  unfold perform_test_body, profile_query, execute, fetchall, logging_info.
  cbv zeta.
  repeat first
    [ apply emits_ret | apply emits_lift
    | apply profile_report_emits; exact Hl
    | apply emits_bind; [|intros ?]
    | apply emits_for_each; intros ?
    | apply emits_for_enumerate; intros ? ?
    | apply emits_call; intros ?; first [apply He | apply Hf]
    | apply emits_emit; apply Hl
    | match goal with |- emits _ (if ?b then _ else _) => destruct b end ].
Qed.

Lemma perform_test_emits (P : entry -> Prop) sql db profiles db_name :
  (forall o, P (EvCursor, o)) -> (forall o, P (EvCursorClose, o)) ->
  (forall s o, P (EvExecute s, o)) ->
  (forall o, P (EvFetchall, o)) ->
  (forall msg, P (EvLog INFO msg, None)) ->
  emits P (perform_test_with env sql db profiles db_name).
Proof.
  intros Hc Hcc He Hf Hl. unfold perform_test_with, cursor, c_close.
  apply emits_bind; [apply emits_call; exact Hc|]. intros _.
  apply emits_try_finally; [|apply emits_call; exact Hcc].
  apply emits_try_except; [|intros e; apply emits_raise].
  apply perform_test_body_emits; assumption.
Qed.

End RdsTestErrors.

Section RdsTest.

Variable env : Env.

Lemma connect_raise database username pwd hostname portnum tr e :
  mysql_connect env tr database username pwd hostname portnum = Raise e ->
  connect env database username pwd hostname portnum tr =
    (Raise e, (tr ++ [(EvConnect database username pwd hostname portnum, Some e)])%list).
Proof.
  intros H. unfold connect, bind, call. rewrite H. reflexivity.
Qed.

(** With [db] unbound, the handler and the [finally] clause both fail on
    reading it. *)
Lemma unbound_db (e : exn) (tr : trace) :
  try_finally
    (try_except_Exception (@raise unit e)
       (fun _ => raise (UnboundLocalError "db")))
    (raise (UnboundLocalError "db")) tr
  = (Raise (UnboundLocalError "db"), tr).
Proof.
  unfold try_finally, try_except_Exception, raise.
  destruct (is_Exception e); reflexivity.
Qed.

End RdsTest.



(** X13: with the connection open, perform_rds_test runs perform_test and
    then, as the last thing it does, closes the connection.  When
    db.close() returns, perform_rds_test ends the way perform_test ended,
    returning or raising the same exception; when db.close() raises, that
    exception is the result.  Before the close it has logged one error
    record exactly when perform_test raised an [Exception], none when it
    returned or raised something that is not an [Exception]. *)
Theorem perform_rds_test_reraises
  (env : Env) (sql : list string) (number : nat) (label param_grp : string)
  (profiles : list string) (inst0 : DBInstance) (others : list DBInstance)
  (host : string) (port : Z) (tr : trace) :
  (forall h, boto_connect_rds env h = Ok tt) ->
  (forall h, rds_get_all_dbinstances env h
               (Some (instance_name label number param_grp)) = Ok (inst0 :: others)) ->
  inst_endpoint inst0 = Some (host, port) ->
  (forall h, mysql_connect env h DEFAULT_DATABASE DEFAULT_USER DEFAULT_PASSWD
               host DEFAULT_PORT = Ok tt) ->
  (forall h, connection_autocommit env h = Ok tt) ->
  exists rest o,
    snd (perform_rds_test_with env sql number label param_grp profiles tr)
      = (tr ++ rds_test_opening number label param_grp host
            ++ rest ++ [(EvDbClose, o)])%list /\
    fst (perform_rds_test_with env sql number label param_grp profiles tr)
      = match o with
        | None =>
            fst (perform_test_with env sql Connection profiles (inst_id inst0)
                   (tr ++ rds_test_opening number label param_grp host)%list)
        | Some e => Raise e
        end /\
    List.length (select (logged ERROR) rest) =
      match fst (perform_test_with env sql Connection profiles (inst_id inst0)
                   (tr ++ rds_test_opening number label param_grp host)%list) with
      | Ok _ => 0
      | Raise e => if is_Exception e then 1 else 0
      end.
Proof.
  intros Hrds Hlist Hend Hconn Hauto.
  remember (perform_rds_test_with env sql number label param_grp profiles tr)
    as run eqn:Hrun.
  unfold perform_rds_test_with, rds_connect, logging_info in Hrun.
  rewrite (@bind_call_ok _ _ EvConnectRds (boto_connect_rds env) _ tr tt (Hrds tr))
    in Hrun.
  rewrite bind_emit in Hrun.
  rewrite (@bind_call_ok _ _
             (EvGetAllDbInstances (Some (instance_name label number param_grp)))
             (fun tr0 => rds_get_all_dbinstances env tr0
                           (Some (instance_name label number param_grp)))
             _ _ (inst0 :: others) (Hlist _)) in Hrun.
  cbn [head] in Hrun. rewrite bind_lift_ok in Hrun.
  unfold endpoint_host in Hrun. rewrite Hend, bind_lift_ok in Hrun.
  rewrite (connect_ok _ _ _ _ _ _ _ (Hconn _) (Hauto _)) in Hrun.
  unfold try_finally, try_except_Exception in Hrun.
  rewrite bind_lift_ok in Hrun.
  assert (Htr1 :
    ((((tr ++ [(EvConnectRds, None)]) ++
      [(EvLog INFO ("Performing test on database: " ++ label ++ " "
                    ++ str_of_nat number ++ " " ++ param_grp ++ newline), None)]) ++
     [(EvGetAllDbInstances (Some (instance_name label number param_grp)), None)]) ++
    [(EvConnect DEFAULT_DATABASE DEFAULT_USER DEFAULT_PASSWD host DEFAULT_PORT, None);
     (EvAutocommit, None)]
    = tr ++ rds_test_opening number label param_grp host)%list).
  { unfold rds_test_opening. rewrite <- !app_assoc. reflexivity. }
  rewrite Htr1 in Hrun.
  remember (tr ++ rds_test_opening number label param_grp host)%list as tr1 eqn:Etr1.
  destruct (@perform_test_emits env (fun x => logged ERROR x = None) sql Connection
              profiles (inst_id inst0)) with (tr := tr1) as (body & Eb & Fb);
    try (intros; reflexivity).
  destruct (perform_test_with env sql Connection profiles (inst_id inst0) tr1)
    as [[[]|e] tr2]; cbn [fst snd] in Eb |- *; subst tr2.
  - unfold db_close, call in Hrun. cbv beta zeta in Hrun.
    exists body, (exn_of (connection_close env (tr1 ++ body)%list)).
    destruct (connection_close env (tr1 ++ body)%list) as [[]|e1];
      cbn [exn_of] in Hrun |- *; subst run; cbn [fst snd];
      (split; [rewrite Etr1, <- !app_assoc; reflexivity|]);
      (split; [reflexivity|rewrite (select_none _ Fb); reflexivity]).
  - destruct (is_Exception e) eqn:Hexc.
    + unfold logging_error, bind, emit, raise, db_close, call in Hrun.
      cbv beta zeta in Hrun.
      match type of Hrun with
      | context [connection_close env ?t] =>
          exists (body ++ [(EvLog ERROR
                              ("test error on "
                               ++ instance_name label number param_grp ++ " "
                               ++ str_of_Z (db_errno env (tr1 ++ body)%list) ++ " "
                               ++ db_error env (tr1 ++ body)%list ++ newline),
                            None)])%list,
                 (exn_of (connection_close env t));
          destruct (connection_close env t) as [[]|e1]
      end; cbn [exn_of] in Hrun |- *; subst run; cbn [fst snd];
        (split; [rewrite Etr1, <- !app_assoc; reflexivity|]);
        (split; [reflexivity|]);
        rewrite select_app, (select_none _ Fb); reflexivity.
    + unfold db_close, call in Hrun. cbv beta zeta in Hrun.
      exists body, (exn_of (connection_close env (tr1 ++ body)%list)).
      destruct (connection_close env (tr1 ++ body)%list) as [[]|e1];
        cbn [exn_of] in Hrun |- *; subst run; cbn [fst snd];
        (split; [rewrite Etr1, <- !app_assoc; reflexivity|]);
        (split; [reflexivity|rewrite (select_none _ Fb); reflexivity]).
Qed.

Lemma perform_rds_test_reraises_witness :
  fst (perform_rds_test Demo.bad_query 0 label "pgtesting-0" ALL_PROFILES [])
    = Raise (MySQLError 1064 "syntax error") /\
  exists rest o,
    snd (perform_rds_test Demo.bad_query 0 label "pgtesting-0" ALL_PROFILES [])
      = ([] ++ rds_test_opening 0 label "pgtesting-0"
                 "testing-0-pgtesting-0.rds.example"
            ++ rest ++ [(EvDbClose, o)])%list /\
    List.length (select (logged ERROR) rest) = 1.
Proof.
  split; [vm_compute; reflexivity|].
  destruct (@perform_rds_test_reraises Demo.bad_query test_sql 0 label "pgtesting-0"
              ALL_PROFILES (Demo.running "testing-0-pgtesting-0") []
              "testing-0-pgtesting-0.rds.example" 3306 [])
    as (rest & o & Hsnd & _ & Herr); try (intros; reflexivity).
  exists rest, o. split; [exact Hsnd|].
  rewrite Herr. vm_compute. reflexivity.
Defined.

(** X19: the unit test test_report closes its connection only when
    perform_test returns.  After a run that returns no connection and no
    cursor is open.  When the test raises, either the exception is that of
    db.close() itself, or db.close() was never called: the exception
    leaves the test with no cursor in use and the connection still open. *)
Theorem test_report_leaks_connection_on_error (env : Env) (tr : trace) :
  mysql_connect env tr "database" "user" "passwd" "localhost" DEFAULT_PORT = Ok tt ->
  exists new,
    snd (test_report env tr) = (tr ++ new)%list /\
    (fst (test_report env tr) = Ok tt ->
     handles_after no_handles new = no_handles) /\
    (forall e,
       fst (test_report env tr) = Raise e ->
       last new (EvCursor, None) = (EvDbClose, Some e) \/
       (handles_after no_handles new = MkHandles true false /\
        forall o, ~ In (EvDbClose, o) new)).
Proof.
  intros Hconn.
  remember (test_report env tr) as run eqn:Hrun.
  unfold test_report in Hrun. unfold bind at 1 in Hrun.
  destruct (connect_cases env "database" "user" "passwd" "localhost" DEFAULT_PORT tr)
    as [E|[[e E]|[e E]]]; rewrite E in Hrun.
  2:{ apply (f_equal snd) in E.
      unfold connect, autocommit, bind, call, ret in E. cbv beta zeta in E.
      rewrite Hconn in E. cbn [exn_of] in E.
      destruct (connection_autocommit env _) as [[]|]; cbn [snd exn_of] in E;
        rewrite <- app_assoc in E; apply app_inv_head in E; discriminate E. }
  2:{ subst run. cbn [fst snd]. eexists. split; [reflexivity|]. split.
      - intros H. discriminate H.
      - intros e' _. right. split; [reflexivity|].
        intros o [H|[H|[]]]; discriminate H. }
  remember (tr ++ [ (EvConnect "database" "user" "passwd" "localhost" DEFAULT_PORT,
                     None);
                    (EvAutocommit, None) ])%list as tr1 eqn:Etr1.
  destruct (@perform_test_keeps_connection env test_sql Connection ALL_PROFILES
              "localhost" tr1) as (body & Eb & Hb).
  destruct (@perform_test_emits env (fun x => fst x <> EvDbClose) test_sql Connection
              ALL_PROFILES "localhost") with (tr := tr1) as (body' & Eb' & Fb);
    try (intros; discriminate).
  rewrite Eb in Eb'. apply app_inv_head in Eb'. subst body'.
  assert (Hnone : forall o, ~ In (EvDbClose, o) body).
  { intros o Hin. rewrite Forall_forall in Fb. apply (Fb _ Hin). reflexivity. }
  unfold bind in Hrun. unfold perform_test in Hrun.
  destruct (perform_test_with env test_sql Connection ALL_PROFILES "localhost" tr1)
    as [[[]|e] tr2]; cbn [snd] in Eb; subst tr2.
  - unfold db_close, call in Hrun. cbv beta zeta in Hrun.
    remember (connection_close env (tr1 ++ body)%list) as rc eqn:Hrc.
    exists ([ (EvConnect "database" "user" "passwd" "localhost" DEFAULT_PORT, None);
              (EvAutocommit, None) ] ++ body ++ [(EvDbClose, exn_of rc)])%list.
    subst run. cbn [fst snd].
    split; [rewrite Etr1, <- !app_assoc; reflexivity|]. split.
    + intros _. rewrite !handles_after_app.
      change (handles_after no_handles
                [ (EvConnect "database" "user" "passwd" "localhost" DEFAULT_PORT, None);
                  (EvAutocommit, None) ]) with (MkHandles true false).
      rewrite Hb. destruct rc as [[]|]; reflexivity.
    + intros e He. left. destruct rc as [[]|e1]; [discriminate He|].
      injection He as He. subst e1. cbn [exn_of].
      rewrite !app_assoc. apply last_last.
  - subst run. cbn [fst snd].
    exists ([ (EvConnect "database" "user" "passwd" "localhost" DEFAULT_PORT, None);
              (EvAutocommit, None) ] ++ body)%list.
    split; [rewrite Etr1, <- !app_assoc; reflexivity|]. split.
    + intros He. discriminate He.
    + intros e' _. right. split.
      * rewrite handles_after_app.
        change (handles_after no_handles
                  [ (EvConnect "database" "user" "passwd" "localhost" DEFAULT_PORT, None);
                    (EvAutocommit, None) ]) with (MkHandles true false).
        exact Hb.
      * intros o Hin. apply in_app_or in Hin. destruct Hin as [[H|[H|[]]]|Hin];
          [discriminate H|discriminate H|exact (Hnone o Hin)].
Qed.

Lemma test_report_leaks_connection_on_error_witness :
  fst (test_report Demo.bad_query []) = Raise (MySQLError 1064 "syntax error") /\
  exists new,
    snd (test_report Demo.bad_query []) = ([] ++ new)%list /\
    handles_after no_handles new = MkHandles true false.
Proof.
  split; [vm_compute; reflexivity|].
  destruct (@test_report_leaks_connection_on_error Demo.bad_query [])
    as (new & Hsnd & _ & Hraise).
  - reflexivity.
  - exists new. split; [exact Hsnd|].
    destruct (Hraise (MySQLError 1064 "syntax error")) as [Hlast|[Hopen _]].
    + vm_compute. reflexivity.
    + cbn [app] in Hsnd. rewrite <- Hsnd in Hlast. vm_compute in Hlast.
      discriminate Hlast.
    + exact Hopen.
Defined.

(** ** cleanup and db_status *)

Lemma prefix_append (x y : string) : prefix x (x ++ y) = true.
Proof.
  induction x as [|a x IH]; simpl.
  - destruct y; reflexivity.
  - destruct (Ascii.ascii_dec a a) as [_|N]; [exact IH|contradiction N; reflexivity].
Qed.

Lemma contains_append (x y : string) : contains x (x ++ y) = true.
Proof.
  unfold contains.
  destruct (x ++ y) as [|b s] eqn:E.
  - destruct x; [reflexivity|discriminate E].
  - assert (Hp : prefix x (String b s) = true)
      by (rewrite <- E; apply prefix_append).
    cbn [index]. rewrite Hp. reflexivity.
Qed.

Lemma select_Forall {X} (keep : entry -> option X) (Q : X -> Prop) (new : trace) :
  Forall (fun e => forall x, keep e = Some x -> Q x) new ->
  Forall Q (select keep new).
Proof.
  induction 1 as [|e l He _ IH]; simpl; [constructor|].
  destruct (keep e) as [x|] eqn:K; simpl; [|exact IH].
  constructor; [apply He; reflexivity|exact IH].
Qed.

Lemma forwards_ret {A} (a : A) : forwards (ret a).
Proof.
  intros tr. exists []. simpl. rewrite app_nil_r. split; [reflexivity|].
  split; [intros ev e []|intros e H; discriminate H].
Qed.

Lemma forwards_emit (ev : event) : forwards (emit ev).
Proof.
  intros tr. exists [(ev, None)]. simpl. split; [reflexivity|]. split.
  - intros ev' e [H|[]]. discriminate H.
  - intros e H. discriminate H.
Qed.

Lemma forwards_call {A} (ev : event) (f : trace -> result A) : forwards (call ev f).
Proof.
  intros tr. exists [(ev, exn_of (f tr))]. unfold call. simpl.
  split; [reflexivity|]. split.
  - intros ev' e [H|[]]. destruct (f tr); simpl in H; congruence.
  - intros e H. exists [], ev. rewrite H. reflexivity.
Qed.

Lemma forwards_bind {A B} (m : M A) (k : A -> M B) :
  forwards m -> (forall a, forwards (k a)) -> forwards (bind m k).
Proof.
  intros Hm Hk tr. unfold bind.
  destruct (Hm tr) as (n1 & E1 & F1 & L1).
  destruct (m tr) as [[a|e] tr1]; simpl in E1, F1, L1; subst tr1.
  - destruct (Hk a (tr ++ n1)%list) as (n2 & E2 & F2 & L2).
    exists (n1 ++ n2)%list. rewrite E2, app_assoc. split; [reflexivity|]. split.
    + intros ev e Hin. apply in_app_or in Hin. destruct Hin as [Hin|Hin].
      * specialize (F1 ev e Hin). discriminate F1.
      * exact (F2 ev e Hin).
    + intros e He. destruct (L2 e He) as (pre & ev & Hn). subst n2.
      exists (n1 ++ pre)%list, ev. rewrite app_assoc. reflexivity.
  - exists n1. simpl. split; [reflexivity|]. split.
    + intros ev e' Hin. specialize (F1 ev e' Hin). congruence.
    + intros e' He. apply L1. congruence.
Qed.

Lemma forwards_for_each {A} (l : list A) (body : A -> M unit) :
  (forall x, forwards (body x)) -> forwards (for_each l body).
Proof.
  intros Hb. induction l as [|x l IH]; simpl.
  - apply forwards_ret.
  - apply forwards_bind; auto.
Qed.

Lemma halts_ret {A} (a : A) : halts_at_failure (ret a).
Proof.
  intros tr. exists []. simpl. rewrite app_nil_r. split; [reflexivity|].
  left. exists a. split; [reflexivity|constructor].
Qed.

Lemma halts_emit (ev : event) : halts_at_failure (emit ev).
Proof.
  intros tr. exists [(ev, None)]. simpl. split; [reflexivity|].
  left. exists tt. split; [reflexivity|]. constructor; [reflexivity|constructor].
Qed.

Lemma halts_call {A} (ev : event) (f : trace -> result A) :
  halts_at_failure (call ev f).
Proof.
  intros tr. exists [(ev, exn_of (f tr))]. unfold call. cbv beta zeta.
  cbn [fst snd]. split; [reflexivity|].
  destruct (f tr) as [a|e]; cbn [exn_of].
  - left. exists a. split; [reflexivity|]. constructor; [reflexivity|constructor].
  - right. exists e, [], ev. split; [reflexivity|]. split; [reflexivity|constructor].
Qed.

Lemma halts_bind {A B} (m : M A) (k : A -> M B) :
  halts_at_failure m -> (forall a, halts_at_failure (k a)) ->
  halts_at_failure (bind m k).
Proof.
  intros Hm Hk tr. unfold bind.
  destruct (Hm tr) as (n1 & E1 & C1).
  destruct (m tr) as [[a|e] tr1]; cbn [fst snd] in E1, C1; subst tr1.
  - destruct C1 as [(a' & _ & F1)|(e & pre & ev & He & _)]; [|discriminate He].
    destruct (Hk a (tr ++ n1)%list) as (n2 & E2 & C2).
    exists (n1 ++ n2)%list. rewrite E2, app_assoc. split; [reflexivity|].
    destruct C2 as [(b & Hb & F2)|(e & pre & ev & He & Hn & F2)].
    + left. exists b. split; [exact Hb|]. apply Forall_app. split; assumption.
    + right. exists e, (n1 ++ pre)%list, ev. split; [exact He|].
      split; [rewrite Hn, app_assoc; reflexivity|].
      apply Forall_app. split; assumption.
  - exists n1. cbn [fst snd]. split; [reflexivity|].
    destruct C1 as [(a' & Ha & _)|(e' & pre & ev & He & Hn & F1)]; [discriminate Ha|].
    right. exists e', pre, ev. split; [congruence|]. split; assumption.
Qed.

Lemma halts_for_each {A} (l : list A) (body : A -> M unit) :
  (forall x, halts_at_failure (body x)) -> halts_at_failure (for_each l body).
Proof.
  intros Hb. induction l as [|x l IH]; simpl.
  - apply halts_ret.
  - apply halts_bind; auto.
Qed.

Section CleanupMore.

Variable env : Env.
Variable label : string.

Lemma cleanup_round_emits (P : entry -> Prop) :
  (forall o, P (EvGetAllDbInstances None, o)) ->
  (forall msg, P (EvLog INFO msg, None)) ->
  (forall id o, contains label id = true -> P (EvDeleteDbInstance id, o)) ->
  P (EvSleep 60, None) ->
  emits P (cleanup_round env label).
Proof.
  intros Hl Hi Hd Hs. unfold cleanup_round, logging_info, time_sleep.
  apply emits_bind; [apply emits_call; exact Hl|]. intros rs. cbv zeta.
  apply emits_bind.
  - apply emits_for_each_in. intros inst Hin. apply filter_In in Hin.
    destruct Hin as [_ Hc].
    destruct (existsb _ deletable_statuses); [|apply emits_ret].
    apply emits_bind; [apply emits_emit; apply Hi|]. intros _.
    apply emits_call. intros o. apply Hd. exact Hc.
  - intros _. apply emits_bind; [|intros _; apply emits_ret].
    destruct (truthy _); [apply emits_emit; exact Hs|apply emits_ret].
Qed.

Lemma cleanup_while_emits (P : entry -> Prop) :
  (forall o, P (EvGetAllDbInstances None, o)) ->
  (forall msg, P (EvLog INFO msg, None)) ->
  (forall id o, contains label id = true -> P (EvDeleteDbInstance id, o)) ->
  P (EvSleep 60, None) ->
  forall fuel loop rs label_rs,
    emits P (cleanup_while env fuel label loop rs label_rs).
Proof.
  intros Hl Hi Hd Hs. induction fuel as [|fuel IH]; intros loop rs label_rs;
    cbn [cleanup_while].
  - destruct (_ && _); apply emits_ret.
  - destruct (_ && _); [|apply emits_ret].
    apply emits_bind; [apply cleanup_round_emits; assumption|].
    intros r. apply IH.
Qed.

Lemma cleanup_round_forwards : forwards (cleanup_round env label).
Proof.
  unfold cleanup_round, logging_info, time_sleep.
  apply forwards_bind; [apply forwards_call|]. intros rs. cbv zeta.
  apply forwards_bind.
  - apply forwards_for_each. intros inst.
    destruct (existsb _ deletable_statuses); [|apply forwards_ret].
    apply forwards_bind; [apply forwards_emit|]. intros _. apply forwards_call.
  - intros _. apply forwards_bind; [|intros _; apply forwards_ret].
    destruct (truthy _); [apply forwards_emit|apply forwards_ret].
Qed.

(** Once bound, [rs] stays bound, and the loop forwards what its calls
    raise. *)
Lemma cleanup_while_forwards :
  forall fuel loop rs label_rs,
    forwards (cleanup_while env fuel label loop rs label_rs).
Proof.
  induction fuel as [|fuel IH]; intros loop rs label_rs; cbn [cleanup_while].
  - destruct (_ && _); apply forwards_ret.
  - destruct (_ && _); [|apply forwards_ret].
    apply forwards_bind; [apply cleanup_round_forwards|]. intros r. apply IH.
Qed.

Lemma cleanup_while_binds_rs :
  forall fuel loop rs0 label_rs tr st tr',
    cleanup_while env fuel label loop (Some rs0) label_rs tr = (Ok st, tr') ->
    exists rs, snd (fst st) = Some rs.
Proof.
  induction fuel as [|fuel IH]; intros loop rs0 label_rs tr st tr';
    cbn [cleanup_while].
  - destruct (_ && _); unfold ret; intros H; inversion H; subst;
      exists rs0; reflexivity.
  - destruct (_ && _).
    + unfold bind. destruct (cleanup_round env label tr) as [[r|e] tr1].
      * apply IH.
      * intros H. discriminate H.
    + unfold ret. intros H. inversion H; subst. exists rs0. reflexivity.
Qed.

Lemma cleanup_while_first_binds_rs :
  forall tr st tr',
    cleanup_while env 10 label 0 None None tr = (Ok st, tr') ->
    exists rs, snd (fst st) = Some rs.
Proof.
  intros tr st tr'.
  change (cleanup_while env 10 label 0 None None)
    with (bind (cleanup_round env label)
               (fun r => cleanup_while env 9 label (0 + 1)
                           (Some (fst r)) (Some (snd r)))).
  unfold bind. destruct (cleanup_round env label tr) as [[r|e] tr1].
  - apply cleanup_while_binds_rs.
  - intros H. discriminate H.
Qed.

Lemma delete_parameter_groups_forwards pgroups :
  forwards (delete_parameter_groups env pgroups).
Proof.
  unfold delete_parameter_groups. apply forwards_for_each. intros pg.
  apply forwards_call.
Qed.

(** The requests of the loop over [pgroups]: the groups in order, up to the
    first request that raises. *)
Lemma delete_parameter_groups_requests pgroups tr :
  exists new,
    snd (delete_parameter_groups env pgroups tr) = (tr ++ new)%list /\
    select (logged ERROR) new = [] /\
    (exists rest, pgroups = (select deleted_group new ++ rest)%list) /\
    (fst (delete_parameter_groups env pgroups tr) = Ok tt ->
     select deleted_group new = pgroups).
Proof.
  revert tr. induction pgroups as [|pg l IH]; intros tr.
  - exists []. simpl. rewrite app_nil_r. split; [reflexivity|].
    split; [reflexivity|]. split; [exists []; reflexivity|reflexivity].
  - unfold delete_parameter_groups. cbn [for_each].
    fold (delete_parameter_groups env l). unfold bind, call.
    destruct (rds_delete_parameter_group env tr pg) as [[]|e]; cbn [exn_of].
    + destruct (IH (tr ++ [(EvDeleteParameterGroup pg, None)])%list)
        as (n & E & Herr & (rest & Hrest) & Hok).
      exists ((EvDeleteParameterGroup pg, None) :: n).
      split; [rewrite E, <- app_assoc; reflexivity|].
      split; [exact Herr|]. split.
      * exists rest. simpl. rewrite Hrest at 1. reflexivity.
      * intros H. simpl. rewrite (Hok H). reflexivity.
    + exists [(EvDeleteParameterGroup pg, Some e)]. cbn [fst snd].
      split; [reflexivity|]. split; [reflexivity|]. split.
      * exists l. reflexivity.
      * intros H. discriminate H.
Qed.

Lemma cleanup_round_halts : halts_at_failure (cleanup_round env label).
Proof.
  unfold cleanup_round, logging_info, time_sleep.
  apply halts_bind; [apply halts_call|]. intros rs. cbv zeta.
  apply halts_bind.
  - apply halts_for_each. intros inst.
    destruct (existsb _ deletable_statuses); [|apply halts_ret].
    apply halts_bind; [apply halts_emit|]. intros _. apply halts_call.
  - intros _. apply halts_bind; [|intros _; apply halts_ret].
    destruct (truthy _); [apply halts_emit|apply halts_ret].
Qed.

Lemma cleanup_while_halts :
  forall fuel loop rs label_rs,
    halts_at_failure (cleanup_while env fuel label loop rs label_rs).
Proof.
  induction fuel as [|fuel IH]; intros loop rs label_rs; cbn [cleanup_while].
  - destruct (_ && _); apply halts_ret.
  - destruct (_ && _); [|apply halts_ret].
    apply halts_bind; [apply cleanup_round_halts|]. intros r. apply IH.
Qed.

Lemma delete_parameter_groups_halts pgroups :
  halts_at_failure (delete_parameter_groups env pgroups).
Proof.
  unfold delete_parameter_groups. apply halts_for_each. intros pg.
  apply halts_call.
Qed.

Lemma cleanup_halts pgroups : halts_at_failure (cleanup env label pgroups).
Proof.
  intros tr.
  remember (cleanup env label pgroups tr) as run eqn:Hrun.
  unfold cleanup, rds_connect in Hrun. unfold bind at 1 in Hrun.
  destruct (@halts_call unit EvConnectRds (boto_connect_rds env) tr)
    as (n0 & E0 & C0).
  destruct (call EvConnectRds (boto_connect_rds env) tr) as [[[]|e0] tr0];
    cbn [fst snd] in E0, C0; subst tr0.
  2:{ subst run. exists n0. cbn [fst snd]. split; [reflexivity|].
      destruct C0 as [(a & Ha & _)|(e & pre & ev & He & Hn & F0)]; [discriminate Ha|].
      right. exists e, pre, ev. split; [congruence|]. split; assumption. }
  destruct C0 as [(a0 & _ & F0)|(e & pre & ev & He & _)]; [|discriminate He].
  destruct (@cleanup_while_halts 10 0 None None (tr ++ n0)%list) as (n1 & E1 & C1).
  unfold bind in Hrun.
  destruct (cleanup_while env 10 label 0 None None (tr ++ n0)%list)
    as [[st|e] tr1] eqn:Hw; cbn [fst snd] in E1, C1; subst tr1.
  2:{ subst run. exists (n0 ++ n1)%list. cbn [fst snd].
      split; [symmetry; apply app_assoc|].
      destruct C1 as [(a & Ha & _)|(e' & pre & ev & He & Hn & F1)]; [discriminate Ha|].
      right. exists e', (n0 ++ pre)%list, ev. split; [congruence|].
      split; [rewrite Hn, app_assoc; reflexivity|].
      apply Forall_app. split; assumption. }
  destruct C1 as [(a1 & _ & F1)|(e & pre & ev & He & _)]; [|discriminate He].
  destruct (@cleanup_while_first_binds_rs _ _ _ Hw) as (rs & Hrs).
  cbv zeta in Hrun. rewrite Hrs in Hrun.
  assert (T : halts_at_failure
                (if Nat.eqb (fst (fst st)) 10
                 then if truthy rs then logging_error timed_out_message
                      else delete_parameter_groups env pgroups
                 else delete_parameter_groups env pgroups)).
  { destruct (Nat.eqb _ 10); [|apply delete_parameter_groups_halts].
    destruct (truthy rs); [apply halts_emit|apply delete_parameter_groups_halts]. }
  destruct (T ((tr ++ n0) ++ n1)%list) as (n2 & E2 & C2).
  subst run. exists (n0 ++ n1 ++ n2)%list.
  split; [rewrite E2, <- !app_assoc; reflexivity|].
  destruct C2 as [(a & Ha & F2)|(e & pre & ev & He & Hn & F2)].
  - left. exists a. split; [exact Ha|]. repeat (apply Forall_app; split); assumption.
  - right. exists e, (n0 ++ n1 ++ pre)%list, ev. split; [exact He|].
    split; [rewrite Hn, <- !app_assoc; reflexivity|].
    repeat (apply Forall_app; split); assumption.
Qed.

End CleanupMore.

(** X14: whatever RDS answers, cleanup asks for the deletion of an instance
    only when the id of that instance contains the label. *)
Theorem cleanup_deletes_only_labelled
  (env : Env) (label : string) (pgroups : list string) (tr : trace) :
  exists new,
    snd (cleanup env label pgroups tr) = (tr ++ new)%list /\
    Forall (fun id => contains label id = true) (select deleted_instance new).
Proof.
  assert (H : emits (fun e => forall id, deleted_instance e = Some id ->
                                         contains label id = true)
                (cleanup env label pgroups)).
  { unfold cleanup, rds_connect.
    apply emits_bind; [apply emits_call; intros o id H; discriminate H|].
    intros _. apply emits_bind.
    - apply cleanup_while_emits.
      + intros o id H. discriminate H.
      + intros msg id H. discriminate H.
      + intros id o Hc id' H. simpl in H. inversion H. subst id'. exact Hc.
      + intros id H. discriminate H.
    - intros st. cbv zeta.
      assert (D : emits (fun e => forall id, deleted_instance e = Some id ->
                                             contains label id = true)
                    (delete_parameter_groups env pgroups)).
      { unfold delete_parameter_groups. apply emits_for_each. intros pg.
        apply emits_call. intros o id H. discriminate H. }
      destruct (Nat.eqb _ 10); [|exact D].
      destruct (snd (fst st)) as [rs|]; [|apply emits_raise].
      destruct (truthy rs); [|exact D].
      apply emits_emit. intros id H. discriminate H. }
  destruct (H tr) as (new & E & F). exists new. split; [exact E|].
  apply select_Forall. exact F.
Qed.

(** The parameter groups asked for, and the time-out record. *)
Lemma cleanup_group_requests
  (env : Env) (label : string) (pgroups : list string) (tr : trace) :
  exists new,
    snd (cleanup env label pgroups tr) = (tr ++ new)%list /\
    (exists rest, pgroups = (select deleted_group new ++ rest)%list) /\
    (fst (cleanup env label pgroups tr) = Ok tt ->
     (select deleted_group new = pgroups /\ select (logged ERROR) new = []) \/
     (select deleted_group new = [] /\
      select (logged ERROR) new = [timed_out_message])).
Proof.
  remember (cleanup env label pgroups tr) as run eqn:Hrun.
  unfold cleanup, rds_connect in Hrun. unfold bind at 1 in Hrun. unfold call in Hrun.
  destruct (boto_connect_rds env tr) as [[]|e0]; cbn [exn_of] in Hrun.
  2:{ subst run. exists [(EvConnectRds, Some e0)]. cbn [fst snd].
      split; [reflexivity|]. split; [exists pgroups; reflexivity|].
      intros H. discriminate H. }
  set (tr0 := (tr ++ [(EvConnectRds, None)])%list) in *.
  destruct (@cleanup_while_emits env label
              (fun e => deleted_group e = None /\ logged ERROR e = None))
    with (fuel := 10) (loop := 0) (rs := @None (list DBInstance))
         (label_rs := @None (list DBInstance)) (tr := tr0)
    as (n1 & E1 & F1); try (intros; split; reflexivity).
  assert (G1 : select deleted_group n1 = []).
  { apply select_none. eapply Forall_impl; [|exact F1]. intros a [H _]. exact H. }
  assert (L1 : select (logged ERROR) n1 = []).
  { apply select_none. eapply Forall_impl; [|exact F1]. intros a [_ H]. exact H. }
  unfold bind in Hrun.
  destruct (cleanup_while env 10 label 0 None None tr0) as [[st|e] tr1] eqn:Hw;
    simpl in E1; subst tr1.
  2:{ subst run. exists ([(EvConnectRds, None)] ++ n1)%list. cbn [fst snd].
      split; [unfold tr0; rewrite <- app_assoc; reflexivity|].
      split; [exists pgroups; rewrite select_app, G1; reflexivity|].
      intros H. discriminate H. }
  destruct (cleanup_while_first_binds_rs _ _ _ Hw) as (rs & Hrs).
  cbv zeta in Hrun. rewrite Hrs in Hrun.
  destruct (delete_parameter_groups_requests env pgroups (tr0 ++ n1)%list)
    as (n2 & E2 & Herr2 & Hpre2 & Hok2).
  assert (Hdel : exists new,
            snd (delete_parameter_groups env pgroups (tr0 ++ n1)%list)
              = (tr ++ new)%list /\
            (exists rest, pgroups = (select deleted_group new ++ rest)%list) /\
            (fst (delete_parameter_groups env pgroups (tr0 ++ n1)%list) = Ok tt ->
             (select deleted_group new = pgroups /\ select (logged ERROR) new = []) \/
             (select deleted_group new = [] /\
              select (logged ERROR) new = [timed_out_message]))).
  { exists ([(EvConnectRds, None)] ++ n1 ++ n2)%list.
    split; [rewrite E2; unfold tr0; rewrite <- !app_assoc; reflexivity|].
    rewrite !select_app, G1, L1, Herr2. cbn [select flat_map deleted_group app].
    split; [exact Hpre2|]. intros H. left. split; [exact (Hok2 H)|reflexivity]. }
  destruct (Nat.eqb (fst (fst st)) 10); [|subst run; exact Hdel].
  destruct (truthy rs); [|subst run; exact Hdel].
  subst run. unfold logging_error, emit. cbn [fst snd].
  exists ([(EvConnectRds, None)] ++ n1 ++ [(EvLog ERROR timed_out_message, None)])%list.
  split; [unfold tr0; rewrite <- !app_assoc; reflexivity|].
  rewrite !select_app, G1, L1. split; [exists pgroups; reflexivity|].
  intros _. right. split; reflexivity.
Qed.

(** X15: cleanup asks for the deletion of parameter groups in the order of
    [pgroups] and stops at the first request that raises: a run either
    returns, and none of its requests raised, or raises the exception of
    the request it made last, and none before that one raised.  A run that
    returns has either asked for every group and logged no error, or logged
    the time-out error once and asked for no group. *)
Theorem cleanup_groups_or_timeout
  (env : Env) (label : string) (pgroups : list string) (tr : trace) :
  exists new,
    snd (cleanup env label pgroups tr) = (tr ++ new)%list /\
    (exists rest, pgroups = (select deleted_group new ++ rest)%list) /\
    ((fst (cleanup env label pgroups tr) = Ok tt /\
      Forall (fun en => snd en = None) new /\
      ((select deleted_group new = pgroups /\ select (logged ERROR) new = []) \/
       (select deleted_group new = [] /\
        select (logged ERROR) new = [timed_out_message]))) \/
     (exists e pre ev,
        fst (cleanup env label pgroups tr) = Raise e /\
        new = (pre ++ [(ev, Some e)])%list /\
        Forall (fun en => snd en = None) pre)).
Proof.
  destruct (cleanup_group_requests env label pgroups tr) as (new & E & Hpre & Hok).
  destruct (cleanup_halts env label pgroups tr) as (new' & E' & C).
  rewrite E in E'. apply app_inv_head in E'. subst new'.
  exists new. split; [exact E|]. split; [exact Hpre|].
  destruct C as [([] & Ha & F)|(e & pre & ev & He & Hn & F)].
  - left. split; [exact Ha|]. split; [exact F|]. exact (Hok Ha).
  - right. exists e, pre, ev. split; [exact He|]. split; assumption.
Qed.

(** X16: cleanup raises no exception of its own: it raises exactly when one
    of its requests to RDS raises, and then the exception of that request,
    which is the last thing it did.  In particular [rs] is bound whenever
    the test after the loop reads it. *)
Theorem cleanup_forwards_request_errors
  (env : Env) (label : string) (pgroups : list string) :
  forwards (cleanup env label pgroups).
Proof.
  intros tr.
  remember (cleanup env label pgroups tr) as run eqn:Hrun.
  unfold cleanup, rds_connect in Hrun. unfold bind at 1 in Hrun.
  destruct (@forwards_call unit EvConnectRds (boto_connect_rds env) tr)
    as (n0 & E0 & F0 & L0).
  destruct (call EvConnectRds (boto_connect_rds env) tr) as [[[]|e0] tr0];
    simpl in E0, F0, L0; subst tr0.
  2:{ subst run. exists n0. cbn [fst snd]. split; [reflexivity|]. split.
      - intros ev e' Hin. specialize (F0 ev e' Hin). congruence.
      - intros e' He. apply L0. congruence. }
  destruct (@cleanup_while_forwards env label 10 0 None None (tr ++ n0)%list)
    as (n1 & E1 & F1 & L1).
  unfold bind in Hrun.
  destruct (cleanup_while env 10 label 0 None None (tr ++ n0)%list)
    as [[st|e] tr1] eqn:Hw; simpl in E1, F1, L1; subst tr1.
  2:{ subst run. exists (n0 ++ n1)%list. cbn [fst snd].
      split; [symmetry; apply app_assoc|]. split.
      - intros ev e' Hin. apply in_app_or in Hin. destruct Hin as [Hin|Hin].
        + specialize (F0 ev e' Hin). discriminate F0.
        + specialize (F1 ev e' Hin). congruence.
      - intros e' He. destruct (L1 e') as (pre & ev & Hn); [congruence|]. subst n1.
        exists (n0 ++ pre)%list, ev. rewrite app_assoc. reflexivity. }
  destruct (cleanup_while_first_binds_rs _ _ _ Hw) as (rs & Hrs).
  cbv zeta in Hrun. rewrite Hrs in Hrun.
  assert (T : forwards (if Nat.eqb (fst (fst st)) 10
                        then if truthy rs then logging_error timed_out_message
                             else delete_parameter_groups env pgroups
                        else delete_parameter_groups env pgroups)).
  { destruct (Nat.eqb _ 10); [|apply delete_parameter_groups_forwards].
    destruct (truthy rs); [apply forwards_emit|apply delete_parameter_groups_forwards]. }
  destruct (T ((tr ++ n0) ++ n1)%list) as (n2 & E2 & F2 & L2).
  subst run. exists (n0 ++ n1 ++ n2)%list.
  split; [rewrite E2, <- !app_assoc; reflexivity|]. split.
  - intros ev e' Hin. apply in_app_or in Hin. destruct Hin as [Hin|Hin].
    + specialize (F0 ev e' Hin). discriminate F0.
    + apply in_app_or in Hin. destruct Hin as [Hin|Hin].
      * specialize (F1 ev e' Hin). discriminate F1.
      * exact (F2 ev e' Hin).
  - intros e' He. destruct (L2 e' He) as (pre & ev & Hn). subst n2.
    exists (n0 ++ n1 ++ pre)%list, ev. rewrite <- !app_assoc. reflexivity.
Qed.

(** ** create_db and db_status *)

Section CreateDbRequests.

Variable env : Env.

Lemma create_db_bootstrap_emits (P : entry -> Prop) number label param_grp inst :
  (forall d u p h n o, P (EvConnect d u p h n, o)) ->
  (forall o, P (EvAutocommit, o)) -> (forall o, P (EvCursor, o)) ->
  (forall o, P (EvCursorClose, o)) -> (forall o, P (EvDbClose, o)) ->
  (forall s o, P (EvExecute s, o)) ->
  (forall msg, P (EvLog ERROR msg, None)) ->
  emits P (create_db_bootstrap env number label param_grp inst).
Proof.
  intros Hc Ha Hcu Hcc Hdc He Hl.
  unfold create_db_bootstrap, connect, execute, autocommit, cursor, c_close, db_close.
  apply emits_bind; [apply emits_lift|]. intros hostname.
  apply emits_bind.
  { apply emits_bind; [apply emits_call; intros o; apply Hc|]. intros _.
    apply emits_bind; [apply emits_call; exact Ha|]. intros _. apply emits_ret. }
  intros db. apply emits_bind; [apply emits_call; exact Hcu|]. intros _.
  apply emits_bind; [|intros _; apply emits_ret].
  apply emits_try_finally.
  - apply emits_try_except.
    + apply emits_bind; [|intros _]; apply emits_call; intros o; apply He.
    + intros e tr. eexists. split; [reflexivity|]. constructor; [apply Hl|constructor].
  - apply emits_bind; [apply emits_call; exact Hcc|]. intros _.
    apply emits_call. exact Hdc.
Qed.

Lemma create_db_provision_requests number label cls param_grp tr :
  exists new,
    snd (create_db_provision env number label cls param_grp tr) = (tr ++ new)%list /\
    (select instance_request new = [] \/
     select instance_request new = [instance_name label number param_grp]).
Proof.
  remember (create_db_provision env number label cls param_grp tr) as run eqn:Hrun.
  unfold create_db_provision, rds_connect, logging_info, time_sleep in Hrun.
  unfold bind at 1 in Hrun. unfold call at 1 in Hrun. cbv beta zeta in Hrun.
  destruct (boto_connect_rds env tr) as [[]|e0]; cbn [exn_of] in Hrun.
  2:{ subst run. exists [(EvConnectRds, Some e0)]. split; [reflexivity|].
      left. reflexivity. }
  rewrite bind_emit in Hrun. unfold bind at 1 in Hrun. unfold call at 1 in Hrun.
  cbv beta zeta in Hrun.
  match type of Hrun with
  | context [rds_create_dbinstance env ?t ?a ?b ?c] =>
      destruct (rds_create_dbinstance env t a b c) as [inst|e1]
  end; cbn [exn_of] in Hrun.
  2:{ subst run. eexists. cbn [fst snd].
      split; [rewrite <- !app_assoc; reflexivity|]. right. reflexivity. }
  rewrite bind_emit in Hrun. unfold call in Hrun.
  subst run. eexists. cbn [fst snd].
  split; [rewrite <- !app_assoc; reflexivity|]. right. reflexivity.
Qed.

(** Log records of a loop that writes one debug record per element. *)
Lemma for_each_debug {A} (line : A -> string) (l : list A) (tr : trace) :
  for_each l (fun x => logging_debug (line x)) tr
  = (Ok tt, (tr ++ map (fun x => (EvLog DEBUG (line x), @None exn)) l)%list).
Proof.
  revert tr. induction l as [|x l IH]; intros tr; cbn [for_each map].
  - unfold ret. rewrite app_nil_r. reflexivity.
  - unfold logging_debug at 1. rewrite bind_emit, IH, <- app_assoc. reflexivity.
Qed.

Lemma select_debug_lines {A} (line : A -> string) (l : list A) :
  select (logged DEBUG) (map (fun x => (EvLog DEBUG (line x), @None exn)) l)
  = map line l.
Proof.
  induction l as [|x l IH]; simpl; [reflexivity|]. f_equal. exact IH.
Qed.

Lemma Forall_debug_lines {A} (line : A -> string) (l : list A) :
  Forall read_only (map (fun x => (EvLog DEBUG (line x), @None exn)) l).
Proof.
  induction l as [|x l IH]; simpl; constructor; [exact I|exact IH].
Qed.

End CreateDbRequests.



(** X18: db_status only looks: whatever RDS answers, the calls it makes
    are the connection to RDS and then at most one listing of all
    instances, and what it logs are debug records, nothing else.  When it
    returns, it returns the listing RDS gave, after one debug record per
    instance in the order of the listing, or the single record
    'No RDS instances' for an empty listing. *)
Theorem db_status_only_reads
  (env : Env) (show_endpoint : option (string * Z) -> string) (tr : trace) :
  exists new,
    snd (db_status env show_endpoint tr) = (tr ++ new)%list /\
    Forall read_only new /\
    (requests new = [EvConnectRds] \/
     requests new = [EvConnectRds; EvGetAllDbInstances None]) /\
    forall rs,
      fst (db_status env show_endpoint tr) = Ok rs ->
      rds_get_all_dbinstances env (tr ++ [(EvConnectRds, None)])%list None = Ok rs /\
      requests new = [EvConnectRds; EvGetAllDbInstances None] /\
      select (logged DEBUG) new =
        if truthy rs then map (status_line show_endpoint) rs
        else ["No RDS instances"].
Proof.
  remember (db_status env show_endpoint tr) as run eqn:Hrun.
  unfold db_status, rds_connect in Hrun.
  unfold bind at 1 in Hrun. unfold call at 1 in Hrun. cbv beta zeta in Hrun.
  destruct (boto_connect_rds env tr) as [[]|e0]; cbn [exn_of] in Hrun.
  2:{ subst run. exists [(EvConnectRds, Some e0)]. cbn [fst snd].
      split; [reflexivity|]. split; [constructor; [exact I|constructor]|].
      split; [left; reflexivity|].
      intros rs H. discriminate H. }
  unfold bind at 1 in Hrun. unfold call at 1 in Hrun. cbv beta zeta in Hrun.
  destruct (rds_get_all_dbinstances env (tr ++ [(EvConnectRds, None)])%list None)
    as [rs|e1] eqn:Hl; cbn [exn_of] in Hrun.
  2:{ subst run. exists [(EvConnectRds, None); (EvGetAllDbInstances None, Some e1)].
      cbn [fst snd]. split; [rewrite <- app_assoc; reflexivity|].
      split; [constructor; [exact I|]; constructor; [exact I|constructor]|].
      split; [right; reflexivity|].
      intros rs H. discriminate H. }
  assert (Hreq : forall {A} (line : A -> string) (l : list A),
            requests ([(EvConnectRds, None); (EvGetAllDbInstances None, None)]
                      ++ map (fun x => (EvLog DEBUG (line x), @None exn)) l)%list
            = [EvConnectRds; EvGetAllDbInstances None]).
  { intros A line l. unfold requests.
    induction l as [|x l IH]; [reflexivity|exact IH]. }
  destruct rs as [|inst rs]; cbn [truthy] in Hrun.
  - unfold logging_debug in Hrun. rewrite bind_emit in Hrun. unfold ret in Hrun.
    subst run. cbn [fst snd].
    exists [(EvConnectRds, None); (EvGetAllDbInstances None, None);
            (EvLog DEBUG "No RDS instances", None)].
    split; [rewrite <- !app_assoc; reflexivity|].
    split; [repeat constructor|].
    split; [right; reflexivity|].
    intros rs H. inversion H; subst. split; [reflexivity|]. split; reflexivity.
  - unfold bind in Hrun.
    rewrite (for_each_debug (status_line show_endpoint) (inst :: rs)) in Hrun.
    unfold ret in Hrun. subst run. cbn [fst snd].
    exists ([(EvConnectRds, None); (EvGetAllDbInstances None, None)]
            ++ map (fun x => (EvLog DEBUG (status_line show_endpoint x), @None exn))
                   (inst :: rs))%list.
    split; [rewrite <- !app_assoc; reflexivity|]. split.
    + apply Forall_app. split; [repeat constructor|apply Forall_debug_lines].
    + split; [right; apply Hreq|].
      intros rs' H. inversion H; subst. split; [reflexivity|].
      split; [apply Hreq|].
      rewrite select_app, select_debug_lines. reflexivity.
Qed.

(** ** The stages when the handle calls return *)


